(** * Fleet-management backend: alert reconciliation, analytics, trips,
      sub-trips and client payments.

    A shallow embedding of [src/routes/dashboard.py], [src/routes/trips.py]
    and [src/routes/clientpayment.py] over [src/models/mongo_models.py].

    Conventions of the embedding.
    - A naive [datetime] is the integer number of microseconds since the
      epoch; [timedelta(days=n)] is [n * 86400000000].  The bounds of
      [datetime] (years 1 to 9999) are outside the model; a parsed date
      that carries a UTC offset is in [AlertsChecked].
    - A Python [float] is idealised as an exact rational ([Q]): rounding,
      infinities and NaN are outside the model.
    - A MongoDB collection is the list of its documents in natural
      (insertion) order; [find_one] returns the first match, [update_one]
      changes the first match, [update_many] every match, [insert_one]
      appends a document under a fresh [_id].
    - Library functions whose text is not part of the repository
      ([dateutil.parser.parse], [datetime.fromisoformat], [strftime],
      [float] on strings, [bson.ObjectId]) are section variables. *)

From Stdlib Require Import ZArith QArith Qround Lqa List Sorted String Ascii Bool Lia DecimalString.
Import ListNotations.

Local Open Scope string_scope.
Local Open Scope Z_scope.

(** ** Common data *)

Definition datetime := Z.

Definition timedelta_days (n : Z) : Z := n * 86400000000.

(** A date-valued field of a stored document: absent or null, a BSON date,
    or a string. *)
Inductive date_field :=
| DNone
| DDatetime (t : datetime)
| DStr (s : string).

(** Truthiness of a string, as in [if s:]. *)
Definition truthy_str (s : string) : bool :=
  match s with EmptyString => false | _ => true end.

Definition or_else {A} (o : option A) (d : A) : A :=
  match o with Some x => x | None => d end.

(** [collection.update_one({'_id': oid}, {'$set': ...})]: the first
    document with that [_id] is replaced by its update. *)
Fixpoint update_first {A} (p : A -> bool) (f : A -> A) (l : list A) : list A :=
  match l with
  | [] => []
  | x :: r => if p x then f x :: r else x :: update_first p f r
  end.

(** [collection.delete_one({'_id': oid})] *)
Fixpoint delete_first {A} (p : A -> bool) (l : list A) : list A :=
  match l with
  | [] => []
  | x :: r => if p x then r else x :: delete_first p r
  end.

(** Stand-ins for the library functions, for the concrete examples: no
    string is a number or a date for [no_float] and [no_dateparse];
    [decimal] reads identifiers and instants written as decimal numbers;
    [hex_oid] reads an identifier as [bson.ObjectId] does, twenty-four
    hexadecimal digits in either case; [raw_strftime] prints the number of
    microseconds after the format. *)
Definition no_float (s : string) : option Q := None.

Definition no_dateparse (s : string) : option datetime := None.

Definition decimal (s : string) : option Z :=
  option_map Z.of_int (NilZero.int_of_string s).




Definition raw_oid_str (o : Z) : string := NilZero.string_of_int (Z.to_int o).

Definition raw_strftime (fmt : string) (t : datetime) : string :=
  fmt ++ ":" ++ NilZero.string_of_int (Z.to_int t).

(** ** src/routes/dashboard.py: the alert reconciliation engine *)

Module Dashboard.

Record Alert := mkAlert {
  a_id : Z;
  a_employee_id : option Z;
  a_employee_number : option string;
  a_truck_id : option Z;
  a_truck_number : option string;
  a_type : string;
  a_severity : string;
  a_title : string;
  a_message : string;
  a_status : string;
  a_alert_date : datetime }.

Record Employee := mkEmployee {
  e_id : Z;
  e_status : string;
  e_license_expiry : date_field;
  e_employee_number : option string;
  e_first_name : string;
  e_last_name : string }.

Record Truck := mkTruck {
  t_id : Z;
  t_status : string;
  t_insurance_expiry : date_field;
  t_fc_expiry : date_field;
  t_permit_expiry : date_field;
  t_truck_number : option string }.

(** The alerts collection, with the number of documents modified or
    inserted so far (pymongo's [modified_count] and inserts, summed). *)
Record Coll := mkColl {
  docs : list Alert;
  modified : nat }.

Definition set_status (st : string) (a : Alert) : Alert :=
  mkAlert (a_id a) (a_employee_id a) (a_employee_number a) (a_truck_id a)
          (a_truck_number a) (a_type a) (a_severity a) (a_title a)
          (a_message a) st (a_alert_date a).

(** [{'$set': {'status': 'Inactive'}}] on one document: the document after
    the update and whether it was modified. *)
Definition deactivate (a : Alert) : Alert * nat :=
  (set_status "Inactive" a,
   if String.eqb (a_status a) "Inactive" then 0%nat else 1%nat).

Definition find_one (flt : Alert -> bool) (c : Coll) : option Alert :=
  List.find flt (docs c).

Fixpoint update_one_docs (flt : Alert -> bool) (l : list Alert)
  : list Alert * nat :=
  match l with
  | [] => ([], 0%nat)
  | a :: r =>
      if flt a then (fst (deactivate a) :: r, snd (deactivate a))
      else let p := update_one_docs flt r in (a :: fst p, snd p)
  end.

Fixpoint update_many_docs (flt : Alert -> bool) (l : list Alert)
  : list Alert * nat :=
  match l with
  | [] => ([], 0%nat)
  | a :: r =>
      let p := update_many_docs flt r in
      if flt a then (fst (deactivate a) :: fst p, (snd (deactivate a) + snd p)%nat)
      else (a :: fst p, snd p)
  end.

Definition update_one (flt : Alert -> bool) (c : Coll) : Coll :=
  let p := update_one_docs flt (docs c) in
  mkColl (fst p) (modified c + snd p).

Definition update_many (flt : Alert -> bool) (c : Coll) : Coll :=
  let p := update_many_docs flt (docs c) in
  mkColl (fst p) (modified c + snd p).

(** A fresh [_id]: larger than every [_id] of the collection. *)
Definition fresh_id (l : list Alert) : Z :=
  1 + fold_right (fun a m => Z.max (a_id a) m) 0 l.

Definition with_id (i : Z) (a : Alert) : Alert :=
  mkAlert i (a_employee_id a) (a_employee_number a) (a_truck_id a)
          (a_truck_number a) (a_type a) (a_severity a) (a_title a)
          (a_message a) (a_status a) (a_alert_date a).

Definition insert_one (a : Alert) (c : Coll) : Coll :=
  mkColl (docs c ++ [with_id (fresh_id (docs c)) a]) (S (modified c)).

(** Query filters. *)
Definition opt_eqb (o : option Z) (i : Z) : bool :=
  match o with Some j => Z.eqb j i | None => false end.

Definition by_id (i : Z) (a : Alert) : bool := Z.eqb (a_id a) i.

Inductive owner_kind := OwnerEmployee | OwnerTruck.

Definition owner_is (k : owner_kind) (i : Z) (a : Alert) : bool :=
  match k with
  | OwnerEmployee => opt_eqb (a_employee_id a) i
  | OwnerTruck => opt_eqb (a_truck_id a) i
  end.

(** [{'<owner>_id': i, 'status': 'Active'}] *)
Definition q_owner_active (k : owner_kind) (i : Z) (a : Alert) : bool :=
  owner_is k i a && String.eqb (a_status a) "Active".

(** [{'<owner>_id': i, 'type': ty, 'status': 'Active'}] *)
Definition q_active (k : owner_kind) (i : Z) (ty : string) (a : Alert) : bool :=
  owner_is k i a && String.eqb (a_type a) ty && String.eqb (a_status a) "Active".

Definition remove_inactive_employee_alerts (employees : list Employee)
  (c : Coll) : Coll :=
  let inactive_employees :=
    filter (fun e => String.eqb (e_status e) "Inactive") employees in
  fold_left (fun c emp => update_many (q_owner_active OwnerEmployee (e_id emp)) c)
            inactive_employees c.

Definition remove_inactive_truck_alerts (trucks : list Truck)
  (c : Coll) : Coll :=
  let inactive_trucks :=
    filter (fun t => String.eqb (t_status t) "Inactive") trucks in
  fold_left (fun c truck => update_many (q_owner_active OwnerTruck (t_id truck)) c)
            inactive_trucks c.

(** What the four [check_and_create_*_expiry_alerts] functions differ in:
    the owning collection, the two alert types and the wording. *)
Record Monitor := mkMonitor {
  m_owner : owner_kind;
  m_soon_type : string;
  m_expired_type : string;
  m_title_word : string;
  m_message_word : string }.

(** What one loop iteration reads from the entity [emp] or [truck]. *)
Record Subject := mkSubject {
  s_id : Z;
  s_expiry : date_field;
  s_number : option string;
  s_name : string }.

Definition subject_of_employee (emp : Employee) : Subject :=
  mkSubject (e_id emp) (e_license_expiry emp) (e_employee_number emp)
            (e_first_name emp ++ " " ++ e_last_name emp).

Definition subject_of_truck (field : Truck -> date_field) (truck : Truck)
  : Subject :=
  mkSubject (t_id truck) (field truck) (t_truck_number truck)
            (match t_truck_number truck with Some n => n | None => "" end).

(** The two clock readings of one pass: [soon = utcnow() + 30 days] is
    taken first, [now = utcnow()] second. *)
Record Readings := mkReadings {
  r_first : datetime;
  r_second : datetime }.

Section Reconcile.

Variable dateparse : string -> option datetime.
Variable strftime : string -> datetime -> string.

(** Lines 41-46: the expiry date after the optional parse; [None] is a
    falsy value ([None], the empty string, or a string that does not
    parse). *)
Definition resolve_expiry (v : date_field) : option datetime :=
  match v with
  | DNone => None
  | DDatetime t => Some t
  | DStr s => if truthy_str s then dateparse s else None
  end.

Definition new_alert (m : Monitor) (sub : Subject) (expired : bool)
  (expiry_date : datetime) : Alert :=
  let d := strftime "%d/%m/%Y" expiry_date in
  mkAlert 0
    (match m_owner m with OwnerEmployee => Some (s_id sub) | OwnerTruck => None end)
    (match m_owner m with OwnerEmployee => s_number sub | OwnerTruck => None end)
    (match m_owner m with OwnerTruck => Some (s_id sub) | OwnerEmployee => None end)
    (match m_owner m with OwnerTruck => s_number sub | OwnerEmployee => None end)
    (if expired then m_expired_type m else m_soon_type m)
    (if expired then "danger" else "warning")
    (if expired
     then m_title_word m ++ " expired for " ++ s_name sub
     else m_title_word m ++ " expiring soon for " ++ s_name sub)
    (if expired
     then m_message_word m ++ " for " ++ s_name sub ++ " expired on " ++ d ++ "."
     else m_message_word m ++ " for " ++ s_name sub ++ " expires on " ++ d
          ++ ". Please renew.")
    "Active"
    expiry_date.

(** [if existing: update_one({'_id': existing['_id']}, ...)] *)
Definition deactivate_existing (existing : option Alert) (c : Coll) : Coll :=
  match existing with
  | Some a => update_one (by_id (a_id a)) c
  | None => c
  end.

(** The body of the [for] loop of a pass, for an expiry date that
    compares with the naive [now]: a stored date, or the parse of a string
    without UTC offset.  [AlertsChecked.pass_loop] adds the exception that
    a date with an offset raises at the first comparison. *)
Definition reconcile_one (m : Monitor) (soon now : datetime) (c : Coll)
  (sub : Subject) : Coll :=
  let k := m_owner m in
  let expiry_date := resolve_expiry (s_expiry sub) in
  let existing := find_one (q_active k (s_id sub) (m_soon_type m)) c in
  match expiry_date with
  | None => deactivate_existing existing c
  | Some expiry_date =>
      if expiry_date <? now then
        let c1 := deactivate_existing existing c in
        let expired_existing :=
          find_one (q_active k (s_id sub) (m_expired_type m)) c1 in
        match expired_existing with
        | None => insert_one (new_alert m sub true expiry_date) c1
        | Some _ => c1
        end
      else if expiry_date <=? soon then
        let c1 := update_many (q_active k (s_id sub) (m_expired_type m)) c in
        match existing with
        | None => insert_one (new_alert m sub false expiry_date) c1
        | Some _ => c1
        end
      else
        let c1 := deactivate_existing existing c in
        update_many (q_active k (s_id sub) (m_expired_type m)) c1
  end.

Definition reconcile_pass (m : Monitor) (r : Readings)
  (subjects : list Subject) (c : Coll) : Coll :=
  let soon := r_first r + timedelta_days 30 in
  let now := r_second r in
  fold_left (reconcile_one m soon now) subjects c.

Definition license_monitor : Monitor :=
  mkMonitor OwnerEmployee "license_expiry" "license_expired" "License" "License".
Definition insurance_monitor : Monitor :=
  mkMonitor OwnerTruck "insurance_expiry" "insurance_expired" "Insurance" "Insurance".
Definition fc_monitor : Monitor :=
  mkMonitor OwnerTruck "fc_expiry" "fc_expired" "FC" "Fitness Certificate".
Definition permit_monitor : Monitor :=
  mkMonitor OwnerTruck "permit_expiry" "permit_expired" "Permit" "Permit".

Definition active_employees (employees : list Employee) : list Employee :=
  filter (fun e => String.eqb (e_status e) "Active") employees.

Definition active_trucks (trucks : list Truck) : list Truck :=
  filter (fun t => String.eqb (t_status t) "Active") trucks.

Definition check_and_create_license_expiry_alerts (r : Readings)
  (employees : list Employee) (c : Coll) : Coll :=
  reconcile_pass license_monitor r
    (map subject_of_employee (active_employees employees)) c.

Definition check_and_create_insurance_expiry_alerts (r : Readings)
  (trucks : list Truck) (c : Coll) : Coll :=
  reconcile_pass insurance_monitor r
    (map (subject_of_truck t_insurance_expiry) (active_trucks trucks)) c.

Definition check_and_create_fc_expiry_alerts (r : Readings)
  (trucks : list Truck) (c : Coll) : Coll :=
  reconcile_pass fc_monitor r
    (map (subject_of_truck t_fc_expiry) (active_trucks trucks)) c.

Definition check_and_create_permit_expiry_alerts (r : Readings)
  (trucks : list Truck) (c : Coll) : Coll :=
  reconcile_pass permit_monitor r
    (map (subject_of_truck t_permit_expiry) (active_trucks trucks)) c.

(** The clock readings of one [GET /dashboard/alerts]. *)
Record Clock := mkClock {
  k_license : Readings;
  k_insurance : Readings;
  k_fc : Readings;
  k_permit : Readings }.

(** Lines 374-379 of [get_alerts]: the reconciliation. *)
Definition reconcile_alerts (k : Clock) (employees : list Employee)
  (trucks : list Truck) (c : Coll) : Coll :=
  let c := remove_inactive_employee_alerts employees c in
  let c := remove_inactive_truck_alerts trucks c in
  let c := check_and_create_license_expiry_alerts (k_license k) employees c in
  let c := check_and_create_insurance_expiry_alerts (k_insurance k) trucks c in
  let c := check_and_create_fc_expiry_alerts (k_fc k) trucks c in
  check_and_create_permit_expiry_alerts (k_permit k) trucks c.

(** *** The at-most-one-active invariant *)

Definition active_count (k : owner_kind) (i : Z) (ty : string)
  (l : list Alert) : nat :=
  List.length (filter (q_active k i ty) l).

(** For every owner, and every alert type (which names both the monitored
    attribute and the kind of alert), at most one document is Active. *)
Definition at_most_one_active (c : Coll) : Prop :=
  forall k i ty, (active_count k i ty (docs c) <= 1)%nat.

(** One step of the reconciliation: one of the six functions that
    [get_alerts] calls, a single loop iteration of a pass, or the whole
    sequence. *)
Inductive step : Coll -> Coll -> Prop :=
| step_remove_employees employees c :
    step c (remove_inactive_employee_alerts employees c)
| step_remove_trucks trucks c :
    step c (remove_inactive_truck_alerts trucks c)
| step_license r employees c :
    step c (check_and_create_license_expiry_alerts r employees c)
| step_insurance r trucks c :
    step c (check_and_create_insurance_expiry_alerts r trucks c)
| step_fc r trucks c :
    step c (check_and_create_fc_expiry_alerts r trucks c)
| step_permit r trucks c :
    step c (check_and_create_permit_expiry_alerts r trucks c)
| step_iteration m soon now sub c :
    step c (reconcile_one m soon now c sub)
| step_reconcile k employees trucks c :
    step c (reconcile_alerts k employees trucks c).

(** A sequential run: any number of steps, one after the other. *)
Inductive run : Coll -> Coll -> Prop :=
| run_nil c : run c c
| run_cons c1 c2 c3 : run c1 c2 -> step c2 c3 -> run c1 c3.

End Reconcile.

(** *** Predicates used by the statements *)

Definition empty_alerts : Coll := mkColl [] 0.

Definition le_docs (c c' : Coll) : Prop :=
  forall k i ty,
    (active_count k i ty (docs c') <= active_count k i ty (docs c))%nat.

Definition count (q : Alert -> bool) (l : list Alert) : nat :=
  List.length (filter q l).

(** A filter that selects Active documents only. *)
Definition active_filter (q : Alert -> bool) : Prop :=
  forall a, q (set_status "Inactive" a) = false.

Definition disjoint (q q' : Alert -> bool) : Prop :=
  forall a, q a = true -> q' a = false.

Definition has_active (k : owner_kind) (i : Z) (ty : string) (c : Coll) : bool :=
  existsb (q_active k i ty) (docs c).

(** The branch that the tests of lines 54, 63, 85 and 102 select. *)
Inductive due := NoExpiry | Expired | ExpiringSoon | NotYetDue.

Definition due_of (soon now : datetime) (expiry_date : option datetime) : due :=
  match expiry_date with
  | None => NoExpiry
  | Some d =>
      if d <? now then Expired
      else if d <=? soon then ExpiringSoon
      else NotYetDue
  end.

Definition due_at (dateparse : string -> option datetime) (r : Readings)
  (sub : Subject) : due :=
  due_of (r_first r + timedelta_days 30) (r_second r)
         (resolve_expiry dateparse (s_expiry sub)).

(** The alerts of a subject already are what its branch would make them. *)
Definition settled (m : Monitor) (b : due) (sub : Subject) (c : Coll) : Prop :=
  let soon_n := count (q_active (m_owner m) (s_id sub) (m_soon_type m)) (docs c) in
  let expired_n :=
    count (q_active (m_owner m) (s_id sub) (m_expired_type m)) (docs c) in
  match b with
  | NoExpiry => soon_n = 0%nat
  | Expired => soon_n = 0%nat /\ (1 <= expired_n)%nat
  | ExpiringSoon => expired_n = 0%nat /\ (1 <= soon_n)%nat
  | NotYetDue => soon_n = 0%nat /\ expired_n = 0%nat
  end.

(** Two passes of one monitor select the same branch for every subject. *)
Definition same_due (dateparse : string -> option datetime)
  (r1 r2 : Readings) (subs : list Subject) : Prop :=
  forall sub, In sub subs -> due_at dateparse r1 sub = due_at dateparse r2 sub.

Definition employee_subjects (employees : list Employee) : list Subject :=
  map subject_of_employee (active_employees employees).

Definition truck_subjects (field : Truck -> date_field) (trucks : list Truck)
  : list Subject :=
  map (subject_of_truck field) (active_trucks trucks).

(** Between two runs no expiry date has moved to another branch. *)
Definition same_branches (dateparse : string -> option datetime)
  (k1 k2 : Clock) (employees : list Employee) (trucks : list Truck) : Prop :=
  same_due dateparse (k_license k1) (k_license k2) (employee_subjects employees)
  /\ same_due dateparse (k_insurance k1) (k_insurance k2)
              (truck_subjects t_insurance_expiry trucks)
  /\ same_due dateparse (k_fc k1) (k_fc k2) (truck_subjects t_fc_expiry trucks)
  /\ same_due dateparse (k_permit k1) (k_permit k2)
              (truck_subjects t_permit_expiry trucks).

Definition unique_ids (c : Coll) : Prop := NoDup (map a_id (docs c)).

Definition monitors : list Monitor :=
  [license_monitor; insurance_monitor; fc_monitor; permit_monitor].

(** No alert type of [m] is an alert type of [m']. *)
Definition types_apart (m m' : Monitor) : Prop :=
  m_soon_type m <> m_soon_type m' /\ m_soon_type m <> m_expired_type m'
  /\ m_expired_type m <> m_soon_type m' /\ m_expired_type m <> m_expired_type m'.

(** What holds of the collection after one reconciliation. *)
Definition reconciled (dateparse : string -> option datetime) (k : Clock) (employees : list Employee)
  (trucks : list Truck) (c : Coll) : Prop :=
  (forall e, In e employees -> e_status e = "Inactive" ->
     count (q_owner_active OwnerEmployee (e_id e)) (docs c) = 0%nat)
  /\ (forall t, In t trucks -> t_status t = "Inactive" ->
     count (q_owner_active OwnerTruck (t_id t)) (docs c) = 0%nat)
  /\ (forall sub, In sub (employee_subjects employees) ->
     settled license_monitor (due_at dateparse (k_license k) sub) sub c)
  /\ (forall sub, In sub (truck_subjects t_insurance_expiry trucks) ->
     settled insurance_monitor (due_at dateparse (k_insurance k) sub) sub c)
  /\ (forall sub, In sub (truck_subjects t_fc_expiry trucks) ->
     settled fc_monitor (due_at dateparse (k_fc k) sub) sub c)
  /\ (forall sub, In sub (truck_subjects t_permit_expiry trucks) ->
     settled permit_monitor (due_at dateparse (k_permit k) sub) sub c).

(** The Active alerts, as [find({'status': 'Active'})] returns them. *)
Definition active_alerts (c : Coll) : list Alert :=
  filter (fun a => String.eqb (a_status a) "Active") (docs c).

(** Sample data for the concrete examples. *)
Definition sample_employee (expiry : datetime) : Employee :=
  mkEmployee 1 "Active" (DDatetime expiry) (Some "E-1") "Asha" "Rao".

Definition sample_truck : Truck :=
  mkTruck 7 "Active" (DDatetime 5000000000000) DNone (DStr "") (Some "TN01").

Definition sample_clock (t : datetime) : Clock :=
  mkClock (mkReadings t (t + 1)) (mkReadings (t + 2) (t + 3))
          (mkReadings (t + 4) (t + 5)) (mkReadings (t + 6) (t + 7)).

End Dashboard.

(** ** src/routes/dashboard.py: the analytics aggregator *)

Module Analytics.

(** A numeric field of a stored document: absent or null, a number, or a
    string. *)
Inductive num_field :=
| NMissing
| NNum (q : Q)
| NStr (s : string).

(** A reference field: absent or null, an [ObjectId], or a string. *)
Inductive id_field :=
| IdMissing
| IdObj (o : Z)
| IdStr (s : string).

Record Trip := mkTrip {
  trip_truck_id : id_field;
  trip_driver_id : id_field;
  trip_start_date : date_field;
  trip_status : option string;
  trip_region : option string;
  trip_distance_km : num_field;
  trip_revenue : num_field;
  trip_fuel_cost : num_field;
  trip_fuel_consumed : num_field;
  trip_other_expenses : num_field }.

Record Truck := mkTruck {
  truck_id : Z;
  truck_status : string;
  truck_number : option string }.

Record ProfitEntry := mkProfitEntry {
  pe_date : string;
  pe_profit : Q;
  pe_revenue : Q;
  pe_expenses : Q }.

Record FuelUsage := mkFuelUsage {
  fu_truck_number : string;
  fu_fuel_consumed : Q }.

Record EfficiencyEntry := mkEfficiencyEntry {
  ee_date : string;
  ee_efficiency : Q }.

Record TruckStat := mkTruckStat {
  ts_truck_number : string;
  ts_trips : nat;
  ts_revenue : Q;
  ts_profit : Q;
  ts_distance : Q;
  ts_avg_profit_per_trip : Q }.

Record Summary := mkSummary {
  total_trips : nat;
  total_revenue : Q;
  total_distance : Q;
  avg_fuel_efficiency : Q }.

Record Payload := mkPayload {
  summary : Summary;
  profit_trends : list ProfitEntry;
  fuel_usage : list FuelUsage;
  fuel_efficiency : list EfficiencyEntry;
  high_performing_trucks : list TruckStat }.

(** The local variables of lines 443-450. *)
Record Totals := mkTotals {
  l_total_trips : nat;
  l_total_distance : Q;
  l_total_revenue : Q;
  l_total_fuel_cost : Q;
  l_total_fuel_consumed : Q;
  l_total_other_expenses : Q;
  l_total_profit : Q;
  l_avg_fuel_efficiency : Q }.

(** [x / y] on floats: [None] stands for [ZeroDivisionError]. *)
Definition truediv (x y : Q) : option Q :=
  if Qeq_bool y 0 then None else Some (x / y)%Q.

(** [0 < x] *)
Definition positive (x : Q) : bool := negb (Qle_bool x 0).

(** [round(x, 2)], to the nearest hundredth, ties to even. *)
Definition round2 (x : Q) : Q :=
  let n := (x * 100)%Q in
  let z := Qfloor n in
  let frac := (n - inject_Z z)%Q in
  let up :=
    match Qcompare frac (1 # 2) with
    | Lt => false
    | Gt => true
    | Eq => Z.odd z
    end in
  Qred (Qmake (if up then z + 1 else z) 100).

(** [sum(f(x) for x in l)] *)
Definition sum_by {A} (f : A -> Q) (l : list A) : Q :=
  fold_left (fun acc x => (acc + f x)%Q) l 0%Q.

(** [reversed(range(days))] *)
Definition reversed_range (days : Z) : list Z :=
  rev (map Z.of_nat (seq 0 (Z.to_nat days))).

(** [sorted(l, key=..., reverse=True)]: stable, largest key first. *)
Fixpoint insert_desc {A} (key : A -> Q) (x : A) (l : list A) : list A :=
  match l with
  | [] => [x]
  | y :: r =>
      if positive (key y - key x)%Q then y :: insert_desc key x r
      else x :: y :: r
  end.

Definition sorted_desc {A} (key : A -> Q) (l : list A) : list A :=
  fold_right (insert_desc key) [] l.

Section Analytics.

Variable float_of_string : string -> option Q.
Variable dateparse : string -> option datetime.
Variable strftime : string -> datetime -> string.
Variable ObjectId : string -> option Z.
Variable oid_str : Z -> string.

Definition safe_float (val : num_field) : Q :=
  match val with
  | NMissing => 0
  | NNum q => q
  | NStr s =>
      if truthy_str s then
        match float_of_string s with Some q => q | None => 0 end
      else 0
  end.

(** [ObjectId(x) if ObjectId.is_valid(x) else x] *)
Definition id_of_param (x : string) : id_field :=
  match ObjectId x with Some o => IdObj o | None => IdStr x end.

(** Equality match of a query value against a stored field. *)
Definition id_matches (want have : id_field) : bool :=
  match want, have with
  | IdObj a, IdObj b => Z.eqb a b
  | IdStr a, IdStr b => String.eqb a b
  | _, _ => false
  end.

(** [str(x)] of a reference field. *)
Definition str_of_id (x : id_field) : string :=
  match x with
  | IdMissing => "None"
  | IdObj o => oid_str o
  | IdStr s => s
  end.

(** The store query of lines 420-426: a date range matches BSON dates
    only. *)
Definition trip_filter (start_date end_date : datetime)
  (truck_id driver_id : string) (trip : Trip) : bool :=
  (match trip_start_date trip with
   | DDatetime t => (start_date <=? t) && (t <=? end_date)
   | _ => false
   end)
  && (if truthy_str truck_id
      then id_matches (id_of_param truck_id) (trip_truck_id trip) else true)
  && (if truthy_str driver_id
      then id_matches (id_of_param driver_id) (trip_driver_id trip) else true).

(** Lines 429-434: [start_date] after the optional parse. *)
Definition parsed_start_date (trip : Trip) : option datetime :=
  match trip_start_date trip with
  | DDatetime t => Some t
  | DStr s => dateparse s
  | DNone => None
  end.

Definition is_completed (trip : Trip) : bool :=
  match trip_status trip with
  | Some st => String.eqb st "Completed"
  | None => false
  end.

Definition in_region (region : string) (trip : Trip) : bool :=
  match trip_region trip with
  | Some r => String.eqb r region
  | None => false
  end.

(** Lines 437-441. *)
Definition completed_trips (region : string) (trips : list Trip) : list Trip :=
  let completed := filter is_completed trips in
  if truthy_str region then filter (in_region region) completed else completed.

(** Lines 443-450. *)
Definition totals (completed : list Trip) : option Totals :=
  let total_trips := List.length completed in
  let total_distance := sum_by (fun t => safe_float (trip_distance_km t)) completed in
  let total_revenue := sum_by (fun t => safe_float (trip_revenue t)) completed in
  let total_fuel_cost := sum_by (fun t => safe_float (trip_fuel_cost t)) completed in
  let total_fuel_consumed :=
    sum_by (fun t => safe_float (trip_fuel_consumed t)) completed in
  let total_other_expenses :=
    sum_by (fun t => safe_float (trip_other_expenses t)) completed in
  let total_profit := (total_revenue - total_fuel_cost - total_other_expenses)%Q in
  match (if positive total_fuel_consumed
         then truediv total_distance total_fuel_consumed else Some 0%Q) with
  | Some avg =>
      Some (mkTotals total_trips total_distance total_revenue total_fuel_cost
              total_fuel_consumed total_other_expenses total_profit avg)
  | None => None
  end.

(** [trip.get('start_date') and day <= trip['start_date'] < next_day] *)
Definition in_day (day : datetime) (trip : Trip) : bool :=
  match parsed_start_date trip with
  | Some t => (day <=? t) && (t <? day + timedelta_days 1)
  | None => false
  end.

(** The body of the loop of lines 453-467. *)
Definition profit_entry (completed : list Trip) (start_date : datetime)
  (i : Z) : ProfitEntry :=
  let day := start_date + timedelta_days i in
  let day_trips := filter (in_day day) completed in
  let day_revenue := sum_by (fun t => safe_float (trip_revenue t)) day_trips in
  let day_fuel_cost := sum_by (fun t => safe_float (trip_fuel_cost t)) day_trips in
  let day_other_expenses :=
    sum_by (fun t => safe_float (trip_other_expenses t)) day_trips in
  let day_profit := (day_revenue - day_fuel_cost - day_other_expenses)%Q in
  let day_expenses := (day_fuel_cost + day_other_expenses)%Q in
  mkProfitEntry (strftime "%Y-%m-%d" day) day_profit day_revenue day_expenses.

Definition profit_trends_of (completed : list Trip) (start_date : datetime)
  (days : Z) : list ProfitEntry :=
  map (profit_entry completed start_date) (reversed_range days).

Definition trips_of_truck (completed : list Trip) (truck : Truck) : list Trip :=
  filter (fun t => String.eqb (str_of_id (trip_truck_id t))
                              (oid_str (truck_id truck))) completed.

Definition number_or_unknown (truck : Truck) : string :=
  match truck_number truck with Some n => n | None => "Unknown" end.

(** Lines 471-478. *)
Definition fuel_usage_of (completed : list Trip) (trucks : list Truck)
  : list FuelUsage :=
  map (fun truck =>
         mkFuelUsage (number_or_unknown truck)
           (sum_by (fun t => safe_float (trip_fuel_consumed t))
                   (trips_of_truck completed truck)))
      trucks.

(** The body of the loop of lines 481-491. *)
Definition efficiency_entry (completed : list Trip) (start_date : datetime)
  (i : Z) : option EfficiencyEntry :=
  let day := start_date + timedelta_days i in
  let day_trips := filter (in_day day) completed in
  let day_distance := sum_by (fun t => safe_float (trip_distance_km t)) day_trips in
  let day_fuel := sum_by (fun t => safe_float (trip_fuel_consumed t)) day_trips in
  match (if positive day_fuel then truediv day_distance day_fuel else Some 0%Q) with
  | Some efficiency => Some (mkEfficiencyEntry (strftime "%Y-%m-%d" day) efficiency)
  | None => None
  end.

(** A loop whose body may raise. *)
Fixpoint map_opt {A B} (f : A -> option B) (l : list A) : option (list B) :=
  match l with
  | [] => Some []
  | x :: r =>
      match f x with
      | Some y =>
          match map_opt f r with Some ys => Some (y :: ys) | None => None end
      | None => None
      end
  end.

(** The body of the loop of lines 494-510. *)
Definition truck_stat (completed : list Trip) (truck : Truck) : option TruckStat :=
  let truck_trips := trips_of_truck completed truck in
  let truck_revenue := sum_by (fun t => safe_float (trip_revenue t)) truck_trips in
  let truck_fuel_cost := sum_by (fun t => safe_float (trip_fuel_cost t)) truck_trips in
  let truck_other_expenses :=
    sum_by (fun t => safe_float (trip_other_expenses t)) truck_trips in
  let truck_profit := (truck_revenue - truck_fuel_cost - truck_other_expenses)%Q in
  let truck_distance := sum_by (fun t => safe_float (trip_distance_km t)) truck_trips in
  let trips_count := List.length truck_trips in
  match (if (0 <? trips_count)%nat
         then truediv truck_profit (inject_Z (Z.of_nat trips_count))
         else Some 0%Q) with
  | Some avg_profit_per_trip =>
      Some (mkTruckStat (number_or_unknown truck) trips_count truck_revenue
              truck_profit truck_distance avg_profit_per_trip)
  | None => None
  end.

(** [get_analytics], from the query parameters ([days] after [int(...)]),
    the clock reading and the two collections; [None] is an exception (the
    500 answer). *)
Definition get_analytics (days : Z) (truck_id driver_id region : string)
  (utcnow : datetime) (all_trips : list Trip) (all_trucks : list Truck)
  : option Payload :=
  let end_date := utcnow in
  let start_date := end_date - timedelta_days days in
  let trips := filter (trip_filter start_date end_date truck_id driver_id) all_trips in
  let completed := completed_trips region trips in
  match totals completed with
  | None => None
  | Some tot =>
      let trends := profit_trends_of completed start_date days in
      let trucks := filter (fun t => String.eqb (truck_status t) "Active") all_trucks in
      let usage := fuel_usage_of completed trucks in
      match map_opt (efficiency_entry completed start_date) (reversed_range days) with
      | None => None
      | Some efficiency =>
          match map_opt (truck_stat completed) trucks with
          | None => None
          | Some stats =>
              let top := firstn 5 (sorted_desc ts_profit stats) in
              Some (mkPayload
                      (mkSummary (l_total_trips tot) (l_total_revenue tot)
                         (l_total_distance tot)
                         (round2 (l_avg_fuel_efficiency tot)))
                      trends usage efficiency top)
          end
      end
  end.

End Analytics.

(** Sample data for the concrete examples. *)

(** A completed trip half a day before [utcnow], for a window ending at
    [utcnow = timedelta_days 10]. *)
Definition sample_trip : Trip :=
  mkTrip (IdStr "7") (IdStr "d1") (DDatetime (timedelta_days 10 - 43200000000))
         (Some "Completed") (Some "South")
         (NNum 120) (NNum 100) (NNum 30) (NNum 8) (NNum 20).

Definition sample_truck : Truck := mkTruck 7 "Active" (Some "TN01").

End Analytics.

(** ** Requests and replies *)

(** A JSON value of a request body, as far as the handlers tell them
    apart. *)
Inductive json :=
| JNull
| JBool (b : bool)
| JNum (q : Q)
| JStr (s : string).

(** [request.get_json()]: an object, as the list of its members. *)
Definition body := list (string * json).

(** [data.get(k)]; [None] when [k not in data]. *)
Fixpoint lookup (k : string) (data : body) : option json :=
  match data with
  | [] => None
  | (k', v) :: r => if String.eqb k' k then Some v else lookup k r
  end.

(** [k in data] *)
Definition has_key (k : string) (data : body) : bool :=
  match lookup k data with Some _ => true | None => false end.

(** Truthiness of a JSON value, as in [if v:]. *)
Definition truthy (v : json) : bool :=
  match v with
  | JNull => false
  | JBool b => b
  | JNum q => negb (Qeq_bool q 0)
  | JStr s => truthy_str s
  end.

(** Equality of values, as an equality match of the store decides it. *)
Definition json_eqb (a b : json) : bool :=
  match a, b with
  | JNull, JNull => true
  | JBool x, JBool y => Bool.eqb x y
  | JNum x, JNum y => Qeq_bool x y
  | JStr x, JStr y => String.eqb x y
  | _, _ => false
  end.

(** Equality of values as Python's [==] and [!=] decide it: a boolean is
    the number 1 or 0. *)
Definition py_eqb (a b : json) : bool :=
  match a, b with
  | JBool x, JNum y => Qeq_bool (if x then 1 else 0) y
  | JNum x, JBool y => Qeq_bool x (if y then 1 else 0)
  | _, _ => json_eqb a b
  end.

Inductive reply :=
| Ok
| Created
| BadRequest (error : string)
| NotFound (error : string)
| ServerError.

Definition status_code (r : reply) : Z :=
  match r with
  | Ok => 200
  | Created => 201
  | BadRequest _ => 400
  | NotFound _ => 404
  | ServerError => 500
  end.

(** The first of the required fields that the body lacks. *)
Fixpoint missing_field (required_fields : list string) (data : body)
  : option string :=
  match required_fields with
  | [] => None
  | field :: r =>
      if has_key field data then missing_field r data else Some field
  end.

(** [str.lower()] and [str.strip()] on ASCII. *)
Definition lower_ascii (c : ascii) : ascii :=
  let n := nat_of_ascii c in
  if ((65 <=? n) && (n <=? 90))%nat then ascii_of_nat (n + 32) else c.

Fixpoint lower (s : string) : string :=
  match s with
  | EmptyString => EmptyString
  | String c r => String (lower_ascii c) (lower r)
  end.

Definition is_space (c : ascii) : bool :=
  let n := nat_of_ascii c in
  ((9 <=? n) && (n <=? 13) || (28 <=? n) && (n <=? 32))%nat.

Fixpoint lstrip (s : string) : string :=
  match s with
  | EmptyString => EmptyString
  | String c r => if is_space c then lstrip r else s
  end.

Fixpoint rstrip (s : string) : string :=
  match s with
  | EmptyString => EmptyString
  | String c r =>
      match rstrip r with
      | EmptyString => if is_space c then EmptyString else String c EmptyString
      | r' => String c r'
      end
  end.

Definition strip (s : string) : string := rstrip (lstrip s).

(** ** src/routes/trips.py *)

Module Trips.

(** An employee document, with the fields the trip handlers read.  A
    field can hold any value of a request body; an absent field is the
    empty string, as [driver.get(k, '')] reads it. *)
Record Employee := mkEmployee {
  emp_oid : Z;
  emp_status : json;
  emp_position : json;
  emp_first_name : json;
  emp_last_name : json }.

(** A trip document, with the fields [create_trip] writes.  The
    [created_at] and [updated_at] stamps of [BaseModel] are left out. *)
Record Trip := mkTrip {
  trip_oid : Z;
  trip_number : json;
  trip_truck_id : json;
  trip_driver_id : json;
  trip_start_date : option datetime;
  trip_end_date : option datetime;
  trip_distance_km : Q;
  trip_mileage : Q;
  trip_revenue : Q;
  trip_fuel_consumed : Q;
  trip_fuel_cost : Q;
  trip_toll : Q;
  trip_rto : Q;
  trip_adblue : Q;
  trip_driver_salary : Q;
  trip_labour_charges : Q;
  trip_extra_expense : Q;
  trip_other_expenses : Q;
  trip_profit : Q;
  trip_status : json;
  trip_notes : json }.

(** A sub-trip document, with the fields [create_subtrip] writes; [None]
    for [sub_cost] is an absent or null [cost]. *)
Record SubTrip := mkSubTrip {
  sub_oid : Z;
  sub_trip_id : string;
  sub_trip_code : json;
  sub_date : datetime;
  sub_end_date : datetime;
  sub_origin : json;
  sub_destination : json;
  sub_client_name : json;
  sub_cargo_weight : Q;
  sub_cost : option Q }.

Record DB := mkDB {
  trips : list Trip;
  subtrips : list SubTrip;
  employees : list Employee }.

(** The update document of [update_subtrip]. *)
Record SubTripUpdate := mkSubTripUpdate {
  u_date : option datetime;
  u_end_date : option datetime;
  u_origin : option json;
  u_destination : option json;
  u_client_name : option json;
  u_cargo_weight : option Q;
  u_cost : option Q }.

Definition fresh_oid (ids : list Z) : Z := 1 + fold_right Z.max 0 ids.

(** [sum(float(sub.get('cost', 0) or 0) for sub in subtrips)] *)
Definition sum_costs (subs : list SubTrip) : Q :=
  fold_left (fun acc sub => (acc + or_else (sub_cost sub) 0)%Q) subs 0%Q.

Definition set_revenue (r : Q) (t : Trip) : Trip :=
  mkTrip (trip_oid t) (trip_number t) (trip_truck_id t) (trip_driver_id t)
    (trip_start_date t) (trip_end_date t) (trip_distance_km t) (trip_mileage t)
    r (trip_fuel_consumed t) (trip_fuel_cost t) (trip_toll t) (trip_rto t)
    (trip_adblue t) (trip_driver_salary t) (trip_labour_charges t)
    (trip_extra_expense t) (trip_other_expenses t) (trip_profit t)
    (trip_status t) (trip_notes t).

Definition is_cancelled (st : json) : bool :=
  match st with JStr s => String.eqb s "Cancelled" | _ => false end.

(** [{'$lte': x}] and [{'$gte': x}] on a date field: a date compares with
    a date, a null query value matches a null or absent field. *)
Definition lte (field x : option datetime) : bool :=
  match field, x with
  | Some t, Some v => t <=? v
  | None, None => true
  | _, _ => false
  end.

Definition gte (field x : option datetime) : bool :=
  match field, x with
  | Some t, Some v => v <=? t
  | None, None => true
  | _, _ => false
  end.

(** [driver_conflict_query] of [create_trip]. *)
Definition driver_conflict_query (driver_id : json)
  (start_date end_date : option datetime) (t : Trip) : bool :=
  json_eqb (trip_driver_id t) driver_id
  && negb (is_cancelled (trip_status t))
  && ((lte (trip_start_date t) start_date && gte (trip_end_date t) start_date)
      || (lte (trip_start_date t) end_date && gte (trip_end_date t) end_date)
      || (gte (trip_start_date t) start_date && lte (trip_end_date t) end_date)).

Section Handlers.

Variable float_of_string : string -> option Q.
Variable fromisoformat : string -> option datetime.
Variable ObjectId : string -> option Z.

(** [parse_float(val, default)] *)
Definition parse_float (val : json) (default : Q) : Q :=
  match val with
  | JNum q => q
  | JStr s => or_else (float_of_string s) default
  | JBool b => if b then 1 else 0
  | JNull => default
  end.

(** [parse_float(data.get(k, 0))] *)
Definition get_float (k : string) (data : body) : Q :=
  match lookup k data with
  | Some v => parse_float v 0
  | None => 0
  end.

(** [datetime.fromisoformat(v)]; [None] when it raises. *)
Definition isoformat (v : json) : option datetime :=
  match v with
  | JStr s => fromisoformat s
  | _ => None
  end.

(** [BaseModel.find_by_id] with the string of a path. *)
Definition find_trip (trip_id : string) (db : DB) : option Trip :=
  match ObjectId trip_id with
  | Some o => find (fun t => trip_oid t =? o) (trips db)
  | None => None
  end.

Definition find_subtrip (subtrip_id : string) (db : DB) : option SubTrip :=
  match ObjectId subtrip_id with
  | Some o => find (fun s => sub_oid s =? o) (subtrips db)
  | None => None
  end.

(** [Employee.find_by_id(driver_id)] with a value of the body. *)
Definition find_driver (driver_id : json) (db : DB) : option Employee :=
  match driver_id with
  | JStr s =>
      match ObjectId s with
      | Some o => find (fun e => emp_oid e =? o) (employees db)
      | None => None
      end
  | _ => None
  end.

(** [v.lower()] on a stored value; [None] when it raises, [v] being no
    string. *)
Definition lower_of (v : json) : option string :=
  match v with
  | JStr s => Some (lower s)
  | _ => None
  end.

(** [not driver or driver.get('status', '').lower() != 'active' or
    driver.get('position', '').lower() != 'driver'], from left to right;
    [None] when [.lower()] raises. *)
Definition driver_unfit (driver : option Employee) : option bool :=
  match driver with
  | None => Some true
  | Some d =>
      match lower_of (emp_status d) with
      | None => None
      | Some st =>
          if negb (String.eqb st "active") then Some true else
          match lower_of (emp_position d) with
          | None => None
          | Some position => Some (negb (String.eqb position "driver"))
          end
      end
  end.

(** [(first + " " + last).strip()] of [Trip.to_dict_populated]; [None]
    when [+] raises, a name being no string. *)
Definition driver_name (d : Employee) : option string :=
  match emp_first_name d, emp_last_name d with
  | JStr first, JStr last => Some (strip (first ++ " " ++ last))
  | _, _ => None
  end.

(** [Trip.to_dict_populated(trip)], as far as it reads the employees: the
    [driver_name] of the answer; [None] when it raises. *)
Definition to_dict_populated (trip : Trip) (db : DB) : option string :=
  if truthy (trip_driver_id trip) then
    match find_driver (trip_driver_id trip) db with
    | Some d => driver_name d
    | None => Some ""
    end
  else Some "".

(** [update_trip_revenue]; [None] when [ObjectId(trip_id)] raises. *)
Definition update_trip_revenue (trip_id : string) (db : DB) : option DB :=
  let subs := filter (fun s => String.eqb (sub_trip_id s) trip_id) (subtrips db) in
  let total_revenue := sum_costs subs in
  match ObjectId trip_id with
  | Some o =>
      Some (mkDB (update_first (fun t => trip_oid t =? o)
                               (set_revenue total_revenue) (trips db))
                 (subtrips db) (employees db))
  | None => None
  end.

(** *** Trips *)

Definition other_expenses_of (toll rto driver_salary labour_charges adblue
  extra_expense : Q) : Q :=
  (toll + rto + driver_salary + labour_charges + adblue + extra_expense)%Q.

Definition create_trip (data : body) (db : DB) : reply * DB :=
  match missing_field ["trip_number"; "truck_id"; "driver_id"] data with
  | Some field => (BadRequest ("Missing required field: " ++ field), db)
  | None =>
  let number := or_else (lookup "trip_number" data) JNull in
  if existsb (fun t => json_eqb (trip_number t) number) (trips db)
  then (BadRequest "Trip number already exists", db) else
  let truck_id := or_else (lookup "truck_id" data) JNull in
  let driver_id := or_else (lookup "driver_id" data) JNull in
  match lookup "start_date" data with
  | None => (ServerError, db)
  | Some sd =>
  match isoformat sd with
  | None => (ServerError, db)
  | Some start_date =>
  let end_parse :=
    match lookup "end_date" data with
    | Some ed => if truthy ed then option_map Some (isoformat ed) else Some None
    | None => Some None
    end in
  match end_parse with
  | None => (ServerError, db)
  | Some end_date =>
  match driver_unfit (find_driver driver_id db) with
  | None => (ServerError, db)
  | Some true => (BadRequest "Driver is not active or not a driver", db)
  | Some false =>
  if existsb (driver_conflict_query driver_id (Some start_date) end_date) (trips db)
  then (BadRequest "Driver is already assigned to another trip during these dates", db)
  else
  let other_expenses :=
    other_expenses_of (get_float "toll" data) (get_float "rto" data)
      (get_float "driver_salary" data) (get_float "labour_charges" data)
      (get_float "adblue" data) (get_float "extra_expense" data) in
  let trip_doc :=
    mkTrip (fresh_oid (map trip_oid (trips db)))
      number truck_id driver_id (Some start_date) end_date
      (get_float "distance_km" data) (get_float "mileage" data)
      (get_float "revenue" data) (get_float "fuel_consumed" data)
      (get_float "fuel_cost" data) (get_float "toll" data)
      (get_float "rto" data) (get_float "adblue" data)
      (get_float "driver_salary" data) (get_float "labour_charges" data)
      (get_float "extra_expense" data) other_expenses
      (get_float "profit" data)
      (or_else (lookup "status" data) (JStr "Planned"))
      (or_else (lookup "notes" data) (JStr "")) in
  let db1 := mkDB (trips db ++ [trip_doc]) (subtrips db) (employees db) in
  (* lines 169-176: the answer is built from the trip just written *)
  match to_dict_populated trip_doc db1 with
  | Some _ => (Created, db1)
  | None => (ServerError, db1)
  end
  end end end end end.

(** [fromisoformat(data.get(k)) if data.get(k) else trip.get(k)]; the
    outer [None] when the parse raises. *)
Definition effective_date (k : string) (data : body)
  (stored : option datetime) : option (option datetime) :=
  match lookup k data with
  | Some v => if truthy v then option_map Some (isoformat v) else Some stored
  | None => Some stored
  end.

(** [parse_float(data[k], 0) if k in data], else the stored number. *)
Definition updated_float (k : string) (data : body) (stored : Q) : Q :=
  match lookup k data with
  | Some v => parse_float v 0
  | None => stored
  end.

Definition update_trip (trip_id : string) (data : body) (db : DB)
  : reply * DB :=
  match find_trip trip_id db, ObjectId trip_id with
  | Some trip, Some oid =>
  if (match lookup "trip_number" data with
      | Some n =>
          negb (py_eqb n (trip_number trip))
          && existsb (fun t => json_eqb (trip_number t) n
                               && negb (trip_oid t =? oid)) (trips db)
      | None => false
      end)
  then (BadRequest "Trip number already exists", db) else
  let truck_id := or_else (lookup "truck_id" data) (trip_truck_id trip) in
  let driver_id := or_else (lookup "driver_id" data) (trip_driver_id trip) in
  match effective_date "start_date" data (trip_start_date trip) with
  | None => (ServerError, db)
  | Some start_date =>
  match effective_date "end_date" data (trip_end_date trip) with
  | None => (ServerError, db)
  | Some end_date =>
  match driver_unfit (find_driver driver_id db) with
  | None => (ServerError, db)
  | Some true => (BadRequest "Driver is not active or not a driver", db)
  | Some false =>
  if existsb (fun t => driver_conflict_query driver_id start_date end_date t
                       && negb (trip_oid t =? oid)) (trips db)
  then (BadRequest "Driver is already assigned to another trip during these dates", db)
  else
  let toll := updated_float "toll" data (trip_toll trip) in
  let rto := updated_float "rto" data (trip_rto trip) in
  let adblue := updated_float "adblue" data (trip_adblue trip) in
  let driver_salary := updated_float "driver_salary" data (trip_driver_salary trip) in
  let labour_charges :=
    updated_float "labour_charges" data (trip_labour_charges trip) in
  let extra_expense := updated_float "extra_expense" data (trip_extra_expense trip) in
  let updated :=
    mkTrip (trip_oid trip)
      (or_else (lookup "trip_number" data) (trip_number trip))
      truck_id driver_id start_date end_date
      (updated_float "distance_km" data (trip_distance_km trip))
      (updated_float "mileage" data (trip_mileage trip))
      (updated_float "revenue" data (trip_revenue trip))
      (updated_float "fuel_consumed" data (trip_fuel_consumed trip))
      (updated_float "fuel_cost" data (trip_fuel_cost trip))
      toll rto adblue driver_salary labour_charges extra_expense
      (other_expenses_of toll rto driver_salary labour_charges adblue
         extra_expense)
      (updated_float "profit" data (trip_profit trip))
      (or_else (lookup "status" data) (trip_status trip))
      (or_else (lookup "notes" data) (trip_notes trip)) in
  let db1 :=
    mkDB (update_first (fun t => trip_oid t =? oid) (fun _ => updated)
                       (trips db))
         (subtrips db) (employees db) in
  (* lines 249-256: the answer is built from the trip just updated *)
  match to_dict_populated updated db1 with
  | Some _ => (Ok, db1)
  | None => (ServerError, db1)
  end
  end end end
  | _, _ => (NotFound "Trip not found", db)
  end.

(** *** Sub-trips *)

Definition create_subtrip (trip_id : string) (data : body) (db : DB)
  : reply * DB :=
  match missing_field ["date"; "end_date"; "origin"; "destination";
                       "client_name"; "cargo_weight"; "cost"] data with
  | Some field => (BadRequest ("Missing required field: " ++ field), db)
  | None =>
  match isoformat (or_else (lookup "date" data) JNull) with
  | None => (ServerError, db)
  | Some date_val =>
  match isoformat (or_else (lookup "end_date" data) JNull) with
  | None => (ServerError, db)
  | Some end_date_val =>
  if end_date_val <? date_val
  then (BadRequest "Date cannot be after End Date", db) else
  match find_trip trip_id db with
  | None => (NotFound "Trip not found", db)
  | Some trip =>
  let subtrip_doc :=
    mkSubTrip (fresh_oid (map sub_oid (subtrips db))) trip_id
      (trip_number trip) date_val end_date_val
      (or_else (lookup "origin" data) JNull)
      (or_else (lookup "destination" data) JNull)
      (or_else (lookup "client_name" data) JNull)
      (get_float "cargo_weight" data)
      (Some (get_float "cost" data)) in
  let db1 := mkDB (trips db) (subtrips db ++ [subtrip_doc]) (employees db) in
  match update_trip_revenue trip_id db1 with
  | None => (ServerError, db1)
  | Some db2 => (Created, db2)
  end
  end end end end.

(** [parsed < 0] *)
Definition negative (q : Q) : bool := negb (Qle_bool 0 q).

(** The sign that the message of line 334 prints. *)
Definition ge_sign : string :=
  string_of_list_ascii
    (map ascii_of_nat [195; 162; 226; 128; 176; 194; 165]%nat).

(** One date field of the loop of lines 329-339; the outer [None] when
    [fromisoformat] raises. *)
Definition date_update (k : string) (data : body) : option (option datetime) :=
  match lookup k data with
  | Some v => option_map Some (isoformat v)
  | None => Some None
  end.

(** One numeric field of the loop: the reply of line 334, or the parsed
    number if the field is in the body. *)
Definition number_update (k title : string) (data : body) : reply + option Q :=
  match lookup k data with
  | Some v =>
      let parsed := parse_float v 0 in
      if negative parsed
      then inl (BadRequest (title ++ " must be " ++ ge_sign ++ " 0"))
      else inr (Some parsed)
  | None => inr None
  end.

(** The loop of lines 329-339, field by field in the order of
    [updatable_fields]. *)
Definition build_update_doc (data : body) : reply + SubTripUpdate :=
  match date_update "date" data with
  | None => inl ServerError
  | Some date =>
  match date_update "end_date" data with
  | None => inl ServerError
  | Some end_date =>
  match number_update "cargo_weight" "Cargo Weight" data with
  | inl r => inl r
  | inr cargo_weight =>
  match number_update "cost" "Cost" data with
  | inl r => inl r
  | inr cost =>
      inr (mkSubTripUpdate date end_date (lookup "origin" data)
             (lookup "destination" data) (lookup "client_name" data)
             cargo_weight cost)
  end end end end.

(** [{'$set': update_doc}] on a sub-trip. *)
Definition apply_update (u : SubTripUpdate) (sub : SubTrip) : SubTrip :=
  mkSubTrip (sub_oid sub) (sub_trip_id sub) (sub_trip_code sub)
    (or_else (u_date u) (sub_date sub))
    (or_else (u_end_date u) (sub_end_date sub))
    (or_else (u_origin u) (sub_origin sub))
    (or_else (u_destination u) (sub_destination sub))
    (or_else (u_client_name u) (sub_client_name sub))
    (or_else (u_cargo_weight u) (sub_cargo_weight sub))
    (match u_cost u with Some c => Some c | None => sub_cost sub end).

(** [subtrip = SubTrip.find_by_id(subtrip_id)], with the test of lines 323
    and 355. *)
Definition own_subtrip (trip_id subtrip_id : string) (db : DB)
  : option SubTrip :=
  match find_subtrip subtrip_id db with
  | Some sub => if String.eqb (sub_trip_id sub) trip_id then Some sub else None
  | None => None
  end.

Definition update_subtrip (trip_id subtrip_id : string) (data : body)
  (db : DB) : reply * DB :=
  match own_subtrip trip_id subtrip_id db, ObjectId subtrip_id with
  | Some subtrip, Some oid =>
  match build_update_doc data with
  | inl r => (r, db)
  | inr update_doc =>
  if (match u_date update_doc, u_end_date update_doc with
      | Some d, Some e => e <? d
      | _, _ => false
      end)
  then (BadRequest "Date cannot be after End Date", db) else
  let db1 :=
    mkDB (trips db)
         (update_first (fun s => sub_oid s =? oid) (apply_update update_doc)
                       (subtrips db))
         (employees db) in
  match update_trip_revenue trip_id db1 with
  | None => (ServerError, db1)
  | Some db2 => (Ok, db2)
  end
  end
  | _, _ => (NotFound "Sub Trip not found", db)
  end.

Definition delete_subtrip (trip_id subtrip_id : string) (db : DB)
  : reply * DB :=
  match own_subtrip trip_id subtrip_id db, ObjectId subtrip_id with
  | Some subtrip, Some oid =>
  let db1 :=
    mkDB (trips db) (delete_first (fun s => sub_oid s =? oid) (subtrips db))
         (employees db) in
  match update_trip_revenue trip_id db1 with
  | None => (ServerError, db1)
  | Some db2 => (Ok, db2)
  end
  | _, _ => (NotFound "Sub Trip not found", db)
  end.



End Handlers.

(** [SubTrip.find_all({'trip_id': trip_id})]: the sub-trips stored under
    the string [trip_id]. *)
Definition subtrips_of (trip_id : string) (db : DB) : list SubTrip :=
  filter (fun s => String.eqb (sub_trip_id s) trip_id) (subtrips db).

(** Spec side: a sub-trip references the trip of [_id] [oid] when its
    [trip_id] is a spelling of that [_id]. *)
Definition references (ObjectId : string -> option Z) (oid : Z) (s : SubTrip)
  : bool :=
  match ObjectId (sub_trip_id s) with
  | Some o => o =? oid
  | None => false
  end.

(** Spec side: all sub-trips whose [trip_id] references a trip. *)
Definition subtrips_referencing (ObjectId : string -> option Z) (oid : Z)
  (db : DB) : list SubTrip :=
  filter (references ObjectId oid) (subtrips db).

(** Spec side: the sum of [cost] over sub-trips, a sub-trip without a cost
    counting for nothing. *)
Fixpoint total_cost (subs : list SubTrip) : Q :=
  match subs with
  | [] => 0
  | s :: r =>
      match sub_cost s with
      | Some c => c + total_cost r
      | None => total_cost r
      end
  end%Q.

(** A reply of the 4xx class. *)
Definition client_error (r : reply) : bool :=
  match r with BadRequest _ | NotFound _ => true | _ => false end.

Definition succeeded (r : reply) : bool :=
  match r with Ok | Created => true | _ => false end.


(** Sample data for the concrete examples. *)
Definition sample_driver : Employee :=
  mkEmployee 5 (JStr "Active") (JStr "Driver") (JStr "Asha") (JStr "Rao").

Definition sample_trip (oid : Z) (number : string) (status : string)
  (start_date end_date : datetime) : Trip :=
  mkTrip oid (JStr number) (JStr "7") (JStr "5") (Some start_date)
         (Some end_date) 0 0 0 0 0 0 0 0 0 0 0 0 0 (JStr status) (JStr "").

Definition sample_db (status : string) : DB :=
  mkDB [sample_trip 1 "T-1" status 100 200] [] [sample_driver].

Definition trip_body (number start_date end_date : string) : body :=
  [("trip_number", JStr number); ("truck_id", JStr "7");
   ("driver_id", JStr "5"); ("start_date", JStr start_date);
   ("end_date", JStr end_date)].

Definition subtrip_body (date end_date : string) (cargo_weight cost : Q)
  : body :=
  [("date", JStr date); ("end_date", JStr end_date);
   ("origin", JStr "Chennai"); ("destination", JStr "Salem");
   ("client_name", JStr "Acme"); ("cargo_weight", JNum cargo_weight);
   ("cost", JNum cost)].

(** Three sub-trips of cost 100, 250 and 0 under trip 1. *)
Definition three_subtrips : DB :=
  let post cost db :=
    snd (create_subtrip no_float decimal decimal "1"
           (subtrip_body "10" "20" 12 cost) db) in
  post 0%Q (post 250%Q (post 100%Q (sample_db "Planned"))).



Definition two_trips_db : DB :=
  mkDB [sample_trip 1 "T-1" "Planned" 100 200;
        sample_trip 2 "T-2" "Planned" 300 400] [] [sample_driver].



End Trips.

(** ** src/routes/clientpayment.py *)

Module ClientPayment.

(** A client-payment document; [None] is an absent or null field. *)
Record Payment := mkPayment {
  pay_oid : Z;
  pay_trip_code : json;
  pay_client_name : json;
  pay_cost : option Q;
  pay_advance_payment : option Q;
  pay_balance : option Q;
  pay_status : json }.

Definition upper_ascii (c : ascii) : ascii :=
  let n := nat_of_ascii c in
  if ((97 <=? n) && (n <=? 122))%nat then ascii_of_nat (n - 32) else c.

(** [str.capitalize()] on ASCII. *)
Definition capitalize (s : string) : string :=
  match s with
  | EmptyString => EmptyString
  | String c r => String (upper_ascii c) (lower r)
  end.

(** [to_proper_case] *)
Definition to_proper_case (v : json) : json :=
  match v with
  | JStr s => JStr (capitalize s)
  | _ => v
  end.

(** The update document of [update_client_payment]. *)
Record PaymentUpdate := mkPaymentUpdate {
  u_advance_payment : option Q;
  u_balance : option Q;
  u_status : option json }.

Definition apply_update (u : PaymentUpdate) (p : Payment) : Payment :=
  mkPayment (pay_oid p) (pay_trip_code p) (pay_client_name p) (pay_cost p)
    (match u_advance_payment u with Some a => Some a | None => pay_advance_payment p end)
    (match u_balance u with Some b => Some b | None => pay_balance p end)
    (or_else (u_status u) (pay_status p)).

(** [max(0, x)], for the statements. *)
Definition max0 (x : Q) : Q := if Qle_bool 0 x then x else 0.

Section Handlers.

Variable float_of_string : string -> option Q.
Variable ObjectId : string -> option Z.

(** [parse_float(val)], with the default [0.0]. *)
Definition parse_float (val : json) : Q :=
  match val with
  | JNum q => q
  | JStr s => or_else (float_of_string s) 0%Q
  | JBool b => if b then 1 else 0
  | JNull => 0
  end.

(** [parse_float(data.get(k, stored))] *)
Definition supplied_or_stored (k : string) (data : body) (stored : option Q) : Q :=
  match lookup k data with
  | Some v => parse_float v
  | None => or_else stored 0%Q
  end.

Definition find_payment (payment_id : string) (db : list Payment)
  : option Payment :=
  match ObjectId payment_id with
  | Some o => find (fun p => pay_oid p =? o) db
  | None => None
  end.

(** Lines 88-100: the update document when the status is set to
    Received. *)
Definition received_update (payment : Payment) (st : string) (data : body)
  : PaymentUpdate :=
  let cost := or_else (pay_cost payment) 0%Q in
  let advance_payment :=
    supplied_or_stored "advance_payment" data (pay_advance_payment payment) in
  let balance := supplied_or_stored "balance" data (pay_balance payment) in
  let total_paid := (advance_payment + balance)%Q in
  mkPaymentUpdate
    (option_map parse_float (lookup "advance_payment" data))
    (Some (if Qle_bool cost total_paid then 0 else cost - advance_payment)%Q)
    (Some (to_proper_case (JStr st))).

(** Lines 102-107: the update document otherwise. *)
Definition plain_update (data : body) : PaymentUpdate :=
  mkPaymentUpdate
    (option_map parse_float (lookup "advance_payment" data))
    (option_map parse_float (lookup "balance" data))
    (option_map to_proper_case (lookup "status" data)).

Definition update_client_payment (payment_id : string) (data : body)
  (db : list Payment) : reply * list Payment :=
  match find_payment payment_id db, ObjectId payment_id with
  | Some payment, Some oid =>
      let write u :=
        (Ok, update_first (fun p => pay_oid p =? oid) (apply_update u) db) in
      match lookup "status" data with
      | Some (JStr st) =>
          if String.eqb (lower (strip st)) "received"
          then write (received_update payment st data)
          else write (plain_update data)
      | Some _ => (ServerError, db)
      | None => write (plain_update data)
      end
  | _, _ => (NotFound "Client payment not found", db)
  end.

End Handlers.

(** Sample data for the concrete examples. *)
Definition sample_payment (cost advance_payment balance : Q) : Payment :=
  mkPayment 1 (JStr "T-1") (JStr "Acme") (Some cost) (Some advance_payment)
            (Some balance) (JStr "Pending").

End ClientPayment.

(** ** src/routes/dashboard.py: the read path of [get_alerts] *)

Module AlertsRead.
Import Dashboard.

(** An alert as the answer shows it: [Alert.to_dict], with [alert_date]
    rewritten by lines 394-402. *)
Record AlertView := mkAlertView {
  v_id : string;
  v_employee_id : option string;
  v_employee_number : option string;
  v_truck_id : option string;
  v_truck_number : option string;
  v_type : string;
  v_severity : string;
  v_title : string;
  v_message : string;
  v_status : string;
  v_alert_date : string }.

(** [.sort('alert_date', 1)]: ascending; documents with equal dates keep
    their natural order. *)
Fixpoint insert_by_date (a : Alert) (l : list Alert) : list Alert :=
  match l with
  | [] => [a]
  | b :: r =>
      if a_alert_date a <=? a_alert_date b then a :: b :: r
      else b :: insert_by_date a r
  end.

Definition sort_by_date (l : list Alert) : list Alert :=
  fold_right insert_by_date [] l.

(** The order of the sort. *)
Definition by_date (a b : Alert) : Prop := a_alert_date a <= a_alert_date b.

(** The test of lines 388-391: the alert names a truck or an employee that
    is not among the Active ones. *)
Definition orphan (active_truck_ids active_employee_ids : list Z)
  (alert : Alert) : bool :=
  (match a_truck_id alert with
   | Some i => negb (existsb (Z.eqb i) active_truck_ids)
   | None => false
   end)
  || (match a_employee_id alert with
      | Some i => negb (existsb (Z.eqb i) active_employee_ids)
      | None => false
      end).

Section Read.

Variable dateparse : string -> option datetime.
Variable strftime : string -> datetime -> string.
Variable isoformat : datetime -> string.
Variable oid_str : Z -> string.

(** Lines 394-402.  [Alert.to_dict] has already turned the date into its
    [isoformat()] string, so the [isinstance(..., datetime)] branch is not
    taken: the string is parsed again, and kept as it is if that fails. *)
Definition shown_date (t : datetime) : string :=
  let alert_date_val := isoformat t in
  if truthy_str alert_date_val then
    match dateparse alert_date_val with
    | Some d => strftime "%d/%m/%Y" d
    | None => alert_date_val
    end
  else alert_date_val.

Definition to_view (alert : Alert) : AlertView :=
  mkAlertView (oid_str (a_id alert))
    (option_map oid_str (a_employee_id alert)) (a_employee_number alert)
    (option_map oid_str (a_truck_id alert)) (a_truck_number alert)
    (a_type alert) (a_severity alert) (a_title alert) (a_message alert)
    (a_status alert) (shown_date (a_alert_date alert)).

(** Lines 380-392: the alerts that pass the filter, before they are
    formatted. *)
Definition listed_alerts (employees : list Employee) (trucks : list Truck)
  (c : Coll) : list Alert :=
  let active_truck_ids := map t_id (active_trucks trucks) in
  let active_employee_ids := map e_id (active_employees employees) in
  let alerts := firstn 100 (sort_by_date (active_alerts c)) in
  filter (fun alert => negb (orphan active_truck_ids active_employee_ids alert))
         alerts.

(** [get_alerts]: the alerts of the answer and the collection after the
    reconciliation. *)
Definition get_alerts (k : Clock) (employees : list Employee)
  (trucks : list Truck) (c : Coll) : list AlertView * Coll :=
  let c := reconcile_alerts dateparse strftime k employees trucks c in
  let alert_data := map to_view (listed_alerts employees trucks c) in
  (firstn 10 alert_data, c).

End Read.

(** What a subject has after the reconciliation, by the branch of its
    expiry date: the number of Active alerts of the expiring-soon type and
    of the expired type. *)
Definition alerts_match (m : Monitor) (b : due) (sub : Subject) (c : Coll)
  : Prop :=
  let soon_n := count (q_active (m_owner m) (s_id sub) (m_soon_type m)) (docs c) in
  let expired_n :=
    count (q_active (m_owner m) (s_id sub) (m_expired_type m)) (docs c) in
  match b with
  | NoExpiry => soon_n = 0%nat
  | Expired => soon_n = 0%nat /\ expired_n = 1%nat
  | ExpiringSoon => soon_n = 1%nat /\ expired_n = 0%nat
  | NotYetDue => soon_n = 0%nat /\ expired_n = 0%nat
  end.

(** The four passes of a reconciliation: monitor, clock readings and
    subjects. *)
Definition passes (k : Clock) (employees : list Employee) (trucks : list Truck)
  : list (Monitor * Readings * list Subject) :=
  [(license_monitor, k_license k, employee_subjects employees);
   (insurance_monitor, k_insurance k, truck_subjects t_insurance_expiry trucks);
   (fc_monitor, k_fc k, truck_subjects t_fc_expiry trucks);
   (permit_monitor, k_permit k, truck_subjects t_permit_expiry trucks)].

(** Sample data for the concrete examples: an employee whose licence has
    no date, and one who has left. *)
Definition undated_employee : Employee :=
  mkEmployee 1 "Active" DNone (Some "E-1") "Asha" "Rao".

Definition former_employee : Employee :=
  mkEmployee 2 "Inactive" (DDatetime 500) (Some "E-2") "Ravi" "Nair".

End AlertsRead.

(** ** src/routes/dashboard.py: a reconciliation that an exception stops *)

Module AlertsChecked.
Import Dashboard.

(** What [dateutil.parser.parse] returns: a naive [datetime], or one that
    carries a UTC offset (the string ends in [Z] or in [+05:30]). *)
Inductive parsed_date :=
| Naive (t : datetime)
| Aware (t : datetime).

(** How a pass, or the whole reconciliation, ends: normally, or by the
    [TypeError] of [expiry_date < now] (line 63 and its likes in the three
    other passes), which nothing catches before [get_alerts] answers 500.
    The writes made until then stay. *)
Inductive outcome :=
| Done (c : Coll)
| Raised (c : Coll).

Section Checked.

Variable parse : string -> option parsed_date.
Variable strftime : string -> datetime -> string.

(** The parse of lines 41-46 as [reconcile_one] reads it: the date of a
    string without offset. *)
Definition naive_parse (s : string) : option datetime :=
  match parse s with
  | Some (Naive t) => Some t
  | _ => None
  end.

(** [expiry_date < now] raises: the date was parsed from a string with an
    offset, and [now] has none. *)
Definition comparison_raises (sub : Subject) : bool :=
  match s_expiry sub with
  | DStr s =>
      truthy_str s
      && match parse s with Some (Aware _) => true | _ => false end
  | _ => false
  end.

(** The [for] loop of a pass.  Before the comparison an iteration reads
    the collection and writes nothing. *)
Fixpoint pass_loop (m : Monitor) (soon now : datetime)
  (subjects : list Subject) (c : Coll) : outcome :=
  match subjects with
  | [] => Done c
  | sub :: rest =>
      if comparison_raises sub then Raised c
      else pass_loop m soon now rest
             (reconcile_one naive_parse strftime m soon now c sub)
  end.

Definition reconcile_pass_checked (m : Monitor) (r : Readings)
  (subjects : list Subject) (c : Coll) : outcome :=
  pass_loop m (r_first r + timedelta_days 30) (r_second r) subjects c.

Definition and_then (o : outcome) (f : Coll -> outcome) : outcome :=
  match o with
  | Done c => f c
  | Raised c => Raised c
  end.

(** Lines 374-379 of [get_alerts], inside its [try]. *)
Definition reconcile_alerts_checked (k : Clock) (employees : list Employee)
  (trucks : list Truck) (c : Coll) : outcome :=
  let c := remove_inactive_employee_alerts employees c in
  let c := remove_inactive_truck_alerts trucks c in
  and_then (reconcile_pass_checked license_monitor (k_license k)
              (employee_subjects employees) c) (fun c =>
  and_then (reconcile_pass_checked insurance_monitor (k_insurance k)
              (truck_subjects t_insurance_expiry trucks) c) (fun c =>
  and_then (reconcile_pass_checked fc_monitor (k_fc k)
              (truck_subjects t_fc_expiry trucks) c) (fun c =>
  reconcile_pass_checked permit_monitor (k_permit k)
    (truck_subjects t_permit_expiry trucks) c))).

End Checked.

(** A parser for the concrete examples: instants written as decimal
    numbers, and one date with an offset. *)
Definition sample_parse (s : string) : option parsed_date :=
  if String.eqb s "2031-05-01T00:00:00Z" then Some (Aware 1935446400000000)
  else option_map Naive (decimal s).

Definition zoned_employee : Employee :=
  mkEmployee 3 "Active" (DStr "2031-05-01T00:00:00Z") (Some "E-3") "Mani" "Iyer".

End AlertsChecked.

(** ** Orders of the sorted answers *)

Module Orders.

(** The order of [sorted(..., key=..., reverse=True)]: largest key first. *)
Definition desc {A} (key : A -> Q) (a b : A) : Prop := (key b <= key a)%Q.

End Orders.

(** ** src/routes/trips.py: cancellation *)

Module TripsMore.
Import Trips.

Definition set_trip_status (st : json) (t : Trip) : Trip :=
  mkTrip (trip_oid t) (trip_number t) (trip_truck_id t) (trip_driver_id t)
    (trip_start_date t) (trip_end_date t) (trip_distance_km t) (trip_mileage t)
    (trip_revenue t) (trip_fuel_consumed t) (trip_fuel_cost t) (trip_toll t)
    (trip_rto t) (trip_adblue t) (trip_driver_salary t) (trip_labour_charges t)
    (trip_extra_expense t) (trip_other_expenses t) (trip_profit t)
    st (trip_notes t).

Section Handlers.

Variable ObjectId : string -> option Z.

(** [delete_trip]: the trip is kept, with the status Cancelled. *)
Definition delete_trip (trip_id : string) (db : DB) : reply * DB :=
  match find_trip ObjectId trip_id db, ObjectId trip_id with
  | Some trip, Some oid =>
      (Ok, mkDB (update_first (fun t => trip_oid t =? oid)
                              (set_trip_status (JStr "Cancelled")) (trips db))
                (subtrips db) (employees db))
  | _, _ => (NotFound "Trip not found", db)
  end.

End Handlers.

(** No two trips share an [_id]. *)
Definition unique_trip_ids (db : DB) : Prop := NoDup (map trip_oid (trips db)).

(** No two trips share a trip number. *)
Definition distinct (x y : json) : Prop := json_eqb x y = false.

Definition unique_trip_numbers (db : DB) : Prop :=
  StronglySorted distinct (map trip_number (trips db)).

(** A value that is no JSON boolean.  On such values Python's [==] and the
    equality match of the store agree. *)
Definition not_bool (v : json) : Prop :=
  match v with
  | JBool _ => False
  | _ => True
  end.

(** No trip number is a boolean. *)
Definition plain_trip_numbers (db : DB) : Prop :=
  Forall (fun t => not_bool (trip_number t)) (trips db).

End TripsMore.

(** ** src/routes/clientpayment.py: creation and deletion *)

Module Payments.
Import ClientPayment.

Section Handlers.

Variable float_of_string : string -> option Q.
Variable ObjectId : string -> option Z.

(** The filter [{'trip_code': ..., 'client_name': ...}]. *)
Definition same_trip_and_client (trip_code client_name : json) (p : Payment)
  : bool :=
  json_eqb (pay_trip_code p) trip_code && json_eqb (pay_client_name p) client_name.

Definition create_client_payment (data : body) (db : list Payment)
  : reply * list Payment :=
  match missing_field ["trip_code"; "client_name"; "cost"; "advance_payment";
                       "balance"; "status"] data with
  | Some field => (BadRequest ("Missing required field: " ++ field), db)
  | None =>
      let trip_code := or_else (lookup "trip_code" data) JNull in
      let client_name := or_else (lookup "client_name" data) JNull in
      if existsb (same_trip_and_client trip_code client_name) db
      then (BadRequest "Payment for this client and trip already exists", db)
      else
        let payment_doc :=
          mkPayment (Trips.fresh_oid (map pay_oid db)) trip_code client_name
            (Some (parse_float float_of_string
                     (or_else (lookup "cost" data) JNull)))
            (Some (parse_float float_of_string
                     (or_else (lookup "advance_payment" data) JNull)))
            (Some (parse_float float_of_string
                     (or_else (lookup "balance" data) JNull)))
            (to_proper_case (or_else (lookup "status" data) JNull)) in
        (Created, (db ++ [payment_doc])%list)
  end.

Definition delete_client_payment (payment_id : string) (db : list Payment)
  : reply * list Payment :=
  match find_payment ObjectId payment_id db, ObjectId payment_id with
  | Some payment, Some oid =>
      (Ok, delete_first (fun p => pay_oid p =? oid) db)
  | _, _ => (NotFound "Client payment not found", db)
  end.

End Handlers.

(** A lower-case ASCII letter. *)
Definition is_lower_letter (c : ascii) : bool :=
  ((97 <=? nat_of_ascii c) && (nat_of_ascii c <=? 122))%nat.

(** The pair that names a payment. *)
Definition payment_key (p : Payment) : json * json :=
  (pay_trip_code p, pay_client_name p).

Definition distinct_keys (a b : json * json) : Prop :=
  json_eqb (fst a) (fst b) && json_eqb (snd a) (snd b) = false.

(** No two payments are for the same trip code and client. *)
Definition unique_payments (db : list Payment) : Prop :=
  StronglySorted distinct_keys (map payment_key db).

Definition payment_body (trip_code client_name : string)
  (cost advance_payment balance : Q) (status : string) : body :=
  [("trip_code", JStr trip_code); ("client_name", JStr client_name);
   ("cost", JNum cost); ("advance_payment", JNum advance_payment);
   ("balance", JNum balance); ("status", JStr status)].

End Payments.

(** ** src/models/mongo_models.py: documents as answers *)

Module Bson.

(** A value of a stored document. *)
#[warnings="-register-all"]
Inductive bson :=
| BNull
| BBool (b : bool)
| BNum (q : Q)
| BStr (s : string)
| BObjectId (o : Z)
| BDatetime (t : datetime)
| BDict (fields : list (string * bson))
| BList (items : list bson).

(** No [ObjectId] and no [datetime] at any depth: what [jsonify] takes. *)
Fixpoint plain (obj : bson) : bool :=
  match obj with
  | BObjectId _ | BDatetime _ => false
  | BDict fields => forallb (fun '(k, v) => plain v) fields
  | BList items => forallb plain items
  | _ => true
  end.

(** [d.get(k)] *)
Fixpoint get (k : string) (d : list (string * bson)) : option bson :=
  match d with
  | [] => None
  | (k', v) :: r => if String.eqb k' k then Some v else get k r
  end.

(** [d[k] = v]: the member is replaced where it stands, or added last. *)
Fixpoint set_item (k : string) (v : bson) (d : list (string * bson))
  : list (string * bson) :=
  match d with
  | [] => [(k, v)]
  | (k', v') :: r =>
      if String.eqb k' k then (k, v) :: r else (k', v') :: set_item k v r
  end.

(** [del d[k]] *)
Fixpoint del_item (k : string) (d : list (string * bson))
  : list (string * bson) :=
  match d with
  | [] => []
  | (k', v') :: r =>
      if String.eqb k' k then del_item k r else (k', v') :: del_item k r
  end.

Section ToDict.

Variable str_of : bson -> string.
Variable isoformat : datetime -> string.

Fixpoint bson_to_str (obj : bson) : bson :=
  match obj with
  | BObjectId _ => BStr (str_of obj)
  | BDatetime t => BStr (isoformat t)
  | BDict fields => BDict (map (fun '(k, v) => (k, bson_to_str v)) fields)
  | BList items => BList (map bson_to_str items)
  | _ => obj
  end.

(** [Truck.to_dict] and its copies in the other models; the inner [None]
    is the answer [None] for a missing or empty document, the outer one the
    [KeyError] of a document without [_id]. *)
Definition to_dict (doc : option (list (string * bson)))
  : option (option (list (string * bson))) :=
  match doc with
  | None | Some [] => Some None
  | Some d =>
      match get "_id" d with
      | None => None
      | Some i =>
          let d1 := set_item "id" (BStr (str_of i)) d in
          let d2 := del_item "_id" d1 in
          Some (Some (map (fun '(k, v) => (k, bson_to_str v)) d2))
      end
  end.

End ToDict.

End Bson.

(** * Properties of the store operations *)

Lemma find_update_first {A} (p : A -> bool) (f : A -> A) l x :
  (forall y, p y = true -> p (f y) = true) ->
  find p l = Some x -> find p (update_first p f l) = Some (f x).
Proof.
  intros Hp. induction l as [|y l IH]; cbn [find update_first]; [discriminate|].
  destruct (p y) eqn:E.
  - intros [= <-]. cbn [find]. now rewrite (Hp y E).
  - intros F. cbn [find]. rewrite E. auto.
Qed.

(** * Properties of the alert reconciliation engine *)

Module DashboardFacts.
Import Dashboard.

(** *** Counting lemmas *)

Lemma q_active_set_inactive k i ty a :
  q_active k i ty (set_status "Inactive" a) = false.
Proof.
  unfold q_active. cbn [a_status set_status].
  now rewrite andb_false_r.
Qed.

Lemma active_count_cons k i ty a l :
  active_count k i ty (a :: l)
  = ((if q_active k i ty a then 1 else 0) + active_count k i ty l)%nat.
Proof.
  unfold active_count. cbn [filter].
  now destruct (q_active k i ty a).
Qed.

Lemma active_count_app k i ty l1 l2 :
  active_count k i ty (l1 ++ l2)
  = (active_count k i ty l1 + active_count k i ty l2)%nat.
Proof.
  unfold active_count. now rewrite filter_app, length_app.
Qed.

Lemma update_one_docs_count_le flt k i ty l :
  (active_count k i ty (fst (update_one_docs flt l))
   <= active_count k i ty l)%nat.
Proof.
  induction l as [|a l IH]; cbn [update_one_docs]; [cbn; lia|].
  destruct (flt a); cbn [fst deactivate].
  - rewrite !active_count_cons, q_active_set_inactive.
    destruct (q_active k i ty a); lia.
  - rewrite !active_count_cons. lia.
Qed.

Lemma update_many_docs_count_le flt k i ty l :
  (active_count k i ty (fst (update_many_docs flt l))
   <= active_count k i ty l)%nat.
Proof.
  induction l as [|a l IH]; cbn [update_many_docs]; [cbn; lia|].
  destruct (flt a); cbn [fst deactivate].
  - rewrite !active_count_cons, q_active_set_inactive.
    destruct (q_active k i ty a); lia.
  - rewrite !active_count_cons. lia.
Qed.

Lemma find_none_count k i ty c :
  find_one (q_active k i ty) c = None -> active_count k i ty (docs c) = 0%nat.
Proof.
  unfold find_one, active_count. intros H.
  induction (docs c) as [|a l IH]; [reflexivity|].
  cbn [find filter] in *.
  destruct (q_active k i ty a); [discriminate|auto].
Qed.

Lemma opt_eqb_eq o i : opt_eqb o i = true -> o = Some i.
Proof.
  destruct o as [j|]; cbn; [|discriminate].
  intros H. apply Z.eqb_eq in H. now subst.
Qed.

Section Invariant.

Variable dateparse : string -> option datetime.
Variable strftime : string -> datetime -> string.

(** The only keys under which a freshly built alert counts. *)
Lemma new_alert_key m sub (ex : bool) d j k i ty :
  q_active k i ty (with_id j (new_alert strftime m sub ex d)) = true ->
  k = m_owner m /\ i = s_id sub
  /\ ty = (if ex then m_expired_type m else m_soon_type m).
Proof.
  unfold q_active, owner_is. cbn [a_employee_id a_truck_id a_type a_status
    with_id new_alert].
  intros H. apply andb_prop in H as [H _]. apply andb_prop in H as [Ho Ht].
  apply String.eqb_eq in Ht.
  destruct k, (m_owner m); cbn in Ho; try discriminate;
    apply Z.eqb_eq in Ho; auto.
Qed.

Lemma le_docs_refl c : le_docs c c.
Proof. intros k i ty. lia. Qed.

Lemma le_docs_trans c1 c2 c3 : le_docs c1 c2 -> le_docs c2 c3 -> le_docs c1 c3.
Proof. intros H1 H2 k i ty. specialize (H1 k i ty). specialize (H2 k i ty). lia. Qed.

Lemma update_one_le flt c : le_docs c (update_one flt c).
Proof. intros k i ty. apply update_one_docs_count_le. Qed.

Lemma update_many_le flt c : le_docs c (update_many flt c).
Proof. intros k i ty. apply update_many_docs_count_le. Qed.

Lemma deactivate_existing_le ex c : le_docs c (deactivate_existing ex c).
Proof.
  destruct ex; cbn [deactivate_existing];
    [apply update_one_le | apply le_docs_refl].
Qed.

Lemma le_docs_invariant c c' :
  le_docs c c' -> at_most_one_active c -> at_most_one_active c'.
Proof. intros H A k i ty. specialize (H k i ty). specialize (A k i ty). lia. Qed.

(** Inserting a fresh alert whose own key has no Active document. *)
Lemma insert_new_invariant m sub (ex : bool) d c :
  at_most_one_active c ->
  active_count (m_owner m) (s_id sub)
     (if ex then m_expired_type m else m_soon_type m) (docs c) = 0%nat ->
  at_most_one_active (insert_one (new_alert strftime m sub ex d) c).
Proof.
  intros A Hz k i ty. cbn [insert_one docs].
  rewrite active_count_app, active_count_cons.
  change (active_count k i ty []) with 0%nat.
  destruct (q_active k i ty _) eqn:Q.
  - apply new_alert_key in Q as (-> & -> & ->). rewrite Hz. lia.
  - specialize (A k i ty). lia.
Qed.

Lemma reconcile_one_invariant m soon now c sub :
  at_most_one_active c ->
  at_most_one_active (reconcile_one dateparse strftime m soon now c sub).
Proof.
  intros A. unfold reconcile_one.
  destruct (resolve_expiry dateparse (s_expiry sub)) as [d|].
  2:{ eapply le_docs_invariant; [apply deactivate_existing_le | exact A]. }
  destruct (d <? now).
  - set (c1 := deactivate_existing _ c).
    assert (A1 : at_most_one_active c1)
      by (eapply le_docs_invariant; [apply deactivate_existing_le | exact A]).
    destruct (find_one _ c1) eqn:F; [exact A1|].
    apply (insert_new_invariant m sub true); [exact A1|].
    now apply find_none_count.
  - destruct (d <=? soon).
    + set (c1 := update_many _ c).
      assert (L : le_docs c c1) by apply update_many_le.
      destruct (find_one _ c) eqn:F.
      * eapply le_docs_invariant; eauto.
      * apply (insert_new_invariant m sub false).
        -- eapply le_docs_invariant; eauto.
        -- apply find_none_count in F.
           specialize (L (m_owner m) (s_id sub) (m_soon_type m)). lia.
    + eapply le_docs_invariant; [|exact A].
      eapply le_docs_trans; [apply deactivate_existing_le | apply update_many_le].
Qed.

Lemma fold_left_invariant {A} (f : Coll -> A -> Coll) l :
  (forall c x, at_most_one_active c -> at_most_one_active (f c x)) ->
  forall c, at_most_one_active c -> at_most_one_active (fold_left f l c).
Proof.
  intros Hf. induction l as [|x l IH]; cbn [fold_left]; auto.
Qed.

Lemma reconcile_pass_invariant m r subs c :
  at_most_one_active c ->
  at_most_one_active (reconcile_pass dateparse strftime m r subs c).
Proof.
  unfold reconcile_pass. apply fold_left_invariant.
  intros. now apply reconcile_one_invariant.
Qed.

Lemma remove_inactive_employee_invariant employees c :
  at_most_one_active c ->
  at_most_one_active (remove_inactive_employee_alerts employees c).
Proof.
  unfold remove_inactive_employee_alerts. apply fold_left_invariant.
  intros c0 x A. eapply le_docs_invariant; [apply update_many_le | exact A].
Qed.

Lemma remove_inactive_truck_invariant trucks c :
  at_most_one_active c ->
  at_most_one_active (remove_inactive_truck_alerts trucks c).
Proof.
  unfold remove_inactive_truck_alerts. apply fold_left_invariant.
  intros c0 x A. eapply le_docs_invariant; [apply update_many_le | exact A].
Qed.

Lemma reconcile_alerts_invariant k employees trucks c :
  at_most_one_active c ->
  at_most_one_active (reconcile_alerts dateparse strftime k employees trucks c).
Proof.
  intros A. unfold reconcile_alerts,
    check_and_create_permit_expiry_alerts, check_and_create_fc_expiry_alerts,
    check_and_create_insurance_expiry_alerts,
    check_and_create_license_expiry_alerts.
  repeat apply reconcile_pass_invariant.
  now apply remove_inactive_truck_invariant, remove_inactive_employee_invariant.
Qed.

Lemma step_invariant c c' :
  step dateparse strftime c c' -> at_most_one_active c -> at_most_one_active c'.
Proof.
  intros S A. destruct S.
  - now apply remove_inactive_employee_invariant.
  - now apply remove_inactive_truck_invariant.
  - now apply reconcile_pass_invariant.
  - now apply reconcile_pass_invariant.
  - now apply reconcile_pass_invariant.
  - now apply reconcile_pass_invariant.
  - now apply reconcile_one_invariant.
  - now apply reconcile_alerts_invariant.
Qed.

End Invariant.

Lemma empty_alerts_invariant : at_most_one_active empty_alerts.
Proof. intros k i ty. cbn. lia. Defined.

(** C1. In a sequential run of the alert reconciliation of
    [GET /dashboard/alerts], the at-most-one-active property is an
    invariant: if for every owning entity and alert type at most one
    document is Active before the run, the same holds after every step of
    it (each of the six passes, each loop iteration, the whole sequence),
    hence after the run.  The empty collection satisfies it. *)
Theorem at_most_one_active_invariant dateparse strftime c c' :
  at_most_one_active c ->
  run dateparse strftime c c' ->
  at_most_one_active c'.
Proof.
  intros A R. induction R as [c|c1 c2 c3 R IH S]; [exact A|].
  eapply step_invariant; eauto.
Qed.

(** *** Effect of the collection operations on the number of matches *)

Lemma q_active_filter k i ty : active_filter (q_active k i ty).
Proof. intros a. apply q_active_set_inactive. Qed.

Lemma q_owner_active_filter k i : active_filter (q_owner_active k i).
Proof.
  intros a. unfold q_owner_active. cbn [a_status set_status].
  now rewrite andb_false_r.
Qed.

Lemma count_cons q a l :
  count q (a :: l) = ((if q a then 1 else 0) + count q l)%nat.
Proof. unfold count. cbn [filter]. now destruct (q a). Qed.

Lemma count_app q l1 l2 : count q (l1 ++ l2) = (count q l1 + count q l2)%nat.
Proof. unfold count. now rewrite filter_app, length_app. Qed.

Lemma count_zero_find q l : count q l = 0%nat <-> find q l = None.
Proof.
  induction l as [|a l IH]; cbn [find]; [now split|].
  rewrite count_cons. destruct (q a).
  - split; [intros H; lia | discriminate].
  - exact IH.
Qed.

Lemma count_pos_find q l :
  (1 <= count q l)%nat -> exists a, find q l = Some a.
Proof.
  intros H. destruct (find q l) as [a|] eqn:F; [now exists a|].
  apply count_zero_find in F. lia.
Qed.

Lemma update_many_docs_le flt q l :
  active_filter q ->
  (count q (fst (update_many_docs flt l)) <= count q l)%nat.
Proof.
  intros Hq. induction l as [|a l IH]; cbn [update_many_docs]; [cbn; lia|].
  destruct (flt a); cbn [fst deactivate]; rewrite !count_cons.
  - rewrite Hq. destruct (q a); lia.
  - lia.
Qed.

Lemma update_one_docs_le flt q l :
  active_filter q ->
  (count q (fst (update_one_docs flt l)) <= count q l)%nat.
Proof.
  intros Hq. induction l as [|a l IH]; cbn [update_one_docs]; [cbn; lia|].
  destruct (flt a); cbn [fst deactivate]; rewrite !count_cons.
  - rewrite Hq. destruct (q a); lia.
  - lia.
Qed.

(** [update_many] leaves no match of its own filter. *)
Lemma update_many_docs_self q l :
  active_filter q -> count q (fst (update_many_docs q l)) = 0%nat.
Proof.
  intros Hq. induction l as [|a l IH]; cbn [update_many_docs]; [reflexivity|].
  destruct (q a) eqn:Q; cbn [fst deactivate]; rewrite !count_cons.
  - now rewrite Hq, IH.
  - now rewrite Q, IH.
Qed.

(** Frame: documents outside the filter are not touched. *)
Lemma update_many_docs_frame flt q l :
  disjoint flt q -> active_filter q ->
  count q (fst (update_many_docs flt l)) = count q l.
Proof.
  intros D Hq. induction l as [|a l IH]; cbn [update_many_docs]; [reflexivity|].
  destruct (flt a) eqn:F; cbn [fst deactivate]; rewrite !count_cons.
  - now rewrite Hq, (D _ F), IH.
  - now rewrite IH.
Qed.

Lemma update_one_docs_frame flt q l :
  disjoint flt q -> active_filter q ->
  count q (fst (update_one_docs flt l)) = count q l.
Proof.
  intros D Hq. induction l as [|a l IH]; cbn [update_one_docs]; [reflexivity|].
  destruct (flt a) eqn:F; cbn [fst deactivate]; rewrite !count_cons.
  - now rewrite Hq, (D _ F).
  - now rewrite IH.
Qed.

(** Nothing matches: nothing is written. *)
Lemma update_many_docs_none flt l :
  count flt l = 0%nat -> update_many_docs flt l = (l, 0%nat).
Proof.
  induction l as [|a l IH]; cbn [update_many_docs]; [reflexivity|].
  rewrite count_cons. destruct (flt a); [intros H; lia|].
  intros H. now rewrite (IH H).
Qed.

Lemma update_many_none flt c :
  count flt (docs c) = 0%nat -> update_many flt c = c.
Proof.
  intros H. unfold update_many. rewrite (update_many_docs_none _ _ H).
  destruct c as [l n]. cbn. now rewrite Nat.add_0_r.
Qed.

Lemma update_ids_one flt l :
  map a_id (fst (update_one_docs flt l)) = map a_id l.
Proof.
  induction l as [|a l IH]; cbn [update_one_docs]; [reflexivity|].
  destruct (flt a); cbn [fst deactivate map]; [reflexivity|now rewrite IH].
Qed.

Lemma update_ids_many flt l :
  map a_id (fst (update_many_docs flt l)) = map a_id l.
Proof.
  induction l as [|a l IH]; cbn [update_many_docs]; [reflexivity|].
  destruct (flt a); cbn [fst deactivate map]; now rewrite IH.
Qed.

Lemma fresh_id_above l a : In a l -> a_id a < fresh_id l.
Proof.
  unfold fresh_id. induction l as [|x l IH]; [contradiction|].
  cbn [fold_right]. intros [->|H]; [lia|]. specialize (IH H). lia.
Qed.

Lemma fresh_id_not_in l : ~ In (fresh_id l) (map a_id l).
Proof.
  intros H. apply in_map_iff in H as (a & E & Ha).
  apply fresh_id_above in Ha. lia.
Qed.

(** With unique [_id]s, updating by the [_id] of the document that
    [find_one] returned updates that very document. *)
Lemma update_by_found_id q l a :
  NoDup (map a_id l) -> find q l = Some a ->
  update_one_docs (by_id (a_id a)) l = update_one_docs q l.
Proof.
  induction l as [|x l IH]; cbn [find update_one_docs map]; [discriminate|].
  intros N F. inversion N as [|? ? Hx N']; subst.
  destruct (q x) eqn:Q.
  - injection F as ->. unfold by_id. now rewrite Z.eqb_refl.
  - assert (Hin : In a l) by (apply find_some in F; tauto).
    unfold by_id at 1.
    destruct (a_id x =? a_id a) eqn:E.
    + apply Z.eqb_eq in E. exfalso. apply Hx. rewrite E. now apply in_map.
    + now rewrite (IH N' F).
Qed.

(** Updating the first match removes exactly one match. *)
Lemma update_one_docs_self q l :
  active_filter q ->
  count q (fst (update_one_docs q l)) = Nat.pred (count q l).
Proof.
  intros Hq. induction l as [|a l IH]; cbn [update_one_docs]; [reflexivity|].
  destruct (q a) eqn:Q; cbn [fst deactivate]; rewrite !count_cons.
  - now rewrite Hq, Q.
  - now rewrite Q, IH.
Qed.

Lemma has_active_count k i ty c :
  has_active k i ty c = negb (Nat.eqb (count (q_active k i ty) (docs c)) 0).
Proof.
  unfold has_active. induction (docs c) as [|a l IH]; [reflexivity|].
  cbn [existsb]. rewrite count_cons.
  destruct (q_active k i ty a); [reflexivity|exact IH].
Qed.

(** *** What one loop iteration does to the counts *)

Lemma monitors_types_differ m :
  In m monitors -> m_soon_type m <> m_expired_type m.
Proof.
  intros H. repeat (destruct H as [<-|H]; [discriminate|]). contradiction.
Qed.

Lemma q_active_disjoint_type k i ty k' i' ty' :
  ty <> ty' -> disjoint (q_active k i ty) (q_active k' i' ty').
Proof.
  intros N a H. unfold q_active in *.
  apply andb_prop in H as [H _]. apply andb_prop in H as [_ H].
  apply String.eqb_eq in H.
  destruct (String.eqb (a_type a) ty') eqn:E.
  - apply String.eqb_eq in E. congruence.
  - now rewrite andb_false_r.
Qed.

Lemma q_active_disjoint_owner k i i' ty ty' :
  i <> i' -> disjoint (q_active k i ty) (q_active k i' ty').
Proof.
  intros N a H. unfold q_active in *.
  apply andb_prop in H as [H _]. apply andb_prop in H as [H _].
  destruct (owner_is k i' a) eqn:E; [|reflexivity].
  exfalso. apply N.
  destruct k; cbn in H, E; apply opt_eqb_eq in H; apply opt_eqb_eq in E;
    congruence.
Qed.

Section Iteration.

Variable dateparse : string -> option datetime.
Variable strftime : string -> datetime -> string.

Lemma new_alert_own_key m sub (ex : bool) d j :
  q_active (m_owner m) (s_id sub)
           (if ex then m_expired_type m else m_soon_type m)
           (with_id j (new_alert strftime m sub ex d)) = true.
Proof.
  unfold q_active, owner_is.
  cbn [a_employee_id a_truck_id a_type a_status with_id new_alert].
  rewrite String.eqb_refl.
  destruct (m_owner m); cbn; now rewrite Z.eqb_refl.
Qed.

Lemma new_alert_other_type m sub (ex : bool) d j k i ty :
  ty <> (if ex then m_expired_type m else m_soon_type m) ->
  q_active k i ty (with_id j (new_alert strftime m sub ex d)) = false.
Proof.
  intros N. destruct (q_active _ _ _ _) eqn:Q; [|reflexivity].
  apply (new_alert_key strftime) in Q as (_ & _ & E). contradiction.
Qed.

Lemma count_insert q a c :
  count q (docs (insert_one a c))
  = (count q (docs c)
     + (if q (with_id (fresh_id (docs c)) a) then 1 else 0))%nat.
Proof.
  cbn [insert_one docs]. rewrite count_app, count_cons. cbn. lia.
Qed.

Lemma count_update_many_self q c :
  active_filter q -> count q (docs (update_many q c)) = 0%nat.
Proof. intros. now apply update_many_docs_self. Qed.

Lemma count_update_many_frame flt q c :
  disjoint flt q -> active_filter q ->
  count q (docs (update_many flt c)) = count q (docs c).
Proof. intros. now apply update_many_docs_frame. Qed.

Lemma count_update_many_le flt q c :
  active_filter q ->
  (count q (docs (update_many flt c)) <= count q (docs c))%nat.
Proof. intros. now apply update_many_docs_le. Qed.

Lemma count_deactivate_existing_le ex q c :
  active_filter q ->
  (count q (docs (deactivate_existing ex c)) <= count q (docs c))%nat.
Proof.
  intros Hq. destruct ex; cbn [deactivate_existing]; [|lia].
  now apply update_one_docs_le.
Qed.

(** [find_one] followed by the update by [_id] is the update of the first
    match. *)
Lemma deactivate_existing_found q c :
  unique_ids c ->
  docs (deactivate_existing (find_one q c) c) = fst (update_one_docs q (docs c)).
Proof.
  intros N. unfold find_one. destruct (find q (docs c)) as [a|] eqn:F.
  - cbn [deactivate_existing update_one docs].
    now rewrite (update_by_found_id q _ a N F).
  - cbn [deactivate_existing]. apply count_zero_find in F.
    clear N. induction (docs c) as [|x l IH]; [reflexivity|].
    rewrite count_cons in F. cbn [update_one_docs].
    destruct (q x); [lia|]. cbn [fst]. now rewrite <- IH.
Qed.

Lemma count_deactivate_existing_self q c :
  unique_ids c -> active_filter q ->
  count q (docs (deactivate_existing (find_one q c) c))
  = Nat.pred (count q (docs c)).
Proof.
  intros N Hq. rewrite (deactivate_existing_found q c N).
  now apply update_one_docs_self.
Qed.

Lemma count_deactivate_existing_frame q q' c :
  unique_ids c -> disjoint q q' -> active_filter q' ->
  count q' (docs (deactivate_existing (find_one q c) c)) = count q' (docs c).
Proof.
  intros N D Hq. rewrite (deactivate_existing_found q c N).
  now apply update_one_docs_frame.
Qed.

End Iteration.

(** C3 (as amended). For a subject of one of the four monitors whose expiry
    date is configured and parses, and clock readings with [now <= soon]:
    an expiry date equal to [now] takes the expiring-soon branch (the test
    for expired is the strict [<]), and so does an expiry date equal to the
    horizon [soon], the first clock reading plus 30 days (inclusive [<=]).
    After the iteration the subject has an Active alert of the
    expiring-soon type and no Active alert of the expired type. *)
Theorem expiry_boundary_is_expiring_soon dateparse strftime m r sub c d :
  In m monitors ->
  resolve_expiry dateparse (s_expiry sub) = Some d ->
  r_second r <= r_first r + timedelta_days 30 ->
  d = r_second r \/ d = r_first r + timedelta_days 30 ->
  let soon := r_first r + timedelta_days 30 in
  let now := r_second r in
  let c' := reconcile_one dateparse strftime m soon now c sub in
  due_of soon now (Some d) = ExpiringSoon
  /\ has_active (m_owner m) (s_id sub) (m_soon_type m) c' = true
  /\ has_active (m_owner m) (s_id sub) (m_expired_type m) c' = false.
Proof.
  intros Hm He Hle Hd soon now c'.
  assert (T := monitors_types_differ m Hm).
  assert (B1 : (d <? now) = false) by (apply Z.ltb_ge; subst soon now; lia).
  assert (B2 : (d <=? soon) = true) by (apply Z.leb_le; subst soon now; lia).
  split; [cbn [due_of]; now rewrite B1, B2|].
  subst c'. unfold reconcile_one. rewrite He, B1, B2.
  rewrite !has_active_count.
  set (qs := q_active (m_owner m) (s_id sub) (m_soon_type m)).
  set (qe := q_active (m_owner m) (s_id sub) (m_expired_type m)).
  assert (Fe : count qe (docs (update_many qe c)) = 0%nat)
    by (apply count_update_many_self, q_active_filter).
  assert (Fs : count qs (docs (update_many qe c)) = count qs (docs c)).
  { apply count_update_many_frame; [|apply q_active_filter].
    apply q_active_disjoint_type. congruence. }
  destruct (find_one qs c) as [a|] eqn:F.
  - rewrite Fe, Fs. split; [|reflexivity].
    destruct (count qs (docs c)) eqn:E; [|reflexivity].
    apply count_zero_find in E. unfold find_one in F. congruence.
  - rewrite !count_insert.
    subst qs. rewrite (new_alert_own_key strftime m sub false).
    subst qe. rewrite (new_alert_other_type strftime m sub false) by (cbn; congruence).
    rewrite Fe, Fs. split; [|reflexivity].
    now rewrite Nat.add_1_r.
Qed.

(** *** Idempotence of the reconciliation *)

Lemma NoDup_map_In_inj {A B} (f : A -> B) l x y :
  NoDup (map f l) -> In x l -> In y l -> f x = f y -> x = y.
Proof.
  induction l as [|a l IH]; cbn [map]; [contradiction|].
  intros N Hx Hy E. inversion N as [|? ? Ha N']; subst.
  destruct Hx as [->|Hx], Hy as [->|Hy]; auto.
  - exfalso. apply Ha. rewrite E. now apply in_map.
  - exfalso. apply Ha. rewrite <- E. now apply in_map.
Qed.

Lemma NoDup_map_filter {A B} (f : A -> B) p l :
  NoDup (map f l) -> NoDup (map f (filter p l)).
Proof.
  induction l as [|a l IH]; cbn [map filter]; [auto|].
  intros N. inversion N as [|? ? Ha N']; subst.
  destruct (p a); cbn [map]; auto.
  constructor; auto.
  intros H. apply Ha. apply in_map_iff in H as (x & E & Hx).
  apply filter_In in Hx as [Hx _]. rewrite <- E. now apply in_map.
Qed.

Lemma q_owner_active_new_alert strftime k i m sub (ex : bool) d j :
  k <> m_owner m \/ i <> s_id sub ->
  q_owner_active k i (with_id j (new_alert strftime m sub ex d)) = false.
Proof.
  intros N. unfold q_owner_active, owner_is.
  cbn [a_employee_id a_truck_id a_status with_id new_alert].
  destruct k, (m_owner m); cbn; try reflexivity;
    destruct (Z.eqb_spec (s_id sub) i); try reflexivity;
    exfalso; destruct N as [N|N]; apply N; congruence.
Qed.

Section Idempotence.

Variable dateparse : string -> option datetime.
Variable strftime : string -> datetime -> string.

Local Abbreviation reconcile_one := (reconcile_one dateparse strftime).
Local Abbreviation reconcile_pass := (reconcile_pass dateparse strftime).

Lemma unique_ids_update_many flt c :
  unique_ids c -> unique_ids (update_many flt c).
Proof. unfold unique_ids. cbn [update_many docs]. now rewrite update_ids_many. Qed.

Lemma unique_ids_deactivate_existing ex c :
  unique_ids c -> unique_ids (deactivate_existing ex c).
Proof.
  destruct ex; cbn [deactivate_existing]; [|auto].
  unfold unique_ids. cbn [update_one docs]. now rewrite update_ids_one.
Qed.

Lemma unique_ids_insert a c : unique_ids c -> unique_ids (insert_one a c).
Proof.
  unfold unique_ids. cbn [insert_one docs]. intros N.
  rewrite map_app. cbn [map with_id a_id].
  apply NoDup_rev in N. rewrite <- (rev_involutive (_ ++ _)).
  apply NoDup_rev. rewrite rev_app_distr. cbn [rev app].
  constructor; [|exact N].
  rewrite <- in_rev. apply fresh_id_not_in.
Qed.

Lemma unique_ids_reconcile_one m soon now c sub :
  unique_ids c -> unique_ids (reconcile_one m soon now c sub).
Proof.
  intros N. unfold Dashboard.reconcile_one.
  destruct (resolve_expiry dateparse (s_expiry sub)) as [d|];
    [|now apply unique_ids_deactivate_existing].
  destruct (d <? now).
  - destruct (find_one _ (deactivate_existing _ c));
      [|apply unique_ids_insert]; now apply unique_ids_deactivate_existing.
  - destruct (d <=? soon).
    + destruct (find_one _ c); [|apply unique_ids_insert];
        now apply unique_ids_update_many.
    + now apply unique_ids_update_many, unique_ids_deactivate_existing.
Qed.

Lemma unique_ids_fold {A} (f : Coll -> A -> Coll) l :
  (forall c x, unique_ids c -> unique_ids (f c x)) ->
  forall c, unique_ids c -> unique_ids (fold_left f l c).
Proof. intros Hf. induction l as [|x l IH]; cbn [fold_left]; auto. Qed.

Lemma unique_ids_pass m r subs c :
  unique_ids c -> unique_ids (reconcile_pass m r subs c).
Proof.
  unfold Dashboard.reconcile_pass. apply unique_ids_fold.
  intros. now apply unique_ids_reconcile_one.
Qed.

(** A settled subject: the iteration writes nothing. *)
Lemma settled_noop m soon now c sub :
  settled m (due_of soon now (resolve_expiry dateparse (s_expiry sub))) sub c ->
  reconcile_one m soon now c sub = c.
Proof.
  unfold settled, Dashboard.reconcile_one, due_of, find_one.
  destruct (resolve_expiry dateparse (s_expiry sub)) as [d|].
  2:{ intros H. apply count_zero_find in H. now rewrite H. }
  destruct (d <? now).
  - intros [H1 H2]. apply count_zero_find in H1. rewrite H1.
    cbn [deactivate_existing].
    apply count_pos_find in H2 as [a ->]. reflexivity.
  - destruct (d <=? soon).
    + intros [H1 H2]. rewrite (update_many_none _ _ H1).
      apply count_pos_find in H2 as [a ->]. reflexivity.
    + intros [H1 H2]. apply count_zero_find in H1. rewrite H1.
      cbn [deactivate_existing]. now apply update_many_none.
Qed.

(** After its iteration a subject is settled. *)
Lemma reconcile_one_settles m soon now c sub :
  unique_ids c -> at_most_one_active c ->
  m_soon_type m <> m_expired_type m ->
  settled m (due_of soon now (resolve_expiry dateparse (s_expiry sub))) sub
          (reconcile_one m soon now c sub).
Proof.
  intros N A T. unfold settled, Dashboard.reconcile_one, due_of.
  set (qs := q_active (m_owner m) (s_id sub) (m_soon_type m)).
  set (qe := q_active (m_owner m) (s_id sub) (m_expired_type m)).
  assert (As : (count qs (docs c) <= 1)%nat) by apply A.
  assert (Hqs : active_filter qs) by apply q_active_filter.
  assert (Hqe : active_filter qe) by apply q_active_filter.
  assert (Dse : disjoint qs qe) by now apply q_active_disjoint_type.
  assert (Des : disjoint qe qs)
    by (apply q_active_disjoint_type; congruence).
  assert (S0 : count qs (docs (deactivate_existing (find_one qs c) c)) = 0%nat)
    by (rewrite count_deactivate_existing_self by assumption; lia).
  destruct (resolve_expiry dateparse (s_expiry sub)) as [d|]; [|exact S0].
  destruct (d <? now).
  - set (c1 := deactivate_existing (find_one qs c) c) in *.
    destruct (find_one qe c1) as [a|] eqn:F.
    + split; [exact S0|].
      destruct (count qe (docs c1)) eqn:E; [|lia].
      apply count_zero_find in E. unfold find_one in F. congruence.
    + rewrite !count_insert. subst qs qe.
      rewrite (new_alert_own_key strftime m sub true).
      rewrite (new_alert_other_type strftime m sub true) by (cbn; congruence).
      split; lia.
  - destruct (d <=? soon).
    + assert (Fe : count qe (docs (update_many qe c)) = 0%nat)
        by now apply count_update_many_self.
      assert (Fs : count qs (docs (update_many qe c)) = count qs (docs c))
        by now apply count_update_many_frame.
      destruct (find_one qs c) as [a|] eqn:F.
      * split; [exact Fe|]. rewrite Fs.
        destruct (count qs (docs c)) eqn:E; [|lia].
        apply count_zero_find in E. unfold find_one in F. congruence.
      * rewrite !count_insert. subst qs qe.
        rewrite (new_alert_own_key strftime m sub false).
        rewrite (new_alert_other_type strftime m sub false) by (cbn; congruence).
        split; lia.
    + split.
      * rewrite count_update_many_frame; assumption.
      * now apply count_update_many_self.
Qed.

(** Frame: an iteration changes no count outside the two keys of its
    subject. *)
Lemma reconcile_one_frame q m soon now c sub :
  unique_ids c -> active_filter q ->
  disjoint (q_active (m_owner m) (s_id sub) (m_soon_type m)) q ->
  disjoint (q_active (m_owner m) (s_id sub) (m_expired_type m)) q ->
  (forall j ex d, q (with_id j (new_alert strftime m sub ex d)) = false) ->
  count q (docs (reconcile_one m soon now c sub)) = count q (docs c).
Proof.
  intros N Hq Ds De Hn. unfold Dashboard.reconcile_one.
  set (qs := q_active (m_owner m) (s_id sub) (m_soon_type m)) in *.
  set (qe := q_active (m_owner m) (s_id sub) (m_expired_type m)) in *.
  assert (F1 : count q (docs (deactivate_existing (find_one qs c) c))
               = count q (docs c))
    by now apply count_deactivate_existing_frame.
  destruct (resolve_expiry dateparse (s_expiry sub)) as [d|]; [|exact F1].
  destruct (d <? now).
  - destruct (find_one qe _); [exact F1|].
    rewrite count_insert, Hn, F1. lia.
  - destruct (d <=? soon).
    + destruct (find_one qs c).
      * now apply count_update_many_frame.
      * rewrite count_insert, Hn, count_update_many_frame by assumption. lia.
    + rewrite count_update_many_frame by assumption. exact F1.
Qed.

(** Monotonicity: an iteration adds no match to a filter that its new
    alerts do not satisfy. *)
Lemma reconcile_one_le q m soon now c sub :
  active_filter q ->
  (forall j ex d, q (with_id j (new_alert strftime m sub ex d)) = false) ->
  (count q (docs (reconcile_one m soon now c sub)) <= count q (docs c))%nat.
Proof.
  intros Hq Hn. unfold Dashboard.reconcile_one.
  set (ex := find_one _ c).
  assert (L1 := count_deactivate_existing_le ex q c Hq).
  destruct (resolve_expiry dateparse (s_expiry sub)) as [d|]; [|exact L1].
  destruct (d <? now).
  - destruct (find_one _ (deactivate_existing ex c)); [exact L1|].
    rewrite count_insert, Hn. lia.
  - destruct (d <=? soon).
    + assert (L2 := count_update_many_le
                      (q_active (m_owner m) (s_id sub) (m_expired_type m)) q c Hq).
      destruct ex; [exact L2|]. rewrite count_insert, Hn. lia.
    + etransitivity; [now apply count_update_many_le | exact L1].
Qed.

(** **** Whole passes *)

Lemma pass_frame q m r subs c :
  unique_ids c -> active_filter q ->
  (forall sub, In sub subs ->
     disjoint (q_active (m_owner m) (s_id sub) (m_soon_type m)) q
     /\ disjoint (q_active (m_owner m) (s_id sub) (m_expired_type m)) q
     /\ forall j ex d, q (with_id j (new_alert strftime m sub ex d)) = false) ->
  count q (docs (reconcile_pass m r subs c)) = count q (docs c).
Proof.
  intros N Hq. unfold Dashboard.reconcile_pass.
  revert c N. induction subs as [|x l IH]; intros c N H; cbn [fold_left];
    [reflexivity|].
  rewrite IH.
  - destruct (H x (or_introl eq_refl)) as (D1 & D2 & D3).
    now apply reconcile_one_frame.
  - now apply unique_ids_reconcile_one.
  - intros sub Hs. apply H. now right.
Qed.

Lemma pass_le q m r subs c :
  active_filter q ->
  (forall sub, In sub subs ->
     forall j ex d, q (with_id j (new_alert strftime m sub ex d)) = false) ->
  (count q (docs (reconcile_pass m r subs c)) <= count q (docs c))%nat.
Proof.
  intros Hq. unfold Dashboard.reconcile_pass.
  revert c. induction subs as [|x l IH]; intros c H; cbn [fold_left]; [lia|].
  etransitivity.
  - apply IH. intros sub Hs. apply H. now right.
  - apply reconcile_one_le; [assumption|]. apply H. now left.
Qed.

Lemma settled_counts m b sub c c' :
  count (q_active (m_owner m) (s_id sub) (m_soon_type m)) (docs c')
  = count (q_active (m_owner m) (s_id sub) (m_soon_type m)) (docs c) ->
  count (q_active (m_owner m) (s_id sub) (m_expired_type m)) (docs c')
  = count (q_active (m_owner m) (s_id sub) (m_expired_type m)) (docs c) ->
  settled m b sub c -> settled m b sub c'.
Proof. unfold settled. intros -> ->. auto. Qed.

(** A pass of a monitor with other alert types keeps a subject settled. *)
Lemma pass_keeps_settled m b sub m' r subs c :
  types_apart m m' -> unique_ids c ->
  settled m b sub c -> settled m b sub (reconcile_pass m' r subs c).
Proof.
  intros (T1 & T2 & T3 & T4) N. apply settled_counts.
  - apply pass_frame; [assumption|apply q_active_filter|].
    intros x _. repeat split.
    + apply q_active_disjoint_type. congruence.
    + apply q_active_disjoint_type. congruence.
    + intros j ex d. apply new_alert_other_type. destruct ex; congruence.
  - apply pass_frame; [assumption|apply q_active_filter|].
    intros x _. repeat split.
    + apply q_active_disjoint_type. congruence.
    + apply q_active_disjoint_type. congruence.
    + intros j ex d. apply new_alert_other_type. destruct ex; congruence.
Qed.

Lemma new_alert_other_owner m sub (ex : bool) d j i ty :
  i <> s_id sub ->
  q_active (m_owner m) i ty (with_id j (new_alert strftime m sub ex d)) = false.
Proof.
  intros N. destruct (q_active _ _ _ _) eqn:Q; [|reflexivity].
  apply (new_alert_key strftime) in Q as (_ & E & _). contradiction.
Qed.

(** After a pass every subject of it is settled. *)
Lemma pass_settles m r subs c :
  unique_ids c -> at_most_one_active c ->
  m_soon_type m <> m_expired_type m ->
  NoDup (map s_id subs) ->
  forall sub, In sub subs ->
    settled m (due_at dateparse r sub) sub (reconcile_pass m r subs c).
Proof.
  intros N A T. unfold due_at.
  revert c N A. induction subs as [|x l IH]; intros c N A D sub Hs;
    [contradiction|].
  inversion D as [|? ? Hx D']; subst.
  change (reconcile_pass m r (x :: l) c)
    with (reconcile_pass m r l
            (reconcile_one m (r_first r + timedelta_days 30) (r_second r) c x)).
  set (c1 := reconcile_one m _ _ c x).
  assert (N1 : unique_ids c1) by now apply unique_ids_reconcile_one.
  assert (A1 : at_most_one_active c1) by now apply reconcile_one_invariant.
  destruct Hs as [->|Hs]; [|now apply IH].
  assert (S1 := reconcile_one_settles m (r_first r + timedelta_days 30)
                  (r_second r) c sub N A T).
  fold c1 in S1. revert S1.
  assert (Hy : forall y, In y l -> s_id sub <> s_id y).
  { intros y Hy E. apply Hx. rewrite E. now apply in_map. }
  apply settled_counts.
  - apply pass_frame; [assumption|apply q_active_filter|].
    intros y Hin. specialize (Hy y Hin). repeat split.
    + apply q_active_disjoint_owner. congruence.
    + apply q_active_disjoint_owner. congruence.
    + intros j ex d. now apply new_alert_other_owner.
  - apply pass_frame; [assumption|apply q_active_filter|].
    intros y Hin. specialize (Hy y Hin). repeat split.
    + apply q_active_disjoint_owner. congruence.
    + apply q_active_disjoint_owner. congruence.
    + intros j ex d. now apply new_alert_other_owner.
Qed.

(** A pass over settled subjects writes nothing. *)
Lemma pass_noop m r subs c :
  (forall sub, In sub subs -> settled m (due_at dateparse r sub) sub c) ->
  reconcile_pass m r subs c = c.
Proof.
  unfold Dashboard.reconcile_pass, due_at.
  induction subs as [|x l IH]; intros H; cbn [fold_left]; [reflexivity|].
  rewrite settled_noop by (apply H; now left).
  apply IH. intros sub Hs. apply H. now right.
Qed.

(** **** Removal of the alerts of inactive entities *)

Lemma fold_update_many_le {A} (f : A -> Alert -> bool) q l c :
  active_filter q ->
  (count q (docs (fold_left (fun c x => update_many (f x) c) l c))
   <= count q (docs c))%nat.
Proof.
  intros Hq. revert c. induction l as [|x l IH]; intros c; cbn [fold_left];
    [lia|].
  etransitivity; [apply IH | now apply count_update_many_le].
Qed.

Lemma fold_update_many_zero {A} (f : A -> Alert -> bool) l c :
  (forall x, active_filter (f x)) ->
  forall x, In x l ->
    count (f x) (docs (fold_left (fun c x => update_many (f x) c) l c)) = 0%nat.
Proof.
  intros Hf. revert c. induction l as [|y l IH]; intros c x Hx;
    [contradiction|]. cbn [fold_left].
  destruct Hx as [->|Hx]; [|now apply IH].
  assert (L := fold_update_many_le f (f x) l (update_many (f x) c) (Hf x)).
  rewrite count_update_many_self in L by apply Hf. lia.
Qed.

Lemma fold_update_many_noop {A} (f : A -> Alert -> bool) l c :
  (forall x, In x l -> count (f x) (docs c) = 0%nat) ->
  fold_left (fun c x => update_many (f x) c) l c = c.
Proof.
  induction l as [|y l IH]; intros H; cbn [fold_left]; [reflexivity|].
  rewrite update_many_none by (apply H; now left).
  apply IH. intros x Hx. apply H. now right.
Qed.

Lemma unique_ids_fold_update_many {A} (f : A -> Alert -> bool) l c :
  unique_ids c -> unique_ids (fold_left (fun c x => update_many (f x) c) l c).
Proof.
  apply unique_ids_fold. intros. now apply unique_ids_update_many.
Qed.

(** **** The whole reconciliation *)

Lemma employee_subject_ids employees :
  map s_id (employee_subjects employees)
  = map e_id (active_employees employees).
Proof. unfold employee_subjects. rewrite map_map. reflexivity. Qed.

Lemma truck_subject_ids field trucks :
  map s_id (truck_subjects field trucks) = map t_id (active_trucks trucks).
Proof. unfold truck_subjects. rewrite map_map. reflexivity. Qed.

Lemma inactive_employee_not_subject employees e sub :
  NoDup (map e_id employees) -> In e employees -> e_status e = "Inactive" ->
  In sub (employee_subjects employees) -> e_id e <> s_id sub.
Proof.
  intros N He Hs Hsub E.
  apply in_map_iff in Hsub as (e' & <- & He').
  apply filter_In in He' as [He' Ha]. apply String.eqb_eq in Ha.
  cbn [s_id subject_of_employee] in E.
  assert (e = e') by (eapply NoDup_map_In_inj; eauto).
  subst e'. rewrite Hs in Ha. discriminate.
Qed.

Lemma inactive_truck_not_subject field trucks t sub :
  NoDup (map t_id trucks) -> In t trucks -> t_status t = "Inactive" ->
  In sub (truck_subjects field trucks) -> t_id t <> s_id sub.
Proof.
  intros N Ht Hs Hsub E.
  apply in_map_iff in Hsub as (t' & <- & Ht').
  apply filter_In in Ht' as [Ht' Ha]. apply String.eqb_eq in Ha.
  cbn [s_id subject_of_truck] in E.
  assert (t = t') by (eapply NoDup_map_In_inj; eauto).
  subst t'. rewrite Hs in Ha. discriminate.
Qed.

Ltac apart := repeat split; discriminate.

Lemma reconcile_alerts_reconciled k employees trucks c :
  unique_ids c -> at_most_one_active c ->
  NoDup (map e_id employees) -> NoDup (map t_id trucks) ->
  reconciled dateparse k employees trucks
    (reconcile_alerts dateparse strftime k employees trucks c).
Proof.
  intros N A Ne Nt.
  unfold reconcile_alerts, check_and_create_permit_expiry_alerts,
    check_and_create_fc_expiry_alerts, check_and_create_insurance_expiry_alerts,
    check_and_create_license_expiry_alerts.
  fold (employee_subjects employees).
  fold (truck_subjects t_insurance_expiry trucks).
  fold (truck_subjects t_fc_expiry trucks).
  fold (truck_subjects t_permit_expiry trucks).
  set (cA := remove_inactive_employee_alerts employees c).
  set (cB := remove_inactive_truck_alerts trucks cA).
  set (cL := reconcile_pass license_monitor (k_license k)
               (employee_subjects employees) cB).
  set (cI := reconcile_pass insurance_monitor (k_insurance k)
               (truck_subjects t_insurance_expiry trucks) cL).
  set (cF := reconcile_pass fc_monitor (k_fc k)
               (truck_subjects t_fc_expiry trucks) cI).
  set (cP := reconcile_pass permit_monitor (k_permit k)
               (truck_subjects t_permit_expiry trucks) cF).
  assert (NA : unique_ids cA) by now apply unique_ids_fold_update_many.
  assert (NB : unique_ids cB) by now apply unique_ids_fold_update_many.
  assert (NL : unique_ids cL) by now apply unique_ids_pass.
  assert (NI : unique_ids cI) by now apply unique_ids_pass.
  assert (NF : unique_ids cF) by now apply unique_ids_pass.
  assert (AA : at_most_one_active cA)
    by now apply remove_inactive_employee_invariant.
  assert (AB : at_most_one_active cB)
    by now apply remove_inactive_truck_invariant.
  assert (AL : at_most_one_active cL)
    by now apply (reconcile_pass_invariant dateparse strftime).
  assert (AI : at_most_one_active cI)
    by now apply (reconcile_pass_invariant dateparse strftime).
  assert (AF : at_most_one_active cF)
    by now apply (reconcile_pass_invariant dateparse strftime).
  assert (NsE : NoDup (map s_id (employee_subjects employees)))
    by (rewrite employee_subject_ids; now apply NoDup_map_filter).
  assert (NsT : forall field, NoDup (map s_id (truck_subjects field trucks)))
    by (intros; rewrite truck_subject_ids; now apply NoDup_map_filter).
  repeat split.
  - (* inactive employees keep no Active alert *)
    intros e He Hs.
    set (q := q_owner_active OwnerEmployee (e_id e)).
    assert (Hq : active_filter q) by apply q_owner_active_filter.
    assert (ZA : count q (docs cA) = 0%nat).
    { apply (fold_update_many_zero
               (fun emp => q_owner_active OwnerEmployee (e_id emp))).
      - intros. apply q_owner_active_filter.
      - apply filter_In. split; [assumption|]. now apply String.eqb_eq. }
    assert (ZB : (count q (docs cB) <= count q (docs cA))%nat)
      by now apply fold_update_many_le.
    assert (ZL : (count q (docs cL) <= count q (docs cB))%nat).
    { apply pass_le; [assumption|]. intros sub Hsub j ex d.
      apply q_owner_active_new_alert. right.
      now apply (inactive_employee_not_subject employees). }
    assert (ZI : (count q (docs cI) <= count q (docs cL))%nat).
    { apply pass_le; [assumption|]. intros sub Hsub j ex d.
      apply q_owner_active_new_alert. left. discriminate. }
    assert (ZF : (count q (docs cF) <= count q (docs cI))%nat).
    { apply pass_le; [assumption|]. intros sub Hsub j ex d.
      apply q_owner_active_new_alert. left. discriminate. }
    assert (ZP : (count q (docs cP) <= count q (docs cF))%nat).
    { apply pass_le; [assumption|]. intros sub Hsub j ex d.
      apply q_owner_active_new_alert. left. discriminate. }
    lia.
  - (* inactive trucks keep no Active alert *)
    intros t Ht Hs.
    set (q := q_owner_active OwnerTruck (t_id t)).
    assert (Hq : active_filter q) by apply q_owner_active_filter.
    assert (ZB : count q (docs cB) = 0%nat).
    { apply (fold_update_many_zero
               (fun truck => q_owner_active OwnerTruck (t_id truck))).
      - intros. apply q_owner_active_filter.
      - apply filter_In. split; [assumption|]. now apply String.eqb_eq. }
    assert (ZL : (count q (docs cL) <= count q (docs cB))%nat).
    { apply pass_le; [assumption|]. intros sub Hsub j ex d.
      apply q_owner_active_new_alert. left. discriminate. }
    assert (ZI : (count q (docs cI) <= count q (docs cL))%nat).
    { apply pass_le; [assumption|]. intros sub Hsub j ex d.
      apply q_owner_active_new_alert. right.
      now apply (inactive_truck_not_subject t_insurance_expiry trucks). }
    assert (ZF : (count q (docs cF) <= count q (docs cI))%nat).
    { apply pass_le; [assumption|]. intros sub Hsub j ex d.
      apply q_owner_active_new_alert. right.
      now apply (inactive_truck_not_subject t_fc_expiry trucks). }
    assert (ZP : (count q (docs cP) <= count q (docs cF))%nat).
    { apply pass_le; [assumption|]. intros sub Hsub j ex d.
      apply q_owner_active_new_alert. right.
      now apply (inactive_truck_not_subject t_permit_expiry trucks). }
    lia.
  - intros sub Hsub.
    apply pass_keeps_settled; [apart|assumption|].
    apply pass_keeps_settled; [apart|assumption|].
    apply pass_keeps_settled; [apart|assumption|].
    apply pass_settles; auto. discriminate.
  - intros sub Hsub.
    apply pass_keeps_settled; [apart|assumption|].
    apply pass_keeps_settled; [apart|assumption|].
    apply pass_settles; auto. discriminate.
  - intros sub Hsub.
    apply pass_keeps_settled; [apart|assumption|].
    apply pass_settles; auto. discriminate.
  - intros sub Hsub.
    apply pass_settles; auto. discriminate.
Qed.

(** A reconciled collection is a fixed point of the next reconciliation,
    as long as every expiry date still selects the same branch. *)
Lemma reconciled_fixed_point k1 k2 employees trucks c :
  same_branches dateparse k1 k2 employees trucks ->
  reconciled dateparse k1 employees trucks c ->
  reconcile_alerts dateparse strftime k2 employees trucks c = c.
Proof.
  intros (SL & SI & SF & SP) (RA & RB & RL & RI & RF & RP).
  unfold reconcile_alerts, check_and_create_permit_expiry_alerts,
    check_and_create_fc_expiry_alerts, check_and_create_insurance_expiry_alerts,
    check_and_create_license_expiry_alerts.
  fold (employee_subjects employees).
  fold (truck_subjects t_insurance_expiry trucks).
  fold (truck_subjects t_fc_expiry trucks).
  fold (truck_subjects t_permit_expiry trucks).
  assert (EA : remove_inactive_employee_alerts employees c = c).
  { apply (fold_update_many_noop
             (fun emp => q_owner_active OwnerEmployee (e_id emp))).
    intros e He. apply filter_In in He as [He Hs].
    apply String.eqb_eq in Hs. now apply RA. }
  rewrite EA.
  assert (EB : remove_inactive_truck_alerts trucks c = c).
  { apply (fold_update_many_noop
             (fun truck => q_owner_active OwnerTruck (t_id truck))).
    intros t Ht. apply filter_In in Ht as [Ht Hs].
    apply String.eqb_eq in Hs. now apply RB. }
  rewrite EB.
  rewrite (pass_noop license_monitor)
    by (intros sub Hs; rewrite <- (SL sub Hs); now apply RL).
  rewrite (pass_noop insurance_monitor)
    by (intros sub Hs; rewrite <- (SI sub Hs); now apply RI).
  rewrite (pass_noop fc_monitor)
    by (intros sub Hs; rewrite <- (SF sub Hs); now apply RF).
  apply (pass_noop permit_monitor).
  intros sub Hs. rewrite <- (SP sub Hs). now apply RP.
Qed.

End Idempotence.

(** C2 (as amended). Running the alert reconciliation twice in succession
    with the same trucks and employees, from an alerts collection with
    unique [_id]s in which at most one alert per owner and type is Active,
    and with clock readings under which every expiry date selects the same
    branch in both runs: the second run leaves the collection and the
    count of modified and inserted documents as the first run left them,
    so it performs no effective write and the Active alerts are the
    same. *)
Theorem reconcile_alerts_idempotent dateparse strftime k1 k2 employees trucks c :
  unique_ids c -> at_most_one_active c ->
  NoDup (map e_id employees) -> NoDup (map t_id trucks) ->
  same_branches dateparse k1 k2 employees trucks ->
  let c1 := reconcile_alerts dateparse strftime k1 employees trucks c in
  let c2 := reconcile_alerts dateparse strftime k2 employees trucks c1 in
  modified c2 = modified c1 /\ docs c2 = docs c1.
Proof.
  intros N A Ne Nt S c1 c2.
  assert (E : c2 = c1).
  { apply (reconciled_fixed_point dateparse strftime k1); [assumption|].
    now apply reconcile_alerts_reconciled. }
  now rewrite E.
Qed.

(** *** Concrete runs *)

Lemma at_most_one_active_invariant_witness :
  at_most_one_active
    (reconcile_alerts no_dateparse raw_strftime (sample_clock 1000)
       [sample_employee 500] [sample_truck] empty_alerts).
Proof.
  apply (at_most_one_active_invariant no_dateparse raw_strftime empty_alerts).
  - exact empty_alerts_invariant.
  - eapply run_cons; [apply run_nil | apply step_reconcile].
Defined.

(** An expiry date equal to [now]: the pass files an expiring-soon alert
    (a warning) and no expired alert. *)
Lemma expiry_equal_now_is_not_expired :
  let c' := check_and_create_license_expiry_alerts no_dateparse raw_strftime
              (mkReadings 1000 1000) [sample_employee 1000] empty_alerts in
  has_active OwnerEmployee 1 "license_expired" c' <> true
  /\ has_active OwnerEmployee 1 "license_expiry" c' = true
  /\ map a_severity (docs c') = ["warning"].
Proof. vm_compute. repeat split. discriminate. Qed.

Lemma expiry_boundary_is_expiring_soon_witness :
  let r := mkReadings 1000 1000 in
  let sub := subject_of_employee (sample_employee 1000) in
  let c' := reconcile_one no_dateparse raw_strftime license_monitor
              (r_first r + timedelta_days 30) (r_second r) empty_alerts sub in
  due_of (r_first r + timedelta_days 30) (r_second r) (Some 1000) = ExpiringSoon
  /\ has_active OwnerEmployee 1 "license_expiry" c' = true
  /\ has_active OwnerEmployee 1 "license_expired" c' = false.
Proof.
  apply (expiry_boundary_is_expiring_soon no_dateparse raw_strftime
           license_monitor (mkReadings 1000 1000)
           (subject_of_employee (sample_employee 1000)) empty_alerts 1000).
  - left. reflexivity.
  - reflexivity.
  - vm_compute. discriminate.
  - left. reflexivity.
Defined.

(** The licence expires between the two runs: the second run deactivates
    the expiring-soon alert and files an expired one. *)
Lemma second_run_writes_after_expiry :
  let c1 := reconcile_alerts no_dateparse raw_strftime (sample_clock 999)
              [sample_employee 1000] [] empty_alerts in
  let c2 := reconcile_alerts no_dateparse raw_strftime (sample_clock 1000)
              [sample_employee 1000] [] c1 in
  modified c2 = (modified c1 + 2)%nat
  /\ map a_type (active_alerts c1) = ["license_expiry"]
  /\ map a_type (active_alerts c2) = ["license_expired"].
Proof. vm_compute. repeat split. Qed.

Lemma reconcile_alerts_idempotent_witness :
  let c1 := reconcile_alerts no_dateparse raw_strftime (sample_clock 1000)
              [sample_employee 500] [sample_truck] empty_alerts in
  let c2 := reconcile_alerts no_dateparse raw_strftime (sample_clock 2000)
              [sample_employee 500] [sample_truck] c1 in
  modified c2 = modified c1 /\ docs c2 = docs c1.
Proof.
  apply (reconcile_alerts_idempotent no_dateparse raw_strftime
           (sample_clock 1000) (sample_clock 2000)
           [sample_employee 500] [sample_truck] empty_alerts).
  - constructor.
  - exact empty_alerts_invariant.
  - repeat constructor. intros [].
  - repeat constructor. intros [].
  - split; [|split; [|split]]; intros sub H; cbv in H;
      destruct H as [<-|[]]; vm_compute; reflexivity.
Defined.

End DashboardFacts.

(** * Properties of the analytics aggregator *)

Module AnalyticsFacts.
Import Analytics.

Lemma reversed_range_length days :
  List.length (reversed_range days) = Z.to_nat days.
Proof. unfold reversed_range. now rewrite length_rev, length_map, length_seq. Qed.

(** [reversed(range(days))] starts at [days - 1] and counts down. *)
Lemma reversed_range_nth days k :
  (k < Z.to_nat days)%nat ->
  nth_error (reversed_range days) k = Some (days - 1 - Z.of_nat k).
Proof.
  intros H. unfold reversed_range.
  set (l := map Z.of_nat (seq 0 (Z.to_nat days))).
  assert (Hl : List.length l = Z.to_nat days)
    by (subst l; now rewrite length_map, length_seq).
  rewrite (nth_error_nth' (rev l) 0) by (rewrite length_rev; lia).
  rewrite rev_nth by lia. rewrite Hl. subst l.
  change 0 with (Z.of_nat 0). rewrite map_nth, seq_nth by lia.
  f_equal. lia.
Qed.

Lemma truediv_positive x y :
  positive y = true -> truediv x y = Some (x / y)%Q.
Proof.
  unfold positive, truediv. intros H.
  destruct (Qeq_bool y 0) eqn:E; [|reflexivity].
  apply Qeq_bool_iff in E.
  destruct (Qle_bool y 0) eqn:L; [discriminate|].
  assert (Qle_bool y 0 = true) by (apply Qle_bool_iff; rewrite E; apply Qle_refl).
  congruence.
Qed.

Lemma truediv_count x n :
  (0 <? n)%nat = true ->
  truediv x (inject_Z (Z.of_nat n)) = Some (x / inject_Z (Z.of_nat n))%Q.
Proof.
  intros H. apply Nat.ltb_lt in H. unfold truediv.
  destruct (Qeq_bool _ 0) eqn:E; [|reflexivity].
  apply Qeq_bool_iff in E. unfold Qeq, inject_Z in E. cbn in E. lia.
Qed.

Lemma map_opt_total {A B} (f : A -> option B) l :
  (forall x, exists y, f x = Some y) ->
  exists ys, map_opt f l = Some ys /\ List.length ys = List.length l.
Proof.
  intros Hf. induction l as [|x l (ys & E & Hl)]; cbn [map_opt].
  - now exists [].
  - destruct (Hf x) as (y & ->). rewrite E. exists (y :: ys). cbn. auto.
Qed.

Section Facts.

Variable float_of_string : string -> option Q.
Variable dateparse : string -> option datetime.
Variable strftime : string -> datetime -> string.
Variable ObjectId : string -> option Z.
Variable oid_str : Z -> string.

Local Abbreviation safe_float := (safe_float float_of_string).
Local Abbreviation get_analytics :=
  (get_analytics float_of_string dateparse strftime ObjectId oid_str).

(** The guarded division of line 450 never raises. *)
Lemma totals_total completed :
  exists tot,
    totals float_of_string completed = Some tot
    /\ l_total_trips tot = List.length completed
    /\ l_total_distance tot
       = sum_by (fun t => safe_float (trip_distance_km t)) completed
    /\ l_total_revenue tot
       = sum_by (fun t => safe_float (trip_revenue t)) completed
    /\ l_total_fuel_consumed tot
       = sum_by (fun t => safe_float (trip_fuel_consumed t)) completed
    /\ l_avg_fuel_efficiency tot
       = (if positive (l_total_fuel_consumed tot)
          then l_total_distance tot / l_total_fuel_consumed tot else 0)%Q.
Proof.
  unfold totals. cbv zeta.
  set (d := sum_by (fun t => safe_float (trip_distance_km t)) completed).
  set (f := sum_by (fun t => safe_float (trip_fuel_consumed t)) completed).
  destruct (positive f) eqn:P.
  - rewrite (truediv_positive d f P). eexists. split; [reflexivity|].
    cbn. rewrite P. repeat split.
  - eexists. split; [reflexivity|]. cbn. rewrite P. repeat split.
Qed.

Lemma efficiency_entry_total completed start_date i :
  exists e,
    efficiency_entry float_of_string dateparse strftime completed start_date i
    = Some e.
Proof.
  unfold efficiency_entry. cbv zeta.
  destruct (positive _) eqn:P.
  - rewrite (truediv_positive _ _ P). eauto.
  - eauto.
Qed.

Lemma truck_stat_total completed truck :
  exists st, truck_stat float_of_string oid_str completed truck = Some st.
Proof.
  unfold truck_stat. cbv zeta.
  destruct (0 <? _)%nat eqn:P.
  - rewrite (truediv_count _ _ P). eauto.
  - eauto.
Qed.

(** [get_analytics] always answers, with the summary of [totals] and the
    series of [profit_trends_of]. *)
Lemma get_analytics_total days truck_id driver_id region utcnow all_trips all_trucks :
  let start_date := utcnow - timedelta_days days in
  let completed :=
    completed_trips region
      (filter (trip_filter ObjectId start_date utcnow truck_id driver_id)
              all_trips) in
  exists tot p,
    totals float_of_string completed = Some tot
    /\ get_analytics days truck_id driver_id region utcnow all_trips all_trucks
       = Some p
    /\ summary p
       = mkSummary (l_total_trips tot) (l_total_revenue tot)
           (l_total_distance tot) (round2 (l_avg_fuel_efficiency tot))
    /\ profit_trends p
       = profit_trends_of float_of_string dateparse strftime completed
           start_date days.
Proof.
  intros start_date completed.
  destruct (totals_total completed) as (tot & Et & _).
  exists tot. unfold Analytics.get_analytics.
  fold start_date. fold completed. rewrite Et.
  destruct (map_opt_total
              (efficiency_entry float_of_string dateparse strftime completed
                 start_date)
              (reversed_range days)
              (efficiency_entry_total completed start_date)) as (eff & -> & _).
  destruct (map_opt_total (truck_stat float_of_string oid_str completed)
              (filter (fun t => String.eqb (truck_status t) "Active") all_trucks)
              (truck_stat_total completed)) as (st & -> & _).
  eexists. repeat split; reflexivity.
Qed.

End Facts.

(** C4 (as amended). For every window length [days], the [profit_trends]
    series of the analytics answer has [max(days, 0)] entries, ordered
    newest day first and oldest day last: entry [k] is that of the day
    starting at [start_date + (days - 1 - k)] days.  Its profit is that
    day's revenue sum minus fuel-cost sum minus other-expenses sum, over
    the completed trips (of the region, if one is asked for) whose
    [start_date] falls within that day. *)
Theorem profit_trends_newest_first float_of_string dateparse strftime ObjectId
  oid_str days truck_id driver_id region utcnow all_trips all_trucks p :
  get_analytics float_of_string dateparse strftime ObjectId oid_str
    days truck_id driver_id region utcnow all_trips all_trucks = Some p ->
  let start_date := utcnow - timedelta_days days in
  let completed :=
    completed_trips region
      (filter (trip_filter ObjectId start_date utcnow truck_id driver_id)
              all_trips) in
  List.length (profit_trends p) = Z.to_nat days
  /\ forall k, (k < Z.to_nat days)%nat ->
       exists e,
         nth_error (profit_trends p) k = Some e
         /\ let day := start_date + timedelta_days (days - 1 - Z.of_nat k) in
            let day_trips := filter (in_day dateparse day) completed in
            let revenue :=
              sum_by (fun t => safe_float float_of_string (trip_revenue t))
                     day_trips in
            let fuel_cost :=
              sum_by (fun t => safe_float float_of_string (trip_fuel_cost t))
                     day_trips in
            let other_expenses :=
              sum_by (fun t => safe_float float_of_string (trip_other_expenses t))
                     day_trips in
            pe_date e = strftime "%Y-%m-%d" day
            /\ pe_revenue e = revenue
            /\ pe_profit e = (revenue - fuel_cost - other_expenses)%Q.
Proof.
  intros G start_date completed.
  destruct (get_analytics_total float_of_string dateparse strftime ObjectId
              oid_str days truck_id driver_id region utcnow all_trips all_trucks)
    as (tot & p' & _ & G' & _ & T).
  rewrite G in G'. injection G' as <-.
  fold start_date completed in T. rewrite T. unfold profit_trends_of.
  split; [now rewrite length_map, reversed_range_length|].
  intros k Hk. eexists. split.
  - rewrite nth_error_map, (reversed_range_nth days k Hk). reflexivity.
  - cbn. repeat split.
Qed.

(** C9. The analytics computation raises no division error: it always
    answers.  [avg_fuel_efficiency] is [total_distance /
    total_fuel_consumed] when [total_fuel_consumed > 0] and 0 otherwise,
    and a window without matching completed trips gives 0 for it and for
    every total. *)
Theorem analytics_zero_guard float_of_string dateparse strftime ObjectId
  oid_str days truck_id driver_id region utcnow all_trips all_trucks :
  let start_date := utcnow - timedelta_days days in
  let completed :=
    completed_trips region
      (filter (trip_filter ObjectId start_date utcnow truck_id driver_id)
              all_trips) in
  exists tot p,
    totals float_of_string completed = Some tot
    /\ get_analytics float_of_string dateparse strftime ObjectId oid_str
         days truck_id driver_id region utcnow all_trips all_trucks = Some p
    /\ summary p
       = mkSummary (l_total_trips tot) (l_total_revenue tot)
           (l_total_distance tot) (round2 (l_avg_fuel_efficiency tot))
    /\ l_avg_fuel_efficiency tot
       = (if positive (l_total_fuel_consumed tot)
          then l_total_distance tot / l_total_fuel_consumed tot else 0)%Q
    /\ (completed = [] ->
        tot = mkTotals 0 0 0 0 0 0 0 0 /\ summary p = mkSummary 0 0 0 0).
Proof.
  intros start_date completed.
  destruct (get_analytics_total float_of_string dateparse strftime ObjectId
              oid_str days truck_id driver_id region utcnow all_trips all_trucks)
    as (tot & p & Et & G & Sm & _).
  fold start_date completed in Et.
  exists tot, p. repeat split; try assumption.
  - destruct (totals_total float_of_string completed) as (t' & Et' & H).
    rewrite Et in Et'. injection Et' as <-. apply H.
  - rewrite H in Et. cbn in Et. now injection Et as <-.
  - rewrite Sm. rewrite H in Et. cbn in Et. now injection Et as <-.
Qed.

(** *** Concrete windows *)

(** A two-day window with one completed trip on the newer day: the newer
    day comes first in the series. *)
Lemma profit_trends_start_with_newest_day :
  exists p,
    get_analytics no_float no_dateparse raw_strftime decimal raw_oid_str
      2 "" "" "" (timedelta_days 10) [sample_trip] [sample_truck] = Some p
    /\ map pe_date (profit_trends p)
       = [raw_strftime "%Y-%m-%d" (timedelta_days 9);
          raw_strftime "%Y-%m-%d" (timedelta_days 8)]
    /\ map pe_profit (profit_trends p) = [50%Q; 0%Q].
Proof. eexists. split; [vm_compute; reflexivity|]. split; reflexivity. Qed.

Lemma profit_trends_newest_first_witness :
  exists p,
    get_analytics no_float no_dateparse raw_strftime decimal raw_oid_str
      2 "" "" "" (timedelta_days 10) [sample_trip] [sample_truck] = Some p
    /\ List.length (profit_trends p) = 2%nat.
Proof.
  eexists. split; [vm_compute; reflexivity|].
  apply (profit_trends_newest_first no_float no_dateparse raw_strftime
           decimal raw_oid_str 2 "" "" "" (timedelta_days 10)
           [sample_trip] [sample_truck]).
  vm_compute. reflexivity.
Defined.

Lemma analytics_zero_guard_witness :
  exists tot p,
    totals no_float [] = Some tot
    /\ get_analytics no_float no_dateparse raw_strftime decimal raw_oid_str
         30 "" "" "" (timedelta_days 100) [] [sample_truck] = Some p
    /\ tot = mkTotals 0 0 0 0 0 0 0 0 /\ summary p = mkSummary 0 0 0 0.
Proof.
  destruct (analytics_zero_guard no_float no_dateparse raw_strftime
              decimal raw_oid_str 30 "" "" "" (timedelta_days 100)
              [] [sample_truck]) as (tot & p & Et & G & _ & _ & Z0).
  exists tot, p. destruct (Z0 eq_refl) as [E1 E2]. auto.
Defined.

End AnalyticsFacts.

(** * Properties of trips and sub-trips *)

Module TripsFacts.
Import Trips.


Section Revenue.

Variable float_of_string : string -> option Q.
Variable fromisoformat : string -> option datetime.
Variable ObjectId : string -> option Z.

Local Abbreviation find_trip := (find_trip ObjectId).
Local Abbreviation update_trip_revenue := (update_trip_revenue ObjectId).



(** The loop of [update_subtrip] ends early with an error reply only. *)
Lemma build_update_doc_rejects data r :
  build_update_doc float_of_string fromisoformat data = inl r ->
  succeeded r = false.
Proof.
  unfold build_update_doc, number_update.
  destruct (date_update _ _ data); [|now intros [= <-]].
  destruct (date_update _ _ data); [|now intros [= <-]].
  destruct (lookup "cargo_weight" data) as [v|].
  - destruct (negative _); [now intros [= <-]|].
    destruct (lookup "cost" data) as [v'|]; [|discriminate].
    destruct (negative _); [now intros [= <-]|discriminate].
  - destruct (lookup "cost" data) as [v'|]; [|discriminate].
    destruct (negative _); [now intros [= <-]|discriminate].
Qed.




End Revenue.

Lemma find_trip_oid ObjectId trip_id db t :
  find_trip ObjectId trip_id db = Some t ->
  exists oid, ObjectId trip_id = Some oid /\ trip_oid t = oid /\ In t (trips db).
Proof.
  unfold find_trip. destruct (ObjectId trip_id) as [o|]; [|discriminate].
  intros F. apply find_some in F as [Hin E]. apply Z.eqb_eq in E. eauto.
Qed.

(** The sum that [update_trip_revenue] computes is the sum of the costs. *)
Lemma sum_costs_total subs : (sum_costs subs == total_cost subs)%Q.
Proof.
  unfold sum_costs.
  assert (H : forall a,
             (fold_left (fun acc sub => acc + or_else (sub_cost sub) 0) subs a
              == a + total_cost subs)%Q).
  { induction subs as [|x l IH]; intros a; cbn [fold_left total_cost].
    - ring.
    - rewrite IH. destruct (sub_cost x); cbn [or_else]; ring. }
  rewrite H. ring.
Qed.

(** When every sub-trip that references a trip is stored under one
    spelling of its [_id], the query by that spelling finds them all. *)
Lemma referencing_same_spelling ObjectId trip_id oid db :
  ObjectId trip_id = Some oid ->
  (forall s, In s (subtrips db) -> references ObjectId oid s = true ->
     sub_trip_id s = trip_id) ->
  subtrips_referencing ObjectId oid db = subtrips_of trip_id db.
Proof.
  intros Ho H. unfold subtrips_referencing, subtrips_of.
  apply filter_ext_in. intros s Hs.
  destruct (String.eqb_spec (sub_trip_id s) trip_id) as [E|E].
  - unfold references. now rewrite E, Ho, Z.eqb_refl.
  - destruct (references ObjectId oid s) eqn:R; [|reflexivity].
    now contradiction (E (H s Hs R)).
Qed.




(** *** Double booking of a driver *)


Lemma existsb_in {A} (p : A -> bool) l x :
  In x l -> p x = true -> existsb p l = true.
Proof. intros. apply existsb_exists. eauto. Qed.

Lemma existsb_none {A} (p : A -> bool) l :
  (forall x, In x l -> p x = false) -> existsb p l = false.
Proof.
  intros H. destruct (existsb p l) eqn:E; [|reflexivity].
  apply existsb_exists in E as (x & Hx & Px). rewrite (H x Hx) in Px.
  discriminate.
Qed.

(** The answer of a written trip is built from its driver. *)
Lemma to_dict_populated_driver ObjectId (t : Trip) ts ss db d :
  find_driver ObjectId (trip_driver_id t) db = Some d ->
  driver_name d <> None ->
  to_dict_populated ObjectId t (mkDB ts ss (employees db)) <> None.
Proof.
  intros F N. unfold to_dict_populated.
  destruct (truthy (trip_driver_id t)); [|discriminate].
  change (find_driver ObjectId (trip_driver_id t) (mkDB ts ss (employees db)))
    with (find_driver ObjectId (trip_driver_id t) db).
  now rewrite F.
Qed.




(** *** Order of the dates of a sub-trip *)

(** A created sub-trip has [date <= end_date]. *)
Lemma create_subtrip_dates_ordered float_of_string fromisoformat ObjectId
  trip_id data db :
  let res := create_subtrip float_of_string fromisoformat ObjectId trip_id data db in
  succeeded (fst res) = true ->
  exists sub,
    subtrips (snd res) = (subtrips db ++ [sub])%list
    /\ sub_date sub <= sub_end_date sub.
Proof.
  cbv zeta. unfold create_subtrip.
  destruct (missing_field _ data); [discriminate|].
  destruct (isoformat _ _) as [d|]; [|discriminate].
  destruct (isoformat _ _) as [e|]; [|discriminate].
  destruct (Z.ltb_spec e d); [discriminate|].
  destruct (find_trip ObjectId trip_id db) as [trip|]; [|discriminate].
  unfold update_trip_revenue.
  destruct (ObjectId trip_id); [|discriminate].
  intros _. cbn [snd subtrips]. eexists. split; [reflexivity|]. cbn. lia.
Qed.

(** An update that supplies both dates, the first after the second, is
    rejected with 400 and writes nothing. *)
Lemma update_subtrip_both_dates_checked float_of_string fromisoformat ObjectId
  trip_id subtrip_id data db u d e :
  build_update_doc float_of_string fromisoformat data = inr u ->
  u_date u = Some d -> u_end_date u = Some e -> e < d ->
  let res := update_subtrip float_of_string fromisoformat ObjectId trip_id
               subtrip_id data db in
  succeeded (fst res) = false /\ snd res = db.
Proof.
  intros B Hd He Hlt. cbv zeta. unfold update_subtrip.
  destruct (own_subtrip _ _ _ _); [|now split].
  destruct (ObjectId subtrip_id); [|now split].
  rewrite B, Hd, He. apply Z.ltb_lt in Hlt. rewrite Hlt. now split.
Qed.

(** C8, at the input on which it fails.  A sub-trip stored with
    [date = 10] and [end_date = 20]; a PUT that supplies [date = 30] alone
    is answered 200 and leaves the stored [date] after the stored
    [end_date]: the test of line 340 runs only when both dates are in the
    body. *)
Theorem update_subtrip_date_alone_unchecked :
  let res := update_subtrip no_float decimal decimal "1" "2"
               [("date", JStr "30")] three_subtrips in
  (exists before,
     find_subtrip decimal "2" three_subtrips = Some before
     /\ sub_date before = 10 /\ sub_end_date before = 20)
  /\ status_code (fst res) = 200
  /\ exists sub,
       find_subtrip decimal "2" (snd res) = Some sub
       /\ sub_date sub = 30 /\ sub_end_date sub = 20.
Proof.
  vm_compute. split; [|split].
  - eexists. split; [reflexivity|]. split; reflexivity.
  - reflexivity.
  - eexists. split; [reflexivity|]. split; reflexivity.
Qed.

(** *** Negative numbers in sub-trips *)




End TripsFacts.

(** * Properties of client payments *)

Module ClientPaymentFacts.
Import ClientPayment.

(** C6 (as amended). For every existing client payment, a PUT that sets
    the status to Received answers 200 and stores the balance
    [cost - advance_payment], except when [advance_payment + balance >=
    cost] (supplied values when present, otherwise stored ones), in which
    case it stores 0.  The difference is not clamped at 0; it is positive,
    hence equal to [max(0, cost - advance_payment)], whenever the balance
    counted is not negative. *)
Theorem received_balance_rule float_of_string ObjectId payment_id data db
  payment st :
  find_payment ObjectId payment_id db = Some payment ->
  lookup "status" data = Some (JStr st) ->
  lower (strip st) = "received" ->
  let cost := or_else (pay_cost payment) 0%Q in
  let advance_payment :=
    supplied_or_stored float_of_string "advance_payment" data
      (pay_advance_payment payment) in
  let balance :=
    supplied_or_stored float_of_string "balance" data (pay_balance payment) in
  let res := update_client_payment float_of_string ObjectId payment_id data db in
  fst res = Ok
  /\ (exists p,
        find_payment ObjectId payment_id (snd res) = Some p
        /\ pay_balance p
           = Some (if Qle_bool cost (advance_payment + balance)
                   then 0 else cost - advance_payment)%Q)
  /\ (Qle_bool cost (advance_payment + balance) = false ->
      (0 <= balance)%Q ->
      (0 < cost - advance_payment)%Q
      /\ max0 (cost - advance_payment) = (cost - advance_payment)%Q).
Proof.
  intros F L R cost advance_payment balance res.
  subst res. unfold update_client_payment. rewrite F.
  assert (Ho : exists o, ObjectId payment_id = Some o).
  { unfold find_payment in F. destruct (ObjectId payment_id); [eauto|discriminate]. }
  destruct Ho as (o & Ho). rewrite Ho, L, R, String.eqb_refl. cbn [fst snd].
  split; [reflexivity|]. split.
  - unfold find_payment in *. rewrite Ho in *.
    eexists. split.
    + apply find_update_first; [|exact F]. intros y Hy. exact Hy.
    + reflexivity.
  - intros C B.
    assert (Hlt : (advance_payment + balance < cost)%Q).
    { apply Qnot_le_lt. intros H. apply Qle_bool_iff in H. congruence. }
    assert (Hpos : (0 < cost - advance_payment)%Q).
    { apply (Qplus_lt_l _ _ advance_payment). ring_simplify.
      apply Qle_lt_trans with (advance_payment + balance)%Q; [|exact Hlt].
      rewrite <- (Qplus_0_r advance_payment) at 1.
      now apply Qplus_le_r. }
    split; [exact Hpos|].
    unfold max0.
    destruct (Qle_bool 0 (cost - advance_payment)) eqn:E; [reflexivity|].
    exfalso. apply Qlt_le_weak in Hpos. apply Qle_bool_iff in Hpos. congruence.
Qed.

(** The examples of the rule: cost 1000 and advance 600, with a stored
    balance of 0 and none supplied, give the balance 400; an advance of
    1000 gives 0. *)
Lemma received_balance_rule_witness :
  (let res := update_client_payment no_float decimal "1"
                [("status", JStr "Received")] [sample_payment 1000 600 0] in
   fst res = Ok
   /\ exists p, find_payment decimal "1" (snd res) = Some p
                /\ pay_balance p = Some 400%Q)
  /\ (let res := update_client_payment no_float decimal "1"
                   [("status", JStr " received ")] [sample_payment 1000 1000 0] in
      fst res = Ok
      /\ exists p, find_payment decimal "1" (snd res) = Some p
                   /\ pay_balance p = Some 0%Q).
Proof.
  split.
  - destruct (received_balance_rule no_float decimal "1"
                [("status", JStr "Received")] [sample_payment 1000 600 0]
                (sample_payment 1000 600 0) "Received")
      as (E & (p & Fp & Bp) & _); try reflexivity.
    split; [exact E|]. exists p. split; [exact Fp|]. rewrite Bp. reflexivity.
  - destruct (received_balance_rule no_float decimal "1"
                [("status", JStr " received ")] [sample_payment 1000 1000 0]
                (sample_payment 1000 1000 0) " received ")
      as (E & (p & Fp & Bp) & _); try reflexivity.
    split; [exact E|]. exists p. split; [exact Fp|]. rewrite Bp. reflexivity.
Defined.

(** An advance above the cost with a negative balance: the balance stored
    is the negative difference, not [max(0, cost - advance_payment)]. *)
Lemma received_balance_not_clamped :
  let res := update_client_payment no_float decimal "1"
               [("status", JStr "Received")]
               [sample_payment 1000 1200 (-500)] in
  fst res = Ok
  /\ map pay_balance (snd res) = [Some (-200)%Q]
  /\ max0 (1000 - 1200) = 0%Q
  /\ ~ ((-200)%Q == max0 (1000 - 1200))%Q.
Proof.
  vm_compute. repeat split. discriminate.
Qed.

(** The stored balance counts when none is supplied: cost 1000, advance 600
    and a stored balance of 400 are a full payment, and the balance
    becomes 0. *)
Lemma received_with_stored_balance :
  let res := update_client_payment no_float decimal "1"
               [("status", JStr "Received")] [sample_payment 1000 600 400] in
  fst res = Ok /\ map pay_balance (snd res) = [Some 0%Q].
Proof. vm_compute. split; reflexivity. Qed.

End ClientPaymentFacts.

(** * Further properties of the alert engine *)

Module AlertsReadFacts.
Import Dashboard DashboardFacts AlertsRead AlertsChecked.

Lemma insert_by_date_in a l x :
  In x (insert_by_date a l) <-> x = a \/ In x l.
Proof.
  induction l as [|b r IH]; cbn [insert_by_date].
  - cbn. intuition auto.
  - destruct (a_alert_date a <=? a_alert_date b); cbn [In].
    + intuition auto.
    + rewrite IH. intuition auto.
Qed.

Lemma sort_by_date_in l x : In x (sort_by_date l) <-> In x l.
Proof.
  induction l as [|a l IH]; cbn [sort_by_date fold_right]; [reflexivity|].
  fold (sort_by_date l). rewrite insert_by_date_in, IH. cbn. intuition auto.
Qed.

Lemma insert_by_date_sorted a l :
  StronglySorted by_date l -> StronglySorted by_date (insert_by_date a l).
Proof.
  induction l as [|b r IH]; cbn [insert_by_date]; intros S.
  - repeat constructor.
  - inversion S as [|? ? Sr Fb]; subst.
    destruct (Z.leb_spec (a_alert_date a) (a_alert_date b)).
    + constructor; [exact S|]. constructor; [exact H|].
      eapply Forall_impl; [|exact Fb]. unfold by_date. intros; lia.
    + constructor; [now apply IH|].
      apply Forall_forall. intros x Hx. apply insert_by_date_in in Hx.
      destruct Hx as [->|Hx]; [unfold by_date; lia|].
      now apply (proj1 (Forall_forall _ _) Fb).
Qed.

Lemma sort_by_date_sorted l : StronglySorted by_date (sort_by_date l).
Proof.
  induction l as [|a l IH]; cbn [sort_by_date fold_right]; [constructor|].
  now apply insert_by_date_sorted.
Qed.

Lemma in_firstn {A} n (l : list A) x : In x (firstn n l) -> In x l.
Proof.
  revert l. induction n as [|n IH]; intros l; cbn [firstn]; [contradiction|].
  destruct l as [|a l]; [contradiction|]. cbn [In]. intuition auto.
Qed.

Lemma firstn_sorted {A} (R : A -> A -> Prop) n l :
  StronglySorted R l -> StronglySorted R (firstn n l).
Proof.
  revert l. induction n as [|n IH]; intros l S; cbn [firstn]; [constructor|].
  destruct l as [|a l]; [constructor|].
  inversion S as [|? ? Sl Fa]; subst. constructor; [now apply IH|].
  apply Forall_forall. intros x Hx. apply in_firstn in Hx.
  now apply (proj1 (Forall_forall _ _) Fa).
Qed.

Lemma filter_sorted {A} (R : A -> A -> Prop) p l :
  StronglySorted R l -> StronglySorted R (filter p l).
Proof.
  induction l as [|a l IH]; intros S; cbn [filter]; [constructor|].
  inversion S as [|? ? Sl Fa]; subst.
  destruct (p a); [|now apply IH].
  constructor; [now apply IH|].
  apply Forall_forall. intros x Hx. apply filter_In in Hx as [Hx _].
  now apply (proj1 (Forall_forall _ _) Fa).
Qed.

Lemma existsb_eqb_in i l : existsb (Z.eqb i) l = true -> In i l.
Proof.
  intros H. apply existsb_exists in H as (j & Hj & E).
  apply Z.eqb_eq in E. now subst.
Qed.

(** X1. [GET /dashboard/alerts] shows at most 10 alerts, the views of
    alerts that are Active in the collection after the reconciliation, in
    ascending order of [alert_date], and every truck or employee that one
    of them names is an Active one. *)
Theorem get_alerts_shows_active_owned_sorted dateparse strftime isoformat
  oid_str k employees trucks c :
  let res := get_alerts dateparse strftime isoformat oid_str k employees trucks c in
  exists shown,
    fst res = map (to_view dateparse strftime isoformat oid_str) shown
    /\ (List.length shown <= 10)%nat
    /\ StronglySorted by_date shown
    /\ forall a, In a shown ->
         In a (docs (snd res)) /\ a_status a = "Active"
         /\ (forall i, a_truck_id a = Some i ->
               exists t, In t trucks /\ t_id t = i /\ t_status t = "Active")
         /\ (forall i, a_employee_id a = Some i ->
               exists e, In e employees /\ e_id e = i /\ e_status e = "Active").
Proof.
  cbv zeta. unfold get_alerts. cbn [fst snd].
  set (c' := reconcile_alerts dateparse strftime k employees trucks c).
  exists (firstn 10 (listed_alerts employees trucks c')).
  split; [now rewrite firstn_map|].
  split; [apply firstn_le_length|].
  split.
  - apply firstn_sorted, filter_sorted, firstn_sorted, sort_by_date_sorted.
  - intros a Ha. apply in_firstn in Ha. unfold listed_alerts in Ha.
    apply filter_In in Ha as [Ha Ho]. apply in_firstn in Ha.
    apply (proj1 (sort_by_date_in _ _)) in Ha. unfold active_alerts in Ha.
    apply filter_In in Ha as [Ha Hs]. apply String.eqb_eq in Hs.
    apply negb_true_iff in Ho. unfold orphan in Ho.
    apply orb_false_iff in Ho as [Ht He].
    repeat split; try assumption.
    + intros i Hi. rewrite Hi in Ht. apply negb_false_iff in Ht.
      apply existsb_eqb_in, in_map_iff in Ht as (t & E & Hin).
      apply filter_In in Hin as [Hin Hst]. apply String.eqb_eq in Hst.
      now exists t.
    + intros i Hi. rewrite Hi in He. apply negb_false_iff in He.
      apply existsb_eqb_in, in_map_iff in He as (e & E & Hin).
      apply filter_In in Hin as [Hin Hst]. apply String.eqb_eq in Hst.
      now exists e.
Qed.

Lemma count_zero_none q l a : count q l = 0%nat -> In a l -> q a = false.
Proof.
  intros Hz Ha. apply count_zero_find in Hz.
  destruct (q a) eqn:E; [|reflexivity].
  destruct (find_none _ _ Hz a Ha). now rewrite E.
Qed.

Section Engine.

Variable dateparse : string -> option datetime.
Variable strftime : string -> datetime -> string.

Local Abbreviation reconcile_alerts := (reconcile_alerts dateparse strftime).

(** After a reconciliation the alerts of an Inactive employee or truck are
    all Inactive. *)
Lemma inactive_owner_counts k employees trucks c :
  NoDup (map e_id employees) -> NoDup (map t_id trucks) ->
  let c' := reconcile_alerts k employees trucks c in
  (forall e, In e employees -> e_status e = "Inactive" ->
     count (q_owner_active OwnerEmployee (e_id e)) (docs c') = 0%nat)
  /\ (forall t, In t trucks -> t_status t = "Inactive" ->
     count (q_owner_active OwnerTruck (t_id t)) (docs c') = 0%nat).
Proof.
  intros Ne Nt. cbv zeta.
  unfold Dashboard.reconcile_alerts, check_and_create_permit_expiry_alerts,
    check_and_create_fc_expiry_alerts, check_and_create_insurance_expiry_alerts,
    check_and_create_license_expiry_alerts.
  fold (employee_subjects employees).
  fold (truck_subjects t_insurance_expiry trucks).
  fold (truck_subjects t_fc_expiry trucks).
  fold (truck_subjects t_permit_expiry trucks).
  set (cA := remove_inactive_employee_alerts employees c).
  set (cB := remove_inactive_truck_alerts trucks cA).
  set (cL := reconcile_pass dateparse strftime license_monitor _ _ cB).
  set (cI := reconcile_pass dateparse strftime insurance_monitor _ _ cL).
  set (cF := reconcile_pass dateparse strftime fc_monitor _ _ cI).
  set (cP := reconcile_pass dateparse strftime permit_monitor _ _ cF).
  split.
  - intros e He Hs.
    set (q := q_owner_active OwnerEmployee (e_id e)).
    assert (Hq : active_filter q) by apply q_owner_active_filter.
    assert (ZA : count q (docs cA) = 0%nat).
    { apply (fold_update_many_zero
               (fun emp => q_owner_active OwnerEmployee (e_id emp))).
      - intros. apply q_owner_active_filter.
      - apply filter_In. split; [assumption|]. now apply String.eqb_eq. }
    assert (ZB : (count q (docs cB) <= count q (docs cA))%nat)
      by now apply fold_update_many_le.
    assert (ZL : (count q (docs cL) <= count q (docs cB))%nat).
    { apply pass_le; [assumption|]. intros sub Hsub j ex d.
      apply q_owner_active_new_alert. right.
      now apply (inactive_employee_not_subject employees). }
    assert (ZI : (count q (docs cI) <= count q (docs cL))%nat).
    { apply pass_le; [assumption|]. intros sub Hsub j ex d.
      apply q_owner_active_new_alert. left. discriminate. }
    assert (ZF : (count q (docs cF) <= count q (docs cI))%nat).
    { apply pass_le; [assumption|]. intros sub Hsub j ex d.
      apply q_owner_active_new_alert. left. discriminate. }
    assert (ZP : (count q (docs cP) <= count q (docs cF))%nat).
    { apply pass_le; [assumption|]. intros sub Hsub j ex d.
      apply q_owner_active_new_alert. left. discriminate. }
    lia.
  - intros t Ht Hs.
    set (q := q_owner_active OwnerTruck (t_id t)).
    assert (Hq : active_filter q) by apply q_owner_active_filter.
    assert (ZB : count q (docs cB) = 0%nat).
    { apply (fold_update_many_zero
               (fun truck => q_owner_active OwnerTruck (t_id truck))).
      - intros. apply q_owner_active_filter.
      - apply filter_In. split; [assumption|]. now apply String.eqb_eq. }
    assert (ZL : (count q (docs cL) <= count q (docs cB))%nat).
    { apply pass_le; [assumption|]. intros sub Hsub j ex d.
      apply q_owner_active_new_alert. left. discriminate. }
    assert (ZI : (count q (docs cI) <= count q (docs cL))%nat).
    { apply pass_le; [assumption|]. intros sub Hsub j ex d.
      apply q_owner_active_new_alert. right.
      now apply (inactive_truck_not_subject t_insurance_expiry trucks). }
    assert (ZF : (count q (docs cF) <= count q (docs cI))%nat).
    { apply pass_le; [assumption|]. intros sub Hsub j ex d.
      apply q_owner_active_new_alert. right.
      now apply (inactive_truck_not_subject t_fc_expiry trucks). }
    assert (ZP : (count q (docs cP) <= count q (docs cF))%nat).
    { apply pass_le; [assumption|]. intros sub Hsub j ex d.
      apply q_owner_active_new_alert. right.
      now apply (inactive_truck_not_subject t_permit_expiry trucks). }
    lia.
Qed.

End Engine.

(** X2. After a reconciliation no Active alert names an employee or a truck
    whose status is Inactive (employees and trucks having unique
    [_id]s). *)
Theorem no_active_alert_of_inactive_owner dateparse strftime k employees trucks c a :
  NoDup (map e_id employees) -> NoDup (map t_id trucks) ->
  In a (docs (reconcile_alerts dateparse strftime k employees trucks c)) ->
  a_status a = "Active" ->
  (forall e, In e employees -> e_status e = "Inactive" ->
     a_employee_id a <> Some (e_id e))
  /\ (forall t, In t trucks -> t_status t = "Inactive" ->
     a_truck_id a <> Some (t_id t)).
Proof.
  intros Ne Nt Ha Hs.
  destruct (inactive_owner_counts dateparse strftime k employees trucks c Ne Nt)
    as [ZE ZT].
  split.
  - intros e He Hi E.
    assert (Q := count_zero_none _ _ a (ZE e He Hi) Ha).
    unfold q_owner_active, owner_is in Q. rewrite E, Hs in Q. cbn in Q.
    now rewrite Z.eqb_refl in Q.
  - intros t Ht Hi E.
    assert (Q := count_zero_none _ _ a (ZT t Ht Hi) Ha).
    unfold q_owner_active, owner_is in Q. rewrite E, Hs in Q. cbn in Q.
    now rewrite Z.eqb_refl in Q.
Qed.

Lemma no_active_alert_of_inactive_owner_witness :
  Forall (fun a => a_status a = "Active" -> a_employee_id a <> Some 2)
    (docs (reconcile_alerts no_dateparse raw_strftime (sample_clock 1000)
             [sample_employee 500; former_employee] [sample_truck]
             (reconcile_alerts no_dateparse raw_strftime (sample_clock 100)
                [sample_employee 500;
                 mkEmployee 2 "Active" (DDatetime 500) (Some "E-2") "Ravi" "Nair"]
                [sample_truck] empty_alerts))).
Proof.
  apply Forall_forall. intros a Ha Hs.
  refine (proj1 (no_active_alert_of_inactive_owner no_dateparse raw_strftime
                   (sample_clock 1000) [sample_employee 500; former_employee]
                   [sample_truck] _ a _ _ Ha Hs) former_employee _ _).
  - repeat constructor; cbn; intuition discriminate.
  - repeat constructor; cbn; intuition discriminate.
  - right. left. reflexivity.
  - reflexivity.
Defined.

Lemma settled_match m b sub c :
  at_most_one_active c -> settled m b sub c -> alerts_match m b sub c.
Proof.
  intros A. unfold settled, alerts_match.
  assert (As := A (m_owner m) (s_id sub) (m_soon_type m)).
  assert (Ae := A (m_owner m) (s_id sub) (m_expired_type m)).
  unfold active_count in As, Ae. fold (count (q_active (m_owner m) (s_id sub)
    (m_soon_type m)) (docs c)) in As. fold (count (q_active (m_owner m)
    (s_id sub) (m_expired_type m)) (docs c)) in Ae.
  destruct b; intuition lia.
Qed.

(** After a reconciliation that no exception stops, every subject has the
    alerts of its branch. *)
Lemma reconcile_alerts_settles dateparse strftime k employees trucks c m r subs sub :
  unique_ids c -> at_most_one_active c ->
  NoDup (map e_id employees) -> NoDup (map t_id trucks) ->
  In (m, r, subs) (passes k employees trucks) -> In sub subs ->
  alerts_match m (due_at dateparse r sub) sub
    (reconcile_alerts dateparse strftime k employees trucks c).
Proof.
  intros N A Ne Nt Hp Hs.
  assert (A' := reconcile_alerts_invariant dateparse strftime k employees trucks c A).
  destruct (reconcile_alerts_reconciled dateparse strftime k employees trucks c
              N A Ne Nt) as (_ & _ & RL & RI & RF & RP).
  apply settled_match; [exact A'|].
  unfold passes in Hp.
  destruct Hp as [E|[E|[E|[E|[]]]]]; injection E as <- <- <-; auto.
Qed.

(** A pass that ends normally met no date with an offset, and did what
    the loop over [reconcile_one] does. *)
Lemma pass_loop_done parse strftime m soon now subs c c' :
  pass_loop parse strftime m soon now subs c = Done c' ->
  c' = fold_left (reconcile_one (naive_parse parse) strftime m soon now) subs c
  /\ forall sub, In sub subs -> comparison_raises parse sub = false.
Proof.
  revert c. induction subs as [|x l IH]; intros c; cbn [pass_loop fold_left].
  - intros [= <-]. split; [reflexivity|intros ? []].
  - destruct (comparison_raises parse x) eqn:E; [discriminate|].
    intros H. destruct (IH _ H) as [-> Hl]. split; [reflexivity|].
    intros sub [<-|Hs]; auto.
Qed.

(** A pass over subjects without such a date ends normally. *)
Lemma pass_loop_completes parse strftime m soon now subs c :
  (forall sub, In sub subs -> comparison_raises parse sub = false) ->
  pass_loop parse strftime m soon now subs c
  = Done (fold_left (reconcile_one (naive_parse parse) strftime m soon now) subs c).
Proof.
  revert c. induction subs as [|x l IH]; intros c H; cbn [pass_loop fold_left].
  - reflexivity.
  - rewrite (H x (or_introl eq_refl)). apply IH. intros sub Hs. apply H. now right.
Qed.

(** X3. A reconciliation ends normally exactly when no monitored date of
    an Active employee or truck is a string that parses to a date with a
    UTC offset (the comparison with [now] raises on such a date, and
    [get_alerts] answers 500).  When it ends normally, from a collection
    that satisfies the invariants, every Active employee and truck has, for
    each monitored date, the alerts of its branch and no other: exactly one
    Active expired alert and no expiring-soon alert when the date has
    passed, exactly one Active expiring-soon alert and no expired alert
    within the 30 days, neither when the date is further away, and no
    expiring-soon alert when there is no date. *)
Theorem reconcile_alerts_exact parse strftime k employees trucks c :
  unique_ids c -> at_most_one_active c ->
  NoDup (map e_id employees) -> NoDup (map t_id trucks) ->
  let no_offset :=
    forall m r subs sub,
      In (m, r, subs) (passes k employees trucks) -> In sub subs ->
      comparison_raises parse sub = false in
  (no_offset ->
   exists c', reconcile_alerts_checked parse strftime k employees trucks c
              = Done c')
  /\ forall c',
       reconcile_alerts_checked parse strftime k employees trucks c = Done c' ->
       no_offset
       /\ forall m r subs sub,
            In (m, r, subs) (passes k employees trucks) -> In sub subs ->
            alerts_match m (due_at (naive_parse parse) r sub) sub c'.
Proof.
  intros N A Ne Nt. cbv zeta. unfold reconcile_alerts_checked, passes.
  unfold reconcile_pass_checked. split.
  - intros H.
    rewrite pass_loop_completes
      by (intros sub Hs; eapply H; [left; reflexivity|exact Hs]).
    cbn [and_then].
    rewrite pass_loop_completes
      by (intros sub Hs; eapply H; [right; left; reflexivity|exact Hs]).
    cbn [and_then].
    rewrite pass_loop_completes
      by (intros sub Hs; eapply H; [right; right; left; reflexivity|exact Hs]).
    cbn [and_then].
    rewrite pass_loop_completes
      by (intros sub Hs; eapply H;
            [right; right; right; left; reflexivity|exact Hs]).
    eauto.
  - intros c'.
    destruct (pass_loop parse strftime license_monitor _ _ _ _) as [cL|] eqn:PL;
      [|discriminate].
    cbn [and_then].
    destruct (pass_loop parse strftime insurance_monitor _ _ _ _) as [cI|] eqn:PI;
      [|discriminate].
    cbn [and_then].
    destruct (pass_loop parse strftime fc_monitor _ _ _ _) as [cF|] eqn:PF;
      [|discriminate].
    cbn [and_then]. intros PP.
    apply pass_loop_done in PL as [-> RL]. apply pass_loop_done in PI as [-> RI].
    apply pass_loop_done in PF as [-> RF]. apply pass_loop_done in PP as [-> RP].
    split.
    + intros m r subs sub [E|[E|[E|[E|[]]]]] Hs; injection E as <- <- <-; auto.
    + intros m r subs sub Hp Hs.
      apply (reconcile_alerts_settles (naive_parse parse) strftime k employees
               trucks c m r subs sub N A Ne Nt Hp Hs).
Qed.

Lemma reconcile_alerts_exact_witness :
  alerts_match license_monitor Expired (subject_of_employee (sample_employee 500))
    (reconcile_alerts (naive_parse sample_parse) raw_strftime (sample_clock 1000)
       [sample_employee 500] [sample_truck] empty_alerts)
  /\ comparison_raises sample_parse (subject_of_employee zoned_employee) = true
  /\ exists c,
       reconcile_alerts_checked sample_parse raw_strftime (sample_clock 1000)
         [zoned_employee; sample_employee 500] [sample_truck] empty_alerts
       = Raised c.
Proof.
  split; [|split; [reflexivity|eexists; vm_compute; reflexivity]].
  destruct (reconcile_alerts_exact sample_parse raw_strftime (sample_clock 1000)
              [sample_employee 500] [sample_truck] empty_alerts) as (_ & H).
  - constructor.
  - exact empty_alerts_invariant.
  - repeat constructor. intros [].
  - repeat constructor. intros [].
  - destruct (H (reconcile_alerts (naive_parse sample_parse) raw_strftime
                   (sample_clock 1000) [sample_employee 500] [sample_truck]
                   empty_alerts)) as (_ & M); [vm_compute; reflexivity|].
    apply (M license_monitor (k_license (sample_clock 1000))
             (employee_subjects [sample_employee 500])
             (subject_of_employee (sample_employee 500))).
    + left. reflexivity.
    + left. reflexivity.
Defined.

(** X4. An entity without a configured (or parsable) expiry date loses its
    Active expiring-soon alert and keeps its expired alert as it is: the
    iteration never deactivates an expired alert of an entity whose date
    was removed. *)
Theorem undated_keeps_expired_alert dateparse strftime m soon now c sub :
  In m monitors ->
  resolve_expiry dateparse (s_expiry sub) = None ->
  unique_ids c -> at_most_one_active c ->
  let c' := reconcile_one dateparse strftime m soon now c sub in
  has_active (m_owner m) (s_id sub) (m_soon_type m) c' = false
  /\ has_active (m_owner m) (s_id sub) (m_expired_type m) c'
     = has_active (m_owner m) (s_id sub) (m_expired_type m) c.
Proof.
  intros Hm He N A c'. subst c'. unfold reconcile_one. rewrite He.
  assert (T := monitors_types_differ m Hm).
  rewrite !has_active_count.
  rewrite count_deactivate_existing_self by (auto using q_active_filter).
  rewrite count_deactivate_existing_frame
    by (auto using q_active_filter, q_active_disjoint_type).
  split; [|reflexivity].
  assert (As := A (m_owner m) (s_id sub) (m_soon_type m)).
  unfold active_count in As.
  fold (count (q_active (m_owner m) (s_id sub) (m_soon_type m)) (docs c)) in As.
  destruct (count _ (docs c)) as [|[|n]]; [reflexivity|reflexivity|lia].
Qed.

Lemma undated_keeps_expired_alert_witness :
  let c := reconcile_alerts no_dateparse raw_strftime (sample_clock 1000)
             [sample_employee 500] [] empty_alerts in
  let c' := reconcile_one no_dateparse raw_strftime license_monitor 2000 1000 c
              (subject_of_employee undated_employee) in
  has_active OwnerEmployee 1 "license_expiry" c' = false
  /\ has_active OwnerEmployee 1 "license_expired" c' = true.
Proof.
  intros c c'.
  destruct (undated_keeps_expired_alert no_dateparse raw_strftime
              license_monitor 2000 1000 c (subject_of_employee undated_employee))
    as [H1 H2].
  - left. reflexivity.
  - reflexivity.
  - unfold unique_ids. vm_compute. repeat constructor. intros [].
  - apply reconcile_alerts_invariant. exact empty_alerts_invariant.
  - split; [exact H1|]. etransitivity; [exact H2|]. vm_compute. reflexivity.
Defined.

End AlertsReadFacts.

(** * Further properties of the analytics aggregator *)

Module AnalyticsMoreFacts.
Import Analytics AnalyticsFacts Orders.

Lemma reversed_range_bounds days i :
  In i (reversed_range days) -> 0 <= i < days.
Proof.
  unfold reversed_range. rewrite <- in_rev, in_map_iff.
  intros (n & <- & Hn). apply in_seq in Hn. lia.
Qed.

Section Window.

Variable float_of_string : string -> option Q.
Variable dateparse : string -> option datetime.
Variable strftime : string -> datetime -> string.
Variable ObjectId : string -> option Z.
Variable oid_str : Z -> string.

Local Abbreviation get_analytics :=
  (get_analytics float_of_string dateparse strftime ObjectId oid_str).

(** Trips that the store query or the status test rejects do not reach the
    list of completed trips. *)
Lemma completed_trips_skip start_date end_date truck_id driver_id region l1 t l2 :
  trip_filter ObjectId start_date end_date truck_id driver_id t = false
  \/ is_completed t = false ->
  completed_trips region
    (filter (trip_filter ObjectId start_date end_date truck_id driver_id)
            (l1 ++ t :: l2))
  = completed_trips region
      (filter (trip_filter ObjectId start_date end_date truck_id driver_id)
              (l1 ++ l2)).
Proof.
  intros H.
  assert (E : filter is_completed
                (filter (trip_filter ObjectId start_date end_date truck_id
                           driver_id) (l1 ++ t :: l2))
              = filter is_completed
                  (filter (trip_filter ObjectId start_date end_date truck_id
                             driver_id) (l1 ++ l2))).
  { rewrite !filter_app. cbn [filter].
    destruct (trip_filter ObjectId start_date end_date truck_id driver_id t) eqn:F;
      [|reflexivity].
    destruct H as [H|H]; [discriminate|].
    cbn [filter]. now rewrite H. }
  unfold completed_trips. now rewrite E.
Qed.

End Window.

(** X5. Only completed trips of the window count: a trip that is not
    Completed, or whose [start_date] is not a date within
    [[utcnow - days, utcnow]], or that another truck or driver than the one
    asked for made, changes nothing in the analytics answer. *)
Theorem analytics_ignores_other_trips float_of_string dateparse strftime
  ObjectId oid_str days truck_id driver_id region utcnow l1 t l2 all_trucks :
  trip_filter ObjectId (utcnow - timedelta_days days) utcnow truck_id driver_id t
  = false
  \/ is_completed t = false ->
  get_analytics float_of_string dateparse strftime ObjectId oid_str
    days truck_id driver_id region utcnow (l1 ++ t :: l2) all_trucks
  = get_analytics float_of_string dateparse strftime ObjectId oid_str
      days truck_id driver_id region utcnow (l1 ++ l2) all_trucks.
Proof.
  intros H. unfold get_analytics.
  now rewrite (completed_trips_skip ObjectId _ _ _ _ region l1 t l2 H).
Qed.

Lemma analytics_ignores_other_trips_witness :
  get_analytics no_float no_dateparse raw_strftime decimal raw_oid_str
    2 "" "" "" (timedelta_days 10)
    ([sample_trip]
     ++ mkTrip (IdStr "7") (IdStr "d1") (DDatetime (timedelta_days 9))
               (Some "Planned") None (NNum 50) (NNum 900) (NNum 10) (NNum 4)
               (NNum 5)
     :: [])
    [sample_truck]
  = get_analytics no_float no_dateparse raw_strftime decimal raw_oid_str
      2 "" "" "" (timedelta_days 10) ([sample_trip] ++ []) [sample_truck].
Proof.
  apply (analytics_ignores_other_trips no_float no_dateparse raw_strftime
           decimal raw_oid_str 2 "" "" "" (timedelta_days 10) [sample_trip]).
  right. reflexivity.
Defined.

(** X6. The window is closed at its end and the days of the series are
    half-open: a completed trip that starts exactly at [utcnow] is counted
    by the summary and belongs to no day of [profit_trends] or
    [fuel_efficiency]. *)
Theorem trip_at_window_end_in_no_day dateparse ObjectId days utcnow region
  all_trips trip :
  0 <= days ->
  In trip all_trips ->
  trip_start_date trip = DDatetime utcnow ->
  is_completed trip = true ->
  (truthy_str region = true -> in_region region trip = true) ->
  let start_date := utcnow - timedelta_days days in
  let completed :=
    completed_trips region
      (filter (trip_filter ObjectId start_date utcnow "" "") all_trips) in
  In trip completed
  /\ forall i, In i (reversed_range days) ->
       ~ In trip (filter (in_day dateparse (start_date + timedelta_days i))
                         completed).
Proof.
  intros Hd Hin Hs Hc Hr start_date completed. split.
  - subst completed. unfold completed_trips.
    assert (In trip (filter is_completed
                       (filter (trip_filter ObjectId start_date utcnow "" "")
                               all_trips))).
    { apply filter_In. split; [|exact Hc]. apply filter_In. split; [exact Hin|].
      unfold trip_filter. rewrite Hs. cbn [truthy_str andb].
      rewrite !andb_true_r. apply andb_true_intro.
      split; apply Z.leb_le; subst start_date; unfold timedelta_days; lia. }
    destruct (truthy_str region) eqn:T; [|assumption].
    apply filter_In. auto.
  - intros i Hi Hday. apply filter_In in Hday as [_ Hday].
    apply reversed_range_bounds in Hi.
    unfold in_day, parsed_start_date in Hday. rewrite Hs in Hday.
    apply andb_prop in Hday as [_ Hlt]. apply Z.ltb_lt in Hlt.
    subst start_date. unfold timedelta_days in *. lia.
Qed.

Lemma trip_at_window_end_in_no_day_witness :
  let trip := mkTrip (IdStr "7") (IdStr "d1") (DDatetime (timedelta_days 10))
                (Some "Completed") None (NNum 1) (NNum 1) (NNum 1) (NNum 1)
                (NNum 1) in
  let completed :=
    completed_trips ""
      (filter (trip_filter decimal (timedelta_days 10 - timedelta_days 2)
                 (timedelta_days 10) "" "") [trip]) in
  In trip completed
  /\ forall i, In i (reversed_range 2) ->
       ~ In trip
           (filter (in_day no_dateparse
                      (timedelta_days 10 - timedelta_days 2 + timedelta_days i))
                   completed).
Proof.
  intros trip.
  apply (trip_at_window_end_in_no_day no_dateparse decimal 2 (timedelta_days 10)
           "" [trip] trip).
  - lia.
  - left. reflexivity.
  - reflexivity.
  - reflexivity.
  - discriminate.
Defined.

(** *** The five best trucks *)

Lemma positive_lt x y : positive (y - x) = true -> (x < y)%Q.
Proof.
  unfold positive. intros H. apply negb_true_iff in H.
  apply Qnot_le_lt. intros L.
  assert (Qle_bool (y - x) 0 = true) by (apply Qle_bool_iff; lra).
  congruence.
Qed.

Lemma not_positive_le x y : positive (y - x) = false -> (y <= x)%Q.
Proof.
  unfold positive. intros H. apply negb_false_iff, Qle_bool_iff in H. lra.
Qed.

Section Sorting.

Context {A : Type} (key : A -> Q).

Local Abbreviation desc := (desc key).

Lemma insert_desc_in x l y : In y (insert_desc key x l) <-> y = x \/ In y l.
Proof.
  induction l as [|b r IH]; cbn [insert_desc].
  - cbn. intuition auto.
  - destruct (positive (key b - key x)); cbn [In].
    + rewrite IH. intuition auto.
    + intuition auto.
Qed.

Lemma sorted_desc_in l y : In y (sorted_desc key l) <-> In y l.
Proof.
  induction l as [|a l IH]; cbn [sorted_desc fold_right]; [reflexivity|].
  fold (sorted_desc key l). rewrite insert_desc_in, IH. cbn. intuition auto.
Qed.

Lemma insert_desc_sorted x l :
  StronglySorted desc l -> StronglySorted desc (insert_desc key x l).
Proof.
  induction l as [|b r IH]; cbn [insert_desc]; intros S.
  - repeat constructor.
  - inversion S as [|? ? Sr Fb]; subst.
    destruct (positive (key b - key x)) eqn:P.
    + apply positive_lt in P.
      constructor; [now apply IH|].
      apply Forall_forall. intros z Hz. apply insert_desc_in in Hz.
      destruct Hz as [->|Hz]; [unfold desc; lra|].
      now apply (proj1 (Forall_forall _ _) Fb).
    + apply not_positive_le in P.
      constructor; [exact S|]. constructor; [exact P|].
      eapply Forall_impl; [|exact Fb]. unfold desc. intros z Hz. lra.
Qed.

Lemma sorted_desc_sorted l : StronglySorted desc (sorted_desc key l).
Proof.
  induction l as [|a l IH]; cbn [sorted_desc fold_right]; [constructor|].
  now apply insert_desc_sorted.
Qed.

Lemma sorted_split n l a b :
  StronglySorted desc l -> In a (firstn n l) -> In b (skipn n l) -> desc a b.
Proof.
  revert l. induction n as [|n IH]; intros l S; cbn [firstn skipn];
    [contradiction|].
  destruct l as [|x l]; [contradiction|].
  inversion S as [|? ? Sl Fx]; subst. intros [->|Ha] Hb.
  - apply (proj1 (Forall_forall _ _) Fx).
    rewrite <- (firstn_skipn n l). apply in_or_app. now right.
  - now apply (IH l).
Qed.

End Sorting.

Lemma map_opt_in {A B} (f : A -> option B) l ys :
  map_opt f l = Some ys ->
  (forall y, In y ys -> exists x, In x l /\ f x = Some y)
  /\ (forall x, In x l -> exists y, In y ys /\ f x = Some y).
Proof.
  revert ys. induction l as [|a l IH]; cbn [map_opt]; intros ys.
  - intros [= <-]. split; intros ? [].
  - destruct (f a) as [b|] eqn:Fa; [|discriminate].
    destruct (map_opt f l) as [bs|]; [|discriminate].
    intros [= <-]. destruct (IH bs eq_refl) as [I1 I2]. split.
    + intros y [<-|Hy]; [exists a; cbn; auto|].
      destruct (I1 y Hy) as (x & Hx & E). exists x. cbn. auto.
    + intros x [<-|Hx]; [exists b; cbn; auto|].
      destruct (I2 x Hx) as (y & Hy & E). exists y. cbn. auto.
Qed.

(** X7. [high_performing_trucks] holds at most five entries, in descending
    order of profit, each the statistics of an Active truck; and the
    statistics of every Active truck are either listed or of a profit no
    greater than any listed one. *)
Theorem top_trucks_by_profit float_of_string dateparse strftime ObjectId
  oid_str days truck_id driver_id region utcnow all_trips all_trucks p :
  get_analytics float_of_string dateparse strftime ObjectId oid_str
    days truck_id driver_id region utcnow all_trips all_trucks = Some p ->
  let completed :=
    completed_trips region
      (filter (trip_filter ObjectId (utcnow - timedelta_days days) utcnow
                 truck_id driver_id) all_trips) in
  let top := high_performing_trucks p in
  (List.length top <= 5)%nat
  /\ StronglySorted (desc ts_profit) top
  /\ (forall st, In st top ->
        exists truck,
          In truck all_trucks /\ truck_status truck = "Active"
          /\ truck_stat float_of_string oid_str completed truck = Some st)
  /\ (forall truck st,
        In truck all_trucks -> truck_status truck = "Active" ->
        truck_stat float_of_string oid_str completed truck = Some st ->
        In st top \/ forall st', In st' top -> (ts_profit st <= ts_profit st')%Q).
Proof.
  intros G completed top. subst top.
  unfold get_analytics in G. fold completed in G.
  destruct (totals float_of_string completed) as [tot|]; [|discriminate].
  destruct (map_opt (efficiency_entry _ _ _ completed _) _) as [eff|];
    [|discriminate].
  destruct (map_opt (truck_stat float_of_string oid_str completed) _)
    as [stats|] eqn:M; [|discriminate].
  remember (firstn 5 (sorted_desc ts_profit stats)) as top eqn:Et.
  injection G as <-. cbn [high_performing_trucks]. subst top.
  destruct (map_opt_in _ _ _ M) as [I1 I2].
  assert (S := sorted_desc_sorted ts_profit stats).
  split; [apply firstn_le_length|]. split; [|split].
  - apply AlertsReadFacts.firstn_sorted. exact S.
  - intros st Hst. apply AlertsReadFacts.in_firstn, sorted_desc_in in Hst.
    destruct (I1 st Hst) as (truck & Ht & E).
    apply filter_In in Ht as [Ht Ha]. apply String.eqb_eq in Ha.
    exists truck. auto.
  - intros truck st Ht Ha E.
    destruct (I2 truck) as (st0 & Hst0 & E0).
    { apply filter_In. split; [exact Ht|]. now apply String.eqb_eq. }
    rewrite E in E0. injection E0 as <-.
    apply (sorted_desc_in ts_profit) in Hst0.
    rewrite <- (firstn_skipn 5 (sorted_desc ts_profit stats)) in Hst0.
    apply in_app_or in Hst0 as [H|H]; [now left|right].
    intros st' Hst'. apply (sorted_split ts_profit 5 _ st' st S Hst' H).
Qed.

Lemma top_trucks_by_profit_witness :
  exists p,
    get_analytics no_float no_dateparse raw_strftime decimal raw_oid_str
      2 "" "" "" (timedelta_days 10) [sample_trip] [sample_truck] = Some p
    /\ (List.length (high_performing_trucks p) <= 5)%nat.
Proof.
  eexists. split; [vm_compute; reflexivity|].
  apply (top_trucks_by_profit no_float no_dateparse raw_strftime decimal
           raw_oid_str 2 "" "" "" (timedelta_days 10) [sample_trip]
           [sample_truck]).
  vm_compute. reflexivity.
Defined.

Lemma map_opt_map {A B C} (f : A -> option B) (g : B -> C) (h : A -> C) l ys :
  (forall x y, f x = Some y -> g y = h x) ->
  map_opt f l = Some ys -> map g ys = map h l.
Proof.
  intros H. revert ys. induction l as [|a l IH]; cbn [map_opt]; intros ys.
  - now intros [= <-].
  - destruct (f a) as [b|] eqn:Fa; [|discriminate].
    destruct (map_opt f l) as [bs|]; [|discriminate].
    intros [= <-]. cbn [map]. now rewrite (H a b Fa), (IH bs eq_refl).
Qed.

(** X21. The two daily series of an answer are aligned: [profit_trends]
    and [fuel_efficiency] have one entry per day of the window, for the same
    dates in the same order, and [fuel_usage] has one entry per Active
    truck, in the order of the store. *)
Theorem analytics_series_aligned float_of_string dateparse strftime ObjectId
  oid_str days truck_id driver_id region utcnow all_trips all_trucks p :
  get_analytics float_of_string dateparse strftime ObjectId oid_str
    days truck_id driver_id region utcnow all_trips all_trucks = Some p ->
  map pe_date (profit_trends p) = map ee_date (fuel_efficiency p)
  /\ List.length (fuel_efficiency p) = Z.to_nat days
  /\ map fu_truck_number (fuel_usage p)
     = map number_or_unknown
         (filter (fun t => String.eqb (truck_status t) "Active") all_trucks).
Proof.
  intros G. unfold get_analytics in G. cbv zeta in G.
  destruct (totals _ _) as [tot|]; [|discriminate].
  match type of G with
  | match map_opt ?f ?l with _ => _ end = _ =>
      destruct (map_opt f l) as [eff|] eqn:M; [|discriminate]
  end.
  destruct (map_opt _ _) as [stats|] in G; [|discriminate].
  injection G as <-. cbn [profit_trends fuel_efficiency fuel_usage].
  assert (E : map ee_date eff
              = map (fun i => strftime "%Y-%m-%d"
                                (utcnow - timedelta_days days + timedelta_days i))
                    (reversed_range days)).
  { refine (map_opt_map _ _ _ _ _ _ M).
    intros i e. unfold efficiency_entry. cbv zeta.
    destruct (if positive _ then _ else _); [|discriminate].
    now intros [= <-]. }
  split; [|split].
  - rewrite E. unfold profit_trends_of. rewrite map_map. reflexivity.
  - rewrite <- (length_map ee_date), E, length_map.
    apply reversed_range_length.
  - unfold fuel_usage_of. rewrite map_map. reflexivity.
Qed.

Lemma analytics_series_aligned_witness :
  exists p,
    get_analytics no_float no_dateparse raw_strftime decimal raw_oid_str
      2 "" "" "" (timedelta_days 10) [sample_trip] [sample_truck] = Some p
    /\ map pe_date (profit_trends p) = map ee_date (fuel_efficiency p).
Proof.
  eexists. split; [vm_compute; reflexivity|].
  apply (analytics_series_aligned no_float no_dateparse raw_strftime decimal
           raw_oid_str 2 "" "" "" (timedelta_days 10) [sample_trip]
           [sample_truck]).
  vm_compute. reflexivity.
Defined.

End AnalyticsMoreFacts.

(** * Further properties of trips and sub-trips *)

Module TripsMoreFacts.
Import Trips TripsFacts TripsMore.

(** What [create_trip] leaves in the store: the store as it was, or one
    more trip, under a fresh [_id] and the trip number of the body, which
    no trip had. *)
Lemma create_trip_writes float_of_string fromisoformat ObjectId data db :
  let res := create_trip float_of_string fromisoformat ObjectId data db in
  (snd res = db /\ succeeded (fst res) = false)
  \/ (client_error (fst res) = false
      /\ exists b,
           snd res = mkDB (trips db ++ [b]) (subtrips db) (employees db)
           /\ trip_oid b = fresh_oid (map trip_oid (trips db))
           /\ trip_number b = or_else (lookup "trip_number" data) JNull
           /\ forall t, In t (trips db) ->
                json_eqb (trip_number t) (trip_number b) = false).
Proof.
  cbv zeta. unfold create_trip.
  destruct (missing_field _ data); [now left|].
  destruct (existsb _ (trips db)) eqn:U; [now left|].
  destruct (lookup "start_date" data); [|now left].
  destruct (isoformat _ _); [|now left].
  match goal with
  | |- context [match ?x with Some end_date => _ | None => (ServerError, db) end] =>
      destruct x
  end; [|now left].
  destruct (driver_unfit _) as [[|]|]; [now left| |now left].
  match goal with
  | |- context [if existsb ?p ?l then _ else _] => destruct (existsb p l)
  end; [now left|].
  right. cbv zeta.
  match goal with
  | |- context [to_dict_populated ObjectId ?t _] => set (trip_doc := t)
  end.
  assert (W : forall t, In t (trips db) ->
                json_eqb (trip_number t) (trip_number trip_doc) = false).
  { intros t Ht.
    change (trip_number trip_doc) with (or_else (lookup "trip_number" data) JNull).
    destruct (json_eqb _ _) eqn:E; [|reflexivity].
    assert (X := existsb_in
                   (fun t => json_eqb (trip_number t)
                               (or_else (lookup "trip_number" data) JNull))
                   _ t Ht E).
    cbv zeta in U. congruence. }
  destruct (to_dict_populated ObjectId trip_doc _);
    (split; [reflexivity|]); exists trip_doc; repeat split; exact W.
Qed.

(** X8. A trip creation or a trip update that is answered 400 or 404
    writes nothing, and a sub-trip creation that does not succeed writes
    nothing: the store is left as it was. *)
Theorem rejected_request_writes_nothing float_of_string fromisoformat ObjectId
  trip_id data db :
  (client_error (fst (create_trip float_of_string fromisoformat ObjectId data db))
   = true ->
   snd (create_trip float_of_string fromisoformat ObjectId data db) = db)
  /\ (client_error (fst (update_trip float_of_string fromisoformat ObjectId
                           trip_id data db)) = true ->
      snd (update_trip float_of_string fromisoformat ObjectId trip_id data db)
      = db)
  /\ (succeeded (fst (create_subtrip float_of_string fromisoformat ObjectId
                        trip_id data db)) = false ->
      snd (create_subtrip float_of_string fromisoformat ObjectId trip_id data db)
      = db).
Proof.
  split; [|split].
  - intros E.
    destruct (create_trip_writes float_of_string fromisoformat ObjectId data db)
      as [[H _]|[H _]]; [exact H|congruence].
  - unfold update_trip.
    repeat match goal with
    | |- context [match ?x with _ => _ end] => destruct x; try reflexivity
    end.
    all: cbn; discriminate.
  - unfold create_subtrip.
    destruct (missing_field _ data); [reflexivity|].
    destruct (isoformat _ _); [|reflexivity].
    destruct (isoformat _ _); [|reflexivity].
    destruct (_ <? _); [reflexivity|].
    destruct (find_trip ObjectId trip_id db) as [trip|] eqn:F; [|reflexivity].
    destruct (find_trip_oid _ _ _ _ F) as (oid & Ho & _).
    unfold update_trip_revenue. rewrite Ho. cbn. discriminate.
Qed.

Lemma rejected_request_writes_nothing_witness :
  snd (create_trip no_float decimal decimal (trip_body "T-1" "300" "400")
         (sample_db "Planned")) = sample_db "Planned"
  /\ snd (update_trip no_float decimal decimal "9" [] (sample_db "Planned"))
     = sample_db "Planned"
  /\ snd (create_subtrip no_float decimal decimal "1"
            (subtrip_body "20" "10" 1 1) (sample_db "Planned"))
     = sample_db "Planned".
Proof.
  destruct (rejected_request_writes_nothing no_float decimal decimal "1"
              (trip_body "T-1" "300" "400") (sample_db "Planned")) as (H1 & _ & _).
  destruct (rejected_request_writes_nothing no_float decimal decimal "9"
              [] (sample_db "Planned")) as (_ & H2 & _).
  destruct (rejected_request_writes_nothing no_float decimal decimal "1"
              (subtrip_body "20" "10" 1 1) (sample_db "Planned")) as (_ & _ & H3).
  split; [|split].
  - apply H1. reflexivity.
  - apply H2. reflexivity.
  - apply H3. reflexivity.
Defined.

(** X9. After a successful creation or update of a trip, its
    [other_expenses] is the sum of its toll, RTO, driver salary, labour
    charges, AdBlue and extra expense as stored. *)
Theorem other_expenses_is_sum float_of_string fromisoformat ObjectId
  trip_id data db :
  let sum_of t :=
    (trip_toll t + trip_rto t + trip_driver_salary t + trip_labour_charges t
     + trip_adblue t + trip_extra_expense t)%Q in
  (fst (create_trip float_of_string fromisoformat ObjectId data db) = Created ->
   exists b,
     trips (snd (create_trip float_of_string fromisoformat ObjectId data db))
     = (trips db ++ [b])%list
     /\ trip_other_expenses b = sum_of b)
  /\ (fst (update_trip float_of_string fromisoformat ObjectId trip_id data db)
      = Ok ->
      exists t,
        find_trip ObjectId trip_id
          (snd (update_trip float_of_string fromisoformat ObjectId trip_id
                  data db)) = Some t
        /\ trip_other_expenses t = sum_of t).
Proof.
  cbv zeta. split.
  - unfold create_trip.
    repeat match goal with
    | |- context [match ?x with _ => _ end] => destruct x; try discriminate
    end.
    intros _. cbn [snd trips]. eexists. split; reflexivity.
  - unfold update_trip.
    destruct (find_trip ObjectId trip_id db) as [trip|] eqn:F; [|discriminate].
    destruct (find_trip_oid _ _ _ _ F) as (oid & Ho & Eo & _).
    rewrite Ho.
    repeat match goal with
    | |- context [if ?x then _ else _] => destruct x; try discriminate
    | |- context [match effective_date ?a ?b ?c ?d with _ => _ end] =>
        destruct (effective_date a b c d); try discriminate
    | |- context [match driver_unfit ?a with _ => _ end] =>
        destruct (driver_unfit a) as [[|]|]; try discriminate
    end.
    intros _. cbn [snd]. unfold find_trip in *. rewrite Ho in *. cbn [trips].
    eexists. split.
    + apply find_update_first; [|exact F].
      intros y Hy. cbn [trip_oid]. rewrite Eo. apply Z.eqb_refl.
    + reflexivity.
Qed.

Lemma other_expenses_is_sum_witness :
  exists t,
    find_trip decimal "1"
      (snd (update_trip no_float decimal decimal "1"
              [("toll", JNum 40); ("adblue", JStr "n/a")] (sample_db "Planned")))
    = Some t
    /\ trip_other_expenses t
       = (trip_toll t + trip_rto t + trip_driver_salary t
          + trip_labour_charges t + trip_adblue t + trip_extra_expense t)%Q.
Proof.
  destruct (other_expenses_is_sum no_float decimal decimal "1"
              [("toll", JNum 40); ("adblue", JStr "n/a")] (sample_db "Planned"))
    as (_ & H).
  apply H. reflexivity.
Defined.

(** X10. [DELETE /trips/{id}] never removes a document: an existing trip
    is kept with the status Cancelled and its other fields as they were,
    and from then on it matches no driver-conflict query; an unknown id is
    answered 404 with nothing written. *)
Theorem delete_trip_cancels ObjectId trip_id db :
  let res := delete_trip ObjectId trip_id db in
  (find_trip ObjectId trip_id db = None ->
   status_code (fst res) = 404 /\ snd res = db)
  /\ (forall trip,
        find_trip ObjectId trip_id db = Some trip ->
        fst res = Ok
        /\ List.length (trips (snd res)) = List.length (trips db)
        /\ subtrips (snd res) = subtrips db
        /\ find_trip ObjectId trip_id (snd res)
           = Some (set_trip_status (JStr "Cancelled") trip)
        /\ forall driver_id start_date end_date,
             driver_conflict_query driver_id start_date end_date
               (set_trip_status (JStr "Cancelled") trip) = false).
Proof.
  cbv zeta. unfold delete_trip. split.
  - intros ->. now split.
  - intros trip F. rewrite F.
    destruct (find_trip_oid _ _ _ _ F) as (oid & Ho & Eo & _). rewrite Ho.
    cbn [fst snd trips subtrips]. repeat split.
    + clear. induction (trips db) as [|x l IH]; [reflexivity|].
      cbn [update_first]. destruct (trip_oid x =? oid); cbn; auto.
    + unfold find_trip in *. rewrite Ho in *. cbn [trips].
      apply find_update_first; [|exact F]. intros y Hy. exact Hy.
    + intros d s e. unfold driver_conflict_query. cbn [trip_status set_trip_status
        is_cancelled]. cbn. now rewrite andb_false_r.
Qed.

Lemma delete_trip_cancels_witness :
  fst (delete_trip decimal "1" (sample_db "Planned")) = Ok
  /\ map trip_status (trips (snd (delete_trip decimal "1" (sample_db "Planned"))))
     = [JStr "Cancelled"]
  /\ status_code (fst (delete_trip decimal "8" (sample_db "Planned"))) = 404.
Proof.
  destruct (delete_trip_cancels decimal "1" (sample_db "Planned")) as (_ & H).
  destruct (H (sample_trip 1 "T-1" "Planned" 100 200) eq_refl) as (E & _).
  destruct (delete_trip_cancels decimal "8" (sample_db "Planned")) as (H' & _).
  destruct (H' eq_refl) as (E' & _).
  split; [exact E|]. split; [reflexivity|exact E'].
Defined.

(** X11. A sub-trip is reached through its own trip only: a PUT or a
    DELETE under another trip's path is answered 404 and writes nothing. *)
Theorem subtrip_of_another_trip_not_found float_of_string fromisoformat ObjectId
  trip_id subtrip_id data db sub :
  find_subtrip ObjectId subtrip_id db = Some sub ->
  sub_trip_id sub <> trip_id ->
  update_subtrip float_of_string fromisoformat ObjectId trip_id subtrip_id data db
  = (NotFound "Sub Trip not found", db)
  /\ delete_subtrip ObjectId trip_id subtrip_id db
     = (NotFound "Sub Trip not found", db).
Proof.
  intros F N. apply String.eqb_neq in N.
  unfold update_subtrip, delete_subtrip, own_subtrip. rewrite F, N. now split.
Qed.

Lemma subtrip_of_another_trip_not_found_witness :
  update_subtrip no_float decimal decimal "2" "3" [("cost", JNum 1)] three_subtrips
  = (NotFound "Sub Trip not found", three_subtrips)
  /\ delete_subtrip decimal "2" "3" three_subtrips
     = (NotFound "Sub Trip not found", three_subtrips).
Proof.
  apply (subtrip_of_another_trip_not_found no_float decimal decimal "2" "3"
           [("cost", JNum 1)] three_subtrips
           (mkSubTrip 3 "1" (JStr "T-1") 10 20 (JStr "Chennai") (JStr "Salem")
              (JStr "Acme") 12 (Some 0%Q))).
  - reflexivity.
  - discriminate.
Defined.

Lemma fresh_oid_above ids x : In x ids -> x < fresh_oid ids.
Proof.
  unfold fresh_oid. induction ids as [|y l IH]; [contradiction|].
  cbn [fold_right]. intros [->|H]; [lia|]. specialize (IH H). lia.
Qed.

Lemma find_fresh_last (subs : list SubTrip) sub :
  sub_oid sub = fresh_oid (map sub_oid subs) ->
  find (fun s => sub_oid s =? fresh_oid (map sub_oid subs)) (subs ++ [sub])
  = Some sub
  /\ delete_first (fun s => sub_oid s =? fresh_oid (map sub_oid subs))
                  (subs ++ [sub]) = subs.
Proof.
  intros E. set (f := fresh_oid (map sub_oid subs)) in *.
  assert (H : forall s, In s subs -> (sub_oid s =? f) = false).
  { intros s Hs. apply Z.eqb_neq. apply (in_map sub_oid) in Hs.
    apply fresh_oid_above in Hs. fold f in Hs. lia. }
  clearbody f. induction subs as [|x l IH]; cbn [app find delete_first].
  - rewrite E, Z.eqb_refl. now split.
  - rewrite (H x (or_introl eq_refl)).
    destruct IH as [I1 I2]; [intros s Hs; apply H; now right|].
    now rewrite I1, I2.
Qed.

(** X12. Creating a sub-trip and deleting it again gives back the
    sub-trips as they were, and leaves the revenue of the trip at the sum
    of the costs of the sub-trips stored under the trip id of the request
    path: all the sub-trips that reference the trip, when each is stored
    under that spelling of its id. *)
Theorem create_then_delete_subtrip float_of_string fromisoformat ObjectId
  trip_id data db subtrip_id :
  let created := create_subtrip float_of_string fromisoformat ObjectId trip_id
                   data db in
  fst created = Created ->
  ObjectId subtrip_id = Some (fresh_oid (map sub_oid (subtrips db))) ->
  let res := delete_subtrip ObjectId trip_id subtrip_id (snd created) in
  fst res = Ok
  /\ subtrips (snd res) = subtrips db
  /\ exists t,
       find_trip ObjectId trip_id (snd res) = Some t
       /\ (trip_revenue t == total_cost (subtrips_of trip_id db))%Q
       /\ ((forall s, In s (subtrips db) ->
              references ObjectId (trip_oid t) s = true ->
              sub_trip_id s = trip_id) ->
           (trip_revenue t
            == total_cost (subtrips_referencing ObjectId (trip_oid t) db))%Q).
Proof.
  cbv zeta. unfold create_subtrip.
  destruct (missing_field _ data); [discriminate|].
  destruct (isoformat _ _) as [d|]; [|discriminate].
  destruct (isoformat _ _) as [e|]; [|discriminate].
  destruct (e <? d); [discriminate|].
  destruct (find_trip ObjectId trip_id db) as [trip|] eqn:F; [|discriminate].
  destruct (find_trip_oid _ _ _ _ F) as (oid & Ho & Eo & _).
  unfold update_trip_revenue. rewrite Ho. cbn [fst snd subtrips trips employees].
  intros _ Hs.
  match goal with
  | |- context [delete_subtrip ObjectId trip_id subtrip_id ?d1] => set (db1 := d1)
  end.
  match goal with
  | db1 := {| trips := ?ts; subtrips := (_ ++ [?n])%list; employees := _ |} |- _ =>
      set (new := n) in *; set (trips1 := ts) in *
  end.
  destruct (find_fresh_last (subtrips db) new eq_refl) as [Ff Fd].
  assert (E : delete_subtrip ObjectId trip_id subtrip_id db1
              = (Ok, mkDB (update_first (fun t => trip_oid t =? oid)
                             (set_revenue (sum_costs (subtrips_of trip_id db)))
                             trips1)
                          (subtrips db) (employees db))).
  { unfold delete_subtrip, own_subtrip, find_subtrip. rewrite Hs.
    unfold db1 at 1. cbn [subtrips]. rewrite Ff.
    change (sub_trip_id new) with trip_id. rewrite String.eqb_refl.
    unfold update_trip_revenue. rewrite Ho. unfold db1.
    cbn [subtrips trips employees]. rewrite Fd. reflexivity. }
  rewrite E. cbn [fst snd subtrips].
  split; [reflexivity|]. split; [reflexivity|].
  unfold find_trip in *. rewrite Ho in *. cbn [trips].
  eexists. split.
  - apply find_update_first; [intros y Hy; exact Hy|].
    apply find_update_first; [intros y Hy; exact Hy|exact F].
  - cbn [trip_revenue set_revenue trip_oid]. split; [apply sum_costs_total|].
    intros H. rewrite Eo in H. rewrite Eo.
    rewrite (referencing_same_spelling ObjectId trip_id oid db Ho H).
    apply sum_costs_total.
Qed.

Lemma create_then_delete_subtrip_witness :
  let created := create_subtrip no_float decimal decimal "1"
                   (subtrip_body "10" "20" 3 75) three_subtrips in
  let res := delete_subtrip decimal "1" "4" (snd created) in
  fst res = Ok
  /\ subtrips (snd res) = subtrips three_subtrips
  /\ exists t,
       find_trip decimal "1" (snd res) = Some t /\ (trip_revenue t == 350)%Q.
Proof.
  destruct (create_then_delete_subtrip no_float decimal decimal "1"
              (subtrip_body "10" "20" 3 75) three_subtrips "4")
    as (E1 & E2 & t & F & R & _); [reflexivity..|].
  split; [exact E1|]. split; [exact E2|].
  exists t. split; [exact F|]. rewrite R. vm_compute. reflexivity.
Defined.

Lemma not_negative_le q : negative q = false -> (0 <= q)%Q.
Proof. unfold negative. intros H. now apply negb_false_iff, Qle_bool_iff in H. Qed.

(** The numbers of an update document are not negative. *)
Lemma build_update_doc_numbers float_of_string fromisoformat data u :
  build_update_doc float_of_string fromisoformat data = inr u ->
  (forall w, u_cargo_weight u = Some w -> (0 <= w)%Q)
  /\ (forall c, u_cost u = Some c -> (0 <= c)%Q).
Proof.
  unfold build_update_doc, number_update.
  destruct (date_update _ _ data); [|discriminate].
  destruct (date_update _ _ data); [|discriminate].
  destruct (lookup "cargo_weight" data) as [v|];
    [destruct (negative (parse_float float_of_string v 0)) eqn:Nw;
       [discriminate|]|];
    (destruct (lookup "cost" data) as [v'|];
       [destruct (negative (parse_float float_of_string v' 0)) eqn:Nc;
          [discriminate|]|]);
    intros [= <-]; cbn [u_cargo_weight u_cost]; split; intros ? [= <-];
    now apply not_negative_le.
Qed.

(** X13. A successful update of a sub-trip never makes its cost or its
    cargo weight negative: each stays as it was or becomes the number of
    the body, which is not negative. *)
Theorem update_subtrip_keeps_numbers_nonnegative float_of_string fromisoformat
  ObjectId trip_id subtrip_id data db sub :
  own_subtrip ObjectId trip_id subtrip_id db = Some sub ->
  let res := update_subtrip float_of_string fromisoformat ObjectId trip_id
               subtrip_id data db in
  fst res = Ok ->
  exists sub',
    find_subtrip ObjectId subtrip_id (snd res) = Some sub'
    /\ ((0 <= sub_cargo_weight sub)%Q -> (0 <= sub_cargo_weight sub')%Q)
    /\ ((0 <= or_else (sub_cost sub) 0)%Q -> (0 <= or_else (sub_cost sub') 0)%Q).
Proof.
  intros O. cbv zeta. unfold update_subtrip. rewrite O.
  assert (F : find_subtrip ObjectId subtrip_id db = Some sub).
  { unfold own_subtrip in O. destruct (find_subtrip _ _ _) as [x|]; [|discriminate].
    destruct (String.eqb _ _); [congruence|discriminate]. }
  unfold find_subtrip in F.
  destruct (ObjectId subtrip_id) as [oid|] eqn:Ho; [|discriminate].
  destruct (build_update_doc _ _ data) as [r|u] eqn:B.
  { intros E. cbn [fst] in E. apply build_update_doc_rejects in B.
    subst r. discriminate. }
  destruct (build_update_doc_numbers _ _ _ _ B) as [Nw Nc].
  match goal with
  | |- context [if ?b then (BadRequest _, db) else _] => destruct b
  end; [discriminate|].
  unfold update_trip_revenue.
  destruct (ObjectId trip_id); [|discriminate].
  intros _. cbn [snd]. unfold find_subtrip. rewrite Ho. cbn [subtrips].
  exists (apply_update u sub). split.
  - apply find_update_first; [intros y Hy; exact Hy|exact F].
  - cbn [apply_update sub_cargo_weight sub_cost]. split.
    + destruct (u_cargo_weight u) as [w|]; cbn [or_else]; auto.
    + destruct (u_cost u) as [c|]; cbn [or_else]; auto.
Qed.

Lemma update_subtrip_keeps_numbers_nonnegative_witness :
  exists sub',
    find_subtrip decimal "2"
      (snd (update_subtrip no_float decimal decimal "1" "2"
              [("cost", JNum 40)] three_subtrips)) = Some sub'
    /\ ((0 <= 12)%Q -> (0 <= sub_cargo_weight sub')%Q)
    /\ ((0 <= 250)%Q -> (0 <= or_else (sub_cost sub') 0)%Q).
Proof.
  apply (update_subtrip_keeps_numbers_nonnegative no_float decimal decimal
           "1" "2" [("cost", JNum 40)] three_subtrips
           (mkSubTrip 2 "1" (JStr "T-1") 10 20 (JStr "Chennai") (JStr "Salem")
              (JStr "Acme") 12 (Some 250%Q))).
  - reflexivity.
  - reflexivity.
Defined.

(** *** Uniqueness of trip numbers and identifiers *)

Lemma Qeq_bool_sym x y : Qeq_bool x y = Qeq_bool y x.
Proof.
  destruct (Qeq_bool x y) eqn:E1, (Qeq_bool y x) eqn:E2; try reflexivity.
  - apply Qeq_bool_iff in E1. symmetry in E1. apply Qeq_bool_iff in E1. congruence.
  - apply Qeq_bool_iff in E2. symmetry in E2. apply Qeq_bool_iff in E2. congruence.
Qed.

Lemma json_eqb_sym a b : json_eqb a b = json_eqb b a.
Proof.
  destruct a, b; cbn [json_eqb]; try reflexivity.
  - now destruct b0, b.
  - apply Qeq_bool_sym.
  - apply String.eqb_sym.
Qed.

Lemma json_eqb_trans a b c :
  json_eqb a b = true -> json_eqb b c = json_eqb a c.
Proof.
  destruct a, b; cbn [json_eqb]; try discriminate; intros E.
  - reflexivity.
  - apply Bool.eqb_prop in E. now subst.
  - destruct c; cbn [json_eqb]; try reflexivity.
    apply Qeq_bool_iff in E.
    destruct (Qeq_bool q0 q1) eqn:E1, (Qeq_bool q q1) eqn:E2; try reflexivity.
    + apply Qeq_bool_iff in E1. rewrite <- E in E1.
      apply Qeq_bool_iff in E1. congruence.
    + apply Qeq_bool_iff in E2. rewrite E in E2.
      apply Qeq_bool_iff in E2. congruence.
  - apply String.eqb_eq in E. now subst.
Qed.

Lemma distinct_snoc ns n :
  StronglySorted distinct ns -> Forall (fun x => distinct x n) ns ->
  StronglySorted distinct (ns ++ [n])%list.
Proof.
  induction ns as [|x l IH]; intros S F; cbn [app].
  - repeat constructor.
  - inversion S as [|? ? Sl Fx]; inversion F as [|? ? Fn Fl]; subst.
    constructor; [now apply IH|].
    apply Forall_app. split; [exact Fx|]. now repeat constructor.
Qed.

Lemma sorted_app {A} (R : A -> A -> Prop) l1 l2 :
  StronglySorted R (l1 ++ l2)%list ->
  StronglySorted R l1 /\ StronglySorted R l2
  /\ forall a b, In a l1 -> In b l2 -> R a b.
Proof.
  induction l1 as [|x l IH]; cbn [app]; intros S.
  - repeat split; [constructor|exact S|intros ? ? []].
  - inversion S as [|? ? Sl Fx]; subst.
    destruct (IH Sl) as (S1 & S2 & H). apply Forall_app in Fx as [Fa Fb].
    repeat split; [now constructor|exact S2|].
    intros a b [<-|Ha] Hb; [|now apply H].
    now apply (proj1 (Forall_forall _ _) Fb).
Qed.

(** Replacing one number by another that differs from all the others. *)
Lemma distinct_replace ns1 n n' ns2 :
  StronglySorted distinct (ns1 ++ n :: ns2)%list ->
  Forall (fun x => distinct x n') ns1 -> Forall (fun x => distinct n' x) ns2 ->
  StronglySorted distinct (ns1 ++ n' :: ns2)%list.
Proof.
  induction ns1 as [|x l IH]; cbn [app]; intros S F1 F2.
  - inversion S; subst. now constructor.
  - inversion S as [|? ? Sl Fx]; inversion F1 as [|? ? Fn Fl]; subst.
    constructor; [now apply IH|].
    apply Forall_app in Fx as [Fa Fb]. inversion Fb; subst.
    apply Forall_app. split; [exact Fa|]. now constructor.
Qed.

(** The document that [update_one] changes, and the documents around it. *)
Lemma update_first_split {A} (p : A -> bool) f l x :
  find p l = Some x ->
  exists l1 l2,
    l = (l1 ++ x :: l2)%list /\ (forall y, In y l1 -> p y = false)
    /\ update_first p f l = (l1 ++ f x :: l2)%list.
Proof.
  induction l as [|y l IH]; cbn [find update_first]; [discriminate|].
  destruct (p y) eqn:E.
  - intros [= <-]. exists [], l. repeat split. intros ? [].
  - intros F. destruct (IH F) as (l1 & l2 & -> & H1 & H2).
    exists (y :: l1), l2. cbn [app]. rewrite H2. repeat split.
    intros z [<-|Hz]; auto.
Qed.

Lemma existsb_false_forall {A} (p : A -> bool) l :
  existsb p l = false -> forall x, In x l -> p x = false.
Proof.
  intros E x Hx. destruct (p x) eqn:P; [|reflexivity].
  rewrite (existsb_in p l x Hx P) in E. discriminate.
Qed.

Lemma py_eqb_plain a b : not_bool a -> not_bool b -> py_eqb a b = json_eqb a b.
Proof. destruct a, b; cbn; intros; try reflexivity; contradiction. Qed.

(** What [update_trip] leaves in the store: the store as it was, or the
    trip replaced by its update, whose trip number passed the test of
    lines 190-192. *)
Lemma update_trip_store float_of_string fromisoformat ObjectId trip_id data db
  trip oid :
  find_trip ObjectId trip_id db = Some trip ->
  ObjectId trip_id = Some oid ->
  let res := update_trip float_of_string fromisoformat ObjectId trip_id data db in
  snd res = db
  \/ exists updated,
       snd res = mkDB (update_first (fun t => trip_oid t =? oid)
                         (fun _ => updated) (trips db))
                      (subtrips db) (employees db)
       /\ trip_oid updated = trip_oid trip
       /\ trip_number updated
          = or_else (lookup "trip_number" data) (trip_number trip)
       /\ forall n, lookup "trip_number" data = Some n ->
            py_eqb n (trip_number trip) = true
            \/ existsb (fun t => json_eqb (trip_number t) n
                                 && negb (trip_oid t =? oid)) (trips db)
               = false.
Proof.
  intros F Ho. cbv zeta. unfold update_trip. rewrite F, Ho.
  match goal with
  | |- context [if ?c then (BadRequest "Trip number already exists", _) else _] =>
      destruct c eqn:C
  end; [now left|].
  destruct (effective_date _ _ _ _); [|now left].
  destruct (effective_date _ _ _ _); [|now left].
  destruct (driver_unfit _) as [[|]|]; [now left| |now left].
  match goal with
  | |- context [if existsb ?p ?l then _ else _] => destruct (existsb p l)
  end; [now left|].
  right. cbv zeta.
  match goal with
  | |- context [to_dict_populated ObjectId ?t _] => set (updated := t)
  end.
  exists updated.
  assert (N : forall n, lookup "trip_number" data = Some n ->
                py_eqb n (trip_number trip) = true
                \/ existsb (fun t => json_eqb (trip_number t) n
                                     && negb (trip_oid t =? oid)) (trips db)
                   = false).
  { intros n L. rewrite L in C. apply andb_false_iff in C as [C|C]; [left|now right].
    now apply negb_false_iff in C. }
  destruct (to_dict_populated ObjectId updated _); repeat split; exact N.
Qed.

(** X14. Trip numbers and trip [_id]s stay unique, trip numbers being no
    JSON booleans: if no two trips share a number or an [_id] and no trip
    number, stored or in the body, is a boolean, the same holds after any
    creation, update or cancellation of a trip, whatever the answer. *)
Theorem trip_keys_stay_unique float_of_string fromisoformat ObjectId
  trip_id data db :
  unique_trip_ids db -> unique_trip_numbers db -> plain_trip_numbers db ->
  (forall n, lookup "trip_number" data = Some n -> not_bool n) ->
  let after db' :=
    unique_trip_ids db' /\ unique_trip_numbers db' /\ plain_trip_numbers db' in
  after (snd (create_trip float_of_string fromisoformat ObjectId data db))
  /\ after (snd (update_trip float_of_string fromisoformat ObjectId trip_id
                   data db))
  /\ after (snd (delete_trip ObjectId trip_id db)).
Proof.
  intros Ni Nn Np Hb. cbv zeta. split; [|split].
  - (* creation *)
    destruct (create_trip_writes float_of_string fromisoformat ObjectId data db)
      as [[-> _]|[_ (b & -> & Eb & En & W)]]; [repeat split; assumption|].
    unfold unique_trip_ids, unique_trip_numbers, plain_trip_numbers in *.
    cbn [trips]. rewrite !map_app. cbn [map]. split; [|split].
    + rewrite Eb. apply NoDup_rev in Ni. rewrite <- (rev_involutive (_ ++ _)).
      apply NoDup_rev. rewrite rev_app_distr. cbn [rev app].
      constructor; [|exact Ni]. rewrite <- in_rev. intros Hin.
      apply fresh_oid_above in Hin. lia.
    + apply distinct_snoc; [exact Nn|].
      apply Forall_forall. intros x Hx. apply in_map_iff in Hx as (t & <- & Ht).
      exact (W t Ht).
    + apply Forall_app. split; [exact Np|]. constructor; [|constructor].
      rewrite En. destruct (lookup "trip_number" data) as [n|] eqn:L;
        [exact (Hb n eq_refl)|exact I].
  - (* update *)
    destruct (find_trip ObjectId trip_id db) as [trip|] eqn:F.
    2:{ unfold update_trip. rewrite F. repeat split; assumption. }
    destruct (find_trip_oid _ _ _ _ F) as (oid & Ho & Eo & Hin).
    destruct (update_trip_store float_of_string fromisoformat ObjectId trip_id
                data db trip oid F Ho) as [->|(updated & -> & Eu & En & C)];
      [repeat split; assumption|].
    unfold find_trip in F. rewrite Ho in F.
    unfold unique_trip_ids, unique_trip_numbers, plain_trip_numbers in *.
    cbn [trips].
    destruct (update_first_split (fun t => trip_oid t =? oid)
                (fun _ => updated) (trips db) trip F) as (l1 & l2 & El & H1 & ->).
    rewrite El in Ni, Nn, Np, C. rewrite !map_app in *. cbn [map] in *.
    rewrite Eu. split; [exact Ni|].
    assert (Pt : not_bool (trip_number trip)).
    { apply Forall_app in Np as [_ Np]. now inversion Np. }
    assert (H2 : forall y, In y l2 -> (trip_oid y =? oid) = false).
    { intros y Hy. apply Z.eqb_neq. intros E.
      apply NoDup_remove_2 in Ni. apply Ni. apply in_or_app. right.
      rewrite Eo, <- E. now apply in_map. }
    split.
    + apply (distinct_replace _ (trip_number trip)); [exact Nn| |].
      * apply Forall_forall. intros x Hx. apply in_map_iff in Hx as (t & <- & Ht).
        unfold distinct. rewrite En.
        assert (D : distinct (trip_number t) (trip_number trip)).
        { apply sorted_app in Nn as (_ & _ & D).
          apply D; [now apply in_map | now left]. }
        destruct (lookup "trip_number" data) as [n|]; cbn [or_else]; [|exact D].
        destruct (C n eq_refl) as [E|E].
        -- rewrite (py_eqb_plain n _ (Hb n eq_refl) Pt) in E.
           rewrite (json_eqb_sym (trip_number t) n).
           rewrite <- (json_eqb_trans _ _ (trip_number t) E).
           rewrite json_eqb_sym. exact D.
        -- assert (P := existsb_false_forall _ _ E t
                          (in_or_app _ _ _ (or_introl Ht))).
           cbn beta in P. rewrite (H1 t Ht) in P. cbn [negb] in P.
           now rewrite andb_true_r in P.
      * apply Forall_forall. intros x Hx. apply in_map_iff in Hx as (t & <- & Ht).
        unfold distinct. rewrite En.
        assert (D : distinct (trip_number trip) (trip_number t)).
        { apply sorted_app in Nn as (_ & Sr & _).
          inversion Sr as [|? ? _ Fd]; subst.
          apply (proj1 (Forall_forall _ _) Fd). now apply in_map. }
        destruct (lookup "trip_number" data) as [n|]; cbn [or_else]; [|exact D].
        destruct (C n eq_refl) as [E|E].
        -- rewrite (py_eqb_plain n _ (Hb n eq_refl) Pt) in E.
           rewrite <- (json_eqb_trans _ _ (trip_number t) E). exact D.
        -- assert (P := existsb_false_forall _ _ E t
                          (in_or_app _ _ _ (or_intror (in_cons _ _ _ Ht)))).
           cbn beta in P. rewrite (H2 t Ht) in P. cbn [negb] in P.
           rewrite andb_true_r in P. now rewrite json_eqb_sym.
    + apply Forall_app in Np as [Np1 Np2]. inversion Np2; subst.
      apply Forall_app. split; [exact Np1|]. constructor; [|assumption].
      rewrite En. destruct (lookup "trip_number" data) as [n|];
        [exact (Hb n eq_refl)|exact Pt].
  - (* cancellation *)
    unfold delete_trip.
    destruct (find_trip ObjectId trip_id db) as [trip|] eqn:F;
      [|repeat split; assumption].
    destruct (find_trip_oid _ _ _ _ F) as (oid & Ho & _). rewrite Ho.
    cbn [snd]. unfold unique_trip_ids, unique_trip_numbers, plain_trip_numbers in *.
    cbn [trips].
    assert (E : forall l,
               map trip_oid (update_first (fun t => trip_oid t =? oid)
                               (set_trip_status (JStr "Cancelled")) l)
               = map trip_oid l
               /\ map trip_number (update_first (fun t => trip_oid t =? oid)
                                     (set_trip_status (JStr "Cancelled")) l)
                  = map trip_number l).
    { induction l as [|x l [I1 I2]]; [now split|]. cbn [update_first].
      destruct (trip_oid x =? oid); cbn [map]; [now split|].
      now rewrite I1, I2. }
    destruct (E (trips db)) as [E1 E2]. rewrite E1, E2.
    split; [exact Ni|]. split; [exact Nn|].
    rewrite <- Forall_map with (f := trip_number) (P := not_bool) in *.
    now rewrite E2.
Qed.

Lemma trip_keys_stay_unique_witness :
  unique_trip_numbers
    (snd (update_trip no_float decimal decimal "2"
            [("trip_number", JStr "T-9")] two_trips_db)).
Proof.
  apply (trip_keys_stay_unique no_float decimal decimal "2"
           [("trip_number", JStr "T-9")] two_trips_db).
  - repeat constructor; cbn; intuition discriminate.
  - repeat constructor.
  - repeat constructor.
  - intros n [= <-]. exact I.
Defined.

(** X22. The dates of a trip never block its own update: an update of an
    existing trip that keeps a free trip number, well-formed dates and an
    active driver stores the new dates whenever no other trip conflicts,
    whatever the overlap of the new dates with the trip's present ones; it
    is never answered 400, and it is answered 200 when the stored names of
    the driver are strings. *)
Theorem update_trip_ignores_own_dates float_of_string fromisoformat ObjectId
  trip_id data db trip oid d start_date end_date :
  find_trip ObjectId trip_id db = Some trip ->
  ObjectId trip_id = Some oid ->
  (forall n, lookup "trip_number" data = Some n ->
     forall t, In t (trips db) -> trip_oid t <> oid ->
       json_eqb (trip_number t) n = false) ->
  effective_date fromisoformat "start_date" data (trip_start_date trip)
  = Some start_date ->
  effective_date fromisoformat "end_date" data (trip_end_date trip)
  = Some end_date ->
  find_driver ObjectId
    (or_else (lookup "driver_id" data) (trip_driver_id trip)) db = Some d ->
  driver_unfit (Some d) = Some false ->
  (forall t, In t (trips db) -> trip_oid t <> oid ->
     driver_conflict_query
       (or_else (lookup "driver_id" data) (trip_driver_id trip))
       start_date end_date t = false) ->
  let res := update_trip float_of_string fromisoformat ObjectId trip_id data db in
  (exists t,
     find_trip ObjectId trip_id (snd res) = Some t
     /\ trip_start_date t = start_date /\ trip_end_date t = end_date)
  /\ (fst res = Ok \/ fst res = ServerError)
  /\ (driver_name d <> None -> fst res = Ok).
Proof.
  intros F Ho Hn Es Ee Fd Hd Hc. cbv zeta. unfold update_trip.
  rewrite F, Ho.
  assert (N : (match lookup "trip_number" data with
               | Some n =>
                   negb (py_eqb n (trip_number trip))
                   && existsb (fun t => json_eqb (trip_number t) n
                                        && negb (trip_oid t =? oid)) (trips db)
               | None => false
               end) = false).
  { destruct (lookup "trip_number" data) as [n|]; [|reflexivity].
    rewrite existsb_none; [apply andb_false_r|].
    intros t Ht. destruct (Z.eqb_spec (trip_oid t) oid) as [E|E];
      [apply andb_false_r|].
    now rewrite (Hn n eq_refl t Ht E). }
  rewrite N, Es, Ee, Fd, Hd.
  rewrite existsb_none.
  2:{ intros t Ht. destruct (Z.eqb_spec (trip_oid t) oid) as [E|E];
        [apply andb_false_r|]. now rewrite (Hc t Ht E). }
  cbv zeta.
  match goal with
  | |- context [to_dict_populated ObjectId ?t _] => set (updated := t)
  end.
  match goal with
  | |- context [to_dict_populated ObjectId updated ?d1] => set (db1 := d1)
  end.
  assert (Fu : find_trip ObjectId trip_id db1 = Some updated).
  { unfold find_trip in *. rewrite Ho in *. unfold db1. cbn [trips].
    apply (find_update_first (fun t => trip_oid t =? oid) (fun _ => updated)
             (trips db) trip); [|exact F].
    intros y Hy. apply find_some in F as [_ F]. exact F. }
  split; [|split].
  - exists updated.
    destruct (to_dict_populated ObjectId updated db1); cbn [snd]; auto.
  - destruct (to_dict_populated ObjectId updated db1); cbn [fst]; auto.
  - intros Nd.
    assert (P : to_dict_populated ObjectId updated db1 <> None)
      by (apply (to_dict_populated_driver ObjectId updated _ _ db d);
            [exact Fd|exact Nd]).
    destruct (to_dict_populated ObjectId updated db1);
      [reflexivity|contradiction].
Qed.

Lemma update_trip_ignores_own_dates_witness :
  let res := update_trip no_float decimal decimal "1"
               [("start_date", JStr "150"); ("end_date", JStr "180")]
               (sample_db "Planned") in
  fst res = Ok
  /\ exists t,
       find_trip decimal "1" (snd res) = Some t
       /\ trip_start_date t = Some 150 /\ trip_end_date t = Some 180.
Proof.
  destruct (update_trip_ignores_own_dates no_float decimal decimal "1"
              [("start_date", JStr "150"); ("end_date", JStr "180")]
              (sample_db "Planned") (sample_trip 1 "T-1" "Planned" 100 200) 1
              sample_driver (Some 150) (Some 180)) as (W & _ & S);
    try reflexivity.
  - discriminate.
  - intros t [<-|[]] N. now contradiction N.
  - split; [apply S; discriminate|exact W].
Defined.

End TripsMoreFacts.

(** * Further properties of client payments *)

Module PaymentsFacts.
Import ClientPayment Payments.

Lemma Qeq_bool_refl x : Qeq_bool x x = true.
Proof. apply Qeq_bool_iff. reflexivity. Qed.

Lemma json_eqb_refl a : json_eqb a a = true.
Proof.
  destruct a; cbn [json_eqb]; try reflexivity.
  - now destruct b.
  - apply Qeq_bool_refl.
  - apply String.eqb_refl.
Qed.

Lemma keys_update_first (p : Payment -> bool) u l :
  map pay_cost (update_first p (apply_update u) l) = map pay_cost l
  /\ map payment_key (update_first p (apply_update u) l) = map payment_key l
  /\ map pay_oid (update_first p (apply_update u) l) = map pay_oid l.
Proof.
  induction l as [|x l (I1 & I2 & I3)]; [repeat split|]. cbn [update_first].
  destruct (p x); cbn [map]; [repeat split|].
  now rewrite I1, I2, I3.
Qed.

Lemma update_keys float_of_string ObjectId payment_id data db :
  let db' := snd (update_client_payment float_of_string ObjectId payment_id
                    data db) in
  map pay_cost db' = map pay_cost db
  /\ map payment_key db' = map payment_key db
  /\ map pay_oid db' = map pay_oid db.
Proof.
  cbv zeta. unfold update_client_payment.
  destruct (find_payment ObjectId payment_id db); [|repeat split].
  destruct (ObjectId payment_id) as [oid|]; [|repeat split].
  destruct (lookup "status" data) as [[| | |st]|];
    try (destruct (String.eqb _ _)); cbn [snd];
    solve [repeat split | apply keys_update_first].
Qed.

(** X15. A PUT on a client payment changes nothing but the advance
    payment, the balance and the status: the costs, the trip codes, the
    client names and the [_id]s of the collection are as before, whatever
    the body and the answer. *)
Theorem update_client_payment_keeps_cost_and_key float_of_string ObjectId
  payment_id data db :
  let db' := snd (update_client_payment float_of_string ObjectId payment_id
                    data db) in
  map pay_cost db' = map pay_cost db
  /\ map payment_key db' = map payment_key db
  /\ map pay_oid db' = map pay_oid db.
Proof. apply update_keys. Qed.

Lemma key_in_delete_first {A} (p : A -> bool) l x :
  In x (delete_first p l) -> In x l.
Proof.
  induction l as [|y l IH]; cbn [delete_first]; [contradiction|].
  destruct (p y); cbn [In]; intuition auto.
Qed.

Lemma unique_delete_first (p : Payment -> bool) l :
  unique_payments l -> unique_payments (delete_first p l).
Proof.
  unfold unique_payments.
  induction l as [|x l IH]; cbn [delete_first map]; intros S; [constructor|].
  inversion S as [|? ? Sl Fx]; subst.
  destruct (p x); [exact Sl|]. cbn [map]. constructor; [now apply IH|].
  apply Forall_forall. intros k Hk. apply in_map_iff in Hk as (y & <- & Hy).
  apply key_in_delete_first in Hy.
  apply (proj1 (Forall_forall _ _) Fx). now apply in_map.
Qed.

Lemma unique_snoc l k :
  StronglySorted distinct_keys l -> Forall (fun x => distinct_keys x k) l ->
  StronglySorted distinct_keys (l ++ [k])%list.
Proof.
  induction l as [|x l IH]; intros S F; cbn [app].
  - repeat constructor.
  - inversion S as [|? ? Sl Fx]; inversion F as [|? ? Fn Fl]; subst.
    constructor; [now apply IH|].
    apply Forall_app. split; [exact Fx|]. now repeat constructor.
Qed.

(** X16. At most one payment per trip code and client: if no two payments
    share both, the same holds after any POST, PUT or DELETE of a payment,
    whatever the answer. *)
Theorem payments_stay_unique float_of_string ObjectId payment_id data db :
  unique_payments db ->
  unique_payments (snd (create_client_payment float_of_string data db))
  /\ unique_payments (snd (update_client_payment float_of_string ObjectId
                             payment_id data db))
  /\ unique_payments (snd (delete_client_payment ObjectId payment_id db)).
Proof.
  intros U. split; [|split].
  - unfold create_client_payment.
    destruct (missing_field _ data); [exact U|].
    destruct (existsb _ db) eqn:E; [exact U|]. cbn [snd].
    unfold unique_payments. rewrite map_app. cbn [map payment_key].
    apply unique_snoc; [exact U|].
    apply Forall_forall. intros k Hk. apply in_map_iff in Hk as (p & <- & Hp).
    unfold distinct_keys. cbn [fst snd payment_key pay_trip_code pay_client_name].
    exact (TripsMoreFacts.existsb_false_forall _ _ E p Hp).
  - unfold unique_payments.
    destruct (update_keys float_of_string ObjectId payment_id data db)
      as (_ & E & _). now rewrite E.
  - unfold delete_client_payment.
    destruct (find_payment ObjectId payment_id db); [|exact U].
    destruct (ObjectId payment_id); [|exact U].
    cbn [snd]. now apply unique_delete_first.
Qed.

Lemma payments_stay_unique_witness :
  unique_payments
    (snd (create_client_payment no_float
            (payment_body "T-1" "Acme" 500 100 400 "pending")
            [sample_payment 1000 600 400])).
Proof.
  apply (payments_stay_unique no_float decimal "1"
           (payment_body "T-1" "Acme" 500 100 400 "pending")
           [sample_payment 1000 600 400]).
  repeat constructor.
Defined.

(** X17. A second payment for the same trip code and client is refused:
    once a POST has succeeded, the same POST again is answered 400 and
    writes nothing. *)
Theorem second_payment_rejected float_of_string data db :
  fst (create_client_payment float_of_string data db) = Created ->
  let db' := snd (create_client_payment float_of_string data db) in
  status_code (fst (create_client_payment float_of_string data db')) = 400
  /\ snd (create_client_payment float_of_string data db') = db'.
Proof.
  intros C. cbv zeta.
  assert (E : exists doc,
            create_client_payment float_of_string data db
            = (Created, (db ++ [doc])%list)
            /\ missing_field ["trip_code"; "client_name"; "cost";
                              "advance_payment"; "balance"; "status"] data = None
            /\ same_trip_and_client (or_else (lookup "trip_code" data) JNull)
                  (or_else (lookup "client_name" data) JNull) doc = true).
  { revert C. unfold create_client_payment.
    destruct (missing_field _ data); [discriminate|].
    destruct (existsb _ db); [discriminate|].
    intros _. eexists. split; [reflexivity|]. split; [reflexivity|].
    unfold same_trip_and_client. cbn [pay_trip_code pay_client_name].
    now rewrite !json_eqb_refl. }
  destruct E as (doc & -> & M & D). cbn [snd].
  unfold create_client_payment. rewrite M, existsb_app. cbn [existsb].
  rewrite D, orb_true_r. now split.
Qed.

Lemma second_payment_rejected_witness :
  let data := payment_body "T-2" "Zenith" 500 100 400 "pending" in
  let db' := snd (create_client_payment no_float data []) in
  status_code (fst (create_client_payment no_float data db')) = 400
  /\ snd (create_client_payment no_float data db') = db'.
Proof.
  apply (second_payment_rejected no_float
           (payment_body "T-2" "Zenith" 500 100 400 "pending") []).
  reflexivity.
Defined.

(** *** The spelling of the status *)

(** A character that lowers to a letter is that letter in one of its two
    cases, and no space. *)
Lemma lower_ascii_letter c :
  is_lower_letter (lower_ascii c) = true ->
  is_space c = false /\ upper_ascii c = upper_ascii (lower_ascii c).
Proof.
  destruct c as [[] [] [] [] [] [] [] []]; vm_compute;
    first [discriminate | split; reflexivity].
Qed.

Lemma received_spelling st :
  lower st = "received" -> strip st = st /\ capitalize st = "Received".
Proof.
  destruct st as [|c1 [|c2 [|c3 [|c4 [|c5 [|c6 [|c7 [|c8 [|c9 r]]]]]]]]];
    cbn [lower]; try discriminate.
  intros [= E1 E2 E3 E4 E5 E6 E7 E8].
  destruct (lower_ascii_letter c1) as [S1 U1]; [now rewrite E1|].
  destruct (lower_ascii_letter c8) as [S8 _]; [now rewrite E8|].
  split.
  - unfold strip. cbn [lstrip]. rewrite S1. cbn [rstrip]. now rewrite S8.
  - cbn [capitalize lower]. rewrite U1, E1, E2, E3, E4, E5, E6, E7, E8.
    reflexivity.
Qed.

(** X18. The status Received is recognised in any letter case and stored
    in one spelling: a PUT whose status is [received], [RECEIVED] or any
    mix of cases stores the status [Received]. *)
Theorem received_status_capitalised float_of_string ObjectId payment_id data db
  payment st :
  find_payment ObjectId payment_id db = Some payment ->
  lookup "status" data = Some (JStr st) ->
  lower st = "received" ->
  let res := update_client_payment float_of_string ObjectId payment_id data db in
  fst res = Ok
  /\ exists p,
       find_payment ObjectId payment_id (snd res) = Some p
       /\ pay_status p = JStr "Received".
Proof.
  intros F L R. cbv zeta. destruct (received_spelling st R) as [Es Ec].
  unfold update_client_payment. rewrite F.
  unfold find_payment in *.
  destruct (ObjectId payment_id) as [oid|]; [|discriminate].
  rewrite L, Es, R, String.eqb_refl. cbn [fst snd].
  split; [reflexivity|]. eexists. split.
  - apply find_update_first; [intros y Hy; exact Hy|exact F].
  - cbn [pay_status apply_update u_status received_update or_else to_proper_case].
    now rewrite Ec.
Qed.

Lemma received_status_capitalised_witness :
  let res := update_client_payment no_float decimal "1"
               [("status", JStr "RECEIVED")] [sample_payment 1000 600 0] in
  fst res = Ok
  /\ exists p,
       find_payment decimal "1" (snd res) = Some p
       /\ pay_status p = JStr "Received".
Proof.
  apply (received_status_capitalised no_float decimal "1"
           [("status", JStr "RECEIVED")] [sample_payment 1000 600 0]
           (sample_payment 1000 600 0) "RECEIVED"); reflexivity.
Defined.

End PaymentsFacts.

(** * Properties of the answers built from documents *)

Module BsonFacts.
Import Bson.

Section Facts.

Variable str_of : bson -> string.
Variable isoformat : datetime -> string.

Local Abbreviation bson_to_str := (bson_to_str str_of isoformat).

Lemma bson_to_str_plain : forall obj, plain (bson_to_str obj) = true.
Proof.
  fix IH 1. intros [ | | | | | |fields|items]; cbn [Bson.bson_to_str plain];
    try reflexivity.
  - induction fields as [|[k v] l IHl]; cbn [map forallb]; [reflexivity|].
    now rewrite (IH v), IHl.
  - induction items as [|v l IHl]; cbn [map forallb]; [reflexivity|].
    now rewrite (IH v), IHl.
Qed.

Lemma bson_to_str_fixes_plain : forall obj,
  plain obj = true -> bson_to_str obj = obj.
Proof.
  fix IH 1. intros [ | | | | | |fields|items]; cbn [Bson.bson_to_str plain];
    try reflexivity; try discriminate.
  - intros H. f_equal. induction fields as [|[k v] l IHl]; [reflexivity|].
    cbn [map forallb] in *. apply andb_prop in H as [Hv Hl].
    now rewrite (IH v Hv), (IHl Hl).
  - intros H. f_equal. induction items as [|v l IHl]; [reflexivity|].
    cbn [map forallb] in *. apply andb_prop in H as [Hv Hl].
    now rewrite (IH v Hv), (IHl Hl).
Qed.

End Facts.

(** X19. [bson_to_str] leaves no [ObjectId] and no [datetime] at any depth
    of a value, changes nothing in a value that has none, and so gives the
    same result when applied twice. *)
Theorem bson_to_str_makes_plain str_of isoformat obj :
  plain (bson_to_str str_of isoformat obj) = true
  /\ (plain obj = true -> bson_to_str str_of isoformat obj = obj)
  /\ bson_to_str str_of isoformat (bson_to_str str_of isoformat obj)
     = bson_to_str str_of isoformat obj.
Proof.
  split; [apply bson_to_str_plain|]. split; [apply bson_to_str_fixes_plain|].
  apply bson_to_str_fixes_plain, bson_to_str_plain.
Qed.

Lemma bson_to_str_makes_plain_witness :
  let str_of (x : bson) := "5f1d" in
  let doc := BDict [("name", BStr "TN01"); ("tags", BList [BNum 1; BNull])] in
  bson_to_str str_of (raw_strftime "iso") doc = doc.
Proof.
  apply (bson_to_str_makes_plain (fun _ => "5f1d") (raw_strftime "iso")).
  reflexivity.
Defined.

Lemma get_map_values (f : bson -> bson) k d :
  get k (map (fun '(k, v) => (k, f v)) d) = option_map f (get k d).
Proof.
  induction d as [|[k' v] r IH]; cbn [map get]; [reflexivity|].
  destruct (String.eqb k' k); [reflexivity|exact IH].
Qed.

Lemma get_del_same k d : get k (del_item k d) = None.
Proof.
  induction d as [|[k' v] r IH]; cbn [del_item get]; [reflexivity|].
  destruct (String.eqb k' k) eqn:E; [exact IH|]. cbn [get]. now rewrite E.
Qed.

Lemma get_del_other k k' d : k' <> k -> get k (del_item k' d) = get k d.
Proof.
  intros N. induction d as [|[k0 v] r IH]; cbn [del_item get]; [reflexivity|].
  destruct (String.eqb k0 k') eqn:E.
  - apply String.eqb_eq in E. subst k0.
    apply String.eqb_neq in N. now rewrite N.
  - cbn [get]. now rewrite IH.
Qed.

Lemma get_set_same k v d : get k (set_item k v d) = Some v.
Proof.
  induction d as [|[k' v'] r IH]; cbn [set_item get].
  - now rewrite String.eqb_refl.
  - destruct (String.eqb k' k) eqn:E; cbn [get].
    + now rewrite String.eqb_refl.
    + now rewrite E.
Qed.

Lemma get_set_other k k' v d : k' <> k -> get k (set_item k' v d) = get k d.
Proof.
  intros N. apply String.eqb_neq in N.
  induction d as [|[k0 v0] r IH]; cbn [set_item get].
  - now rewrite N.
  - destruct (String.eqb k0 k') eqn:E; cbn [get].
    + apply String.eqb_eq in E. subst k0. now rewrite N.
    + now rewrite IH.
Qed.

(** X20. [to_dict] of a document with an [_id]: the answer has the string
    of the [_id] under [id] and no [_id], every other member under its key
    with its value passed through [bson_to_str], and nothing in it that is
    an [ObjectId] or a [datetime]. *)
Theorem to_dict_renames_id str_of isoformat d i :
  get "_id" d = Some i ->
  exists r,
    to_dict str_of isoformat (Some d) = Some (Some r)
    /\ get "id" r = Some (BStr (str_of i))
    /\ get "_id" r = None
    /\ (forall k, k <> "id" -> k <> "_id" ->
          get k r = option_map (bson_to_str str_of isoformat) (get k d))
    /\ plain (BDict r) = true.
Proof.
  intros G. unfold to_dict. destruct d as [|kv d0]; [discriminate|].
  rewrite G. eexists. split; [reflexivity|].
  set (d := kv :: d0) in *. repeat split.
  - rewrite get_map_values, get_del_other, get_set_same by discriminate.
    reflexivity.
  - now rewrite get_map_values, get_del_same.
  - intros k N1 N2.
    rewrite get_map_values, get_del_other, get_set_other by congruence.
    reflexivity.
  - change (plain (bson_to_str str_of isoformat
                     (BDict (del_item "_id" (set_item "id" (BStr (str_of i)) d))))
            = true).
    apply bson_to_str_plain.
Qed.

Lemma to_dict_renames_id_witness :
  exists r,
    to_dict (fun _ => "5f1d") (raw_strftime "iso")
      (Some [("_id", BObjectId 7); ("alert_date", BDatetime 86400000000);
             ("type", BStr "license_expiry")]) = Some (Some r)
    /\ get "id" r = Some (BStr "5f1d")
    /\ get "_id" r = None
    /\ get "alert_date" r = Some (BStr "iso:86400000000").
Proof.
  destruct (to_dict_renames_id (fun _ => "5f1d") (raw_strftime "iso")
              [("_id", BObjectId 7); ("alert_date", BDatetime 86400000000);
               ("type", BStr "license_expiry")] (BObjectId 7) eq_refl)
    as (r & E & H1 & H2 & H3 & _).
  exists r. repeat split; try assumption.
  rewrite H3 by discriminate. reflexivity.
Defined.

End BsonFacts.
